(* ===== verification/_CoqProject ===== *)
-Q . S2P
Prelude.v
Sha256.v
PyFloat.v
PyValue.v
Json.v
JsonDecode.v
Hasher.v
ProofOfWork.v
Url.v
Uuid.v
Chain.v
Samples.v
Validator.v
Consensus.v
Node.v
Shape.v
Wire.v
Http.v
Cluster.v
Threads.v
