(* ===== verification/Prelude.v ===== *)
(** * A verification development of the [blockchain] node (src/blockchain.py)

    ** The program

    [src/blockchain.py] is a single-process blockchain node written with
    Flask.  One object of class [Blockchain] holds all the state:
    - [chain]: the list of blocks (Python dicts with the keys [index],
      [timestamp], [transactions], [proof], [previous_hash]);
    - [current_transactions]: the buffer of pending transactions;
    - [nodes]: the set of registered peers ([host:port] strings).
    Its methods are [new_block] (seal the buffer into a block),
    [new_transaction] (append to the buffer), [hash] (SHA-256 of the
    [json.dumps(.., sort_keys=True)] encoding of a block), [last_block],
    [proof_of_work] (unbounded search for the least proof [p] such that
    [sha256(f"{last_proof}{p}")] starts with ["0000"]), [valid_proof],
    [valid_chain] (walks a chain checking hash links and proofs),
    [register_node] ([urlparse(address).netloc] added to the set) and
    [resolve_conflicts] (fetch every peer's chain over HTTP and adopt the
    longest valid one whose reported length exceeds ours).  Five Flask
    handlers ([/mine], [/transactions/new], [/chain], [/nodes/register],
    [/nodes/resolve]) call these methods on one global [Blockchain].

    ** How the development models it

    Everything is a shallow embedding; every definition computes, so the
    witnesses evaluate the model on concrete blocks with [vm_compute].
    The files, in dependency order:
    - [Prelude] (this file): Python exceptions ([exc]), the result type
      [res] with its notation [let? x := m in k], the state-and-exception
      monad [PyM] (notation [x <- m ;; k]) in which a raised exception
      keeps the mutations made before it (Python does not roll back), the
      hint database [pyc] and shared lemmas on results and lists.
    - [Sha256]: FIPS 180-4 SHA-256 on byte lists (bytes as [Z] in
      [0,256), words as [Z] in [0,2^32) with the wrap-around written
      out), its constants computed from the primes as the standard
      defines them, and [hexdigest]; it stands for [hashlib.sha256].
    - [PyFloat]: Python floats (the [time()] timestamps) as IEEE binary64
      ([SpecFloat.spec_float], prec 53, emax 1024): [float.__repr__]
      (shortest round-trip digits, CPython's formatting), [+] and exact
      comparison with ints.
    - [PyValue]: the values a JSON document decodes to ([pyval]: None,
      bool, int, float, str, list, dict as an association list) with the
      Python operations the program applies to them: subscripts by str
      and int keys ([IndexError], [KeyError], [TypeError]), [len],
      truthiness, [in], [>] on numbers, [+ 1], [str()], [repr()] and
      [str.encode()] (UTF-8).  Strings are Stdlib [string]s whose
      characters are the code points U+0000..U+00FF.
    - [Json]: [json.dumps(obj, sort_keys=True)] with any separators
      ([dumps_with]; [dumps] has the default ones) and [ensure_ascii=True];
      the encoding does not depend on the order in which dicts were built.
    - [JsonDecode]: [json.loads], the decoder behind [response.json()]
      (lines 68-69), after CPython's C scanner: whitespace, strings with
      their escapes (strict: no raw control characters), numbers (int,
      or a float rounded to nearest), [true]/[false]/[null], arrays and
      objects (a repeated key keeps its last value).
    - [Hasher]: [Blockchain.hash] (lines 123-131).
    - [ProofOfWork]: [valid_proof] and [proof_of_work] (lines 138-162).
    - [Url]: the [netloc] of [urllib.parse.urlparse] after CPython 3.11.
    - [Uuid]: the node identifier [str(uuid4()).replace('-', '')]
      (line 168) after CPython's [uuid.UUID]: sixteen random bytes read
      big-endian into a 128-bit [Z], the variant and version bits set with
      [Z.land]/[Z.lor]/[Z.lnot]/[Z.shiftl], ['%032x'], the 8-4-4-4-12
      dashes of [__str__] and their removal.
    - [Chain]: the [Blockchain] record (a [gset] of peers) and [__init__],
      [new_block], [new_transaction], [last_block], [register_node]
      (lines 10-24, 84-136), each a [PyM] computation on the record.
    - [Samples]: concrete blocks and chains used by the witnesses (a
      genesis block, two mined blocks, tampered copies).
    - [Validator]: [valid_chain] (lines 27-51) as the source's index
      loop over any Python value, and its structural characterisation.
    - [Consensus]: [resolve_conflicts] (lines 54-81); the network is a
      Section variable [fetch] and the iteration order of the set is any
      enumeration of it.
    - [Node]: the five Flask handlers (lines 164-255) and the node as a
      step relation [step] over requests, with [reachable] states from
      [Blockchain()].
    - [Shape]: the schema of blocks and transactions ([block_shape],
      [tx_shape], [chain_shape], [typed]) as the source builds them, its
      preservation by every handler (the resolution as a Section
      hypothesis), and mining progress.
    - [Wire]: two nodes talking: Flask's [jsonify] ([dumps_with "," ":"]
      and a newline), the [/chain] reply of a node as the receiver
      decodes it ([chain_reply]), and [network peers], the transport of a
      set of nodes running this program, composed with [resolve_conflicts]
      and with the node's step relation.
    - [Http]: the Flask layer in front of the handlers: the URL rules of
      the five routes (exact paths, 404, 405, [HEAD] on [GET] rules with
      the body dropped, automatic [OPTIONS]), [request.get_json] (415 on a
      non-JSON mimetype, 400 on text [json.loads] refuses), the rendering
      of a view's return value ([str] as [text/html], anything else through
      [jsonify], an exception as 500), and [serve], one request answered by
      the server; [http_reachable] is the server's own reachability.
    - [Cluster]: several servers running this program: [app.run]
      (lines 258-259) starts a server with a fresh [Blockchain()] at
      [host:5000]; a [cluster] maps addresses to the servers' states; one
      event starts a server or serves one request through [Http.serve],
      the peers answering [GET /chain] from their current state.
    - [Threads]: Werkzeug's threaded server (the default of [app.run]):
      [/mine] split at its proof search into [mine_search] and
      [mine_seal], with other requests and other [/mine] threads running
      in between.

    ** What the theorems show
    - The node: every reachable state holds a chain [valid_chain]
      accepts, whatever peers send ([Node.reachable_chain_valid]); [/mine]
      appends exactly one correctly linked block; a node that never
      resolves numbers its blocks by position.
    - The validator: the index loop equals a structural walk, accepts
      exactly the hash- and proof-linked lists, detects a replaced inner
      block, and leaves the genesis and last blocks unchecked.
    - Consensus: refinement of the longest-valid-chain rule (the adopted
      chain qualifies and no qualifying reply reports more), atomicity
      (no change unless the answer is [True]), and the divergences: an
      unreachable peer aborts, the reported length is trusted, ties go to
      the first reply; without ties the result does not depend on the
      iteration order of the peers, but whether the resolution raises
      can, for any two peers of which one sends a valid chain and the
      other a shorter one on which [valid_chain] raises; a registered
      [http://h] is fetched at [http://h/chain].
    - Registration: once [b''] is a peer (from a [null] in the request),
      every later [/nodes/register] fails.
    - Proof of work: the search returns the least valid proof and
      terminates exactly when a valid proof exists.
    - The server: every 4xx answer leaves the node unchanged (the spec's
      MalformedRequest, [Http.client_error_unchanged]); the server and
      the node model reach the same states ([Http.http_refines_node]):
      every request served is a node step or a stutter, and every node
      request a client can send (JSON bodies, resolutions in the server's
      order) is routed by path and method to its view, which receives the
      value sent; [/nodes/register] is not atomic when a later address
      makes [urlparse] raise ([Http.register_partial_apply]).
    - The cluster: every server of every reachable cluster holds a valid
      chain, and
      keeps the block schema when chains survive the wire format
      ([Cluster.cluster_invariant], by rule induction over the runs); a
      [/nodes/resolve] answered 200 leaves the server with a chain at
      least as long as that of every server it registered
      ([Cluster.resolve_catches_up]); a resolution whose peers are all
      servers of the cluster raises nothing and answers 200
      ([Cluster.resolve_in_cluster_answers]); two servers that resolve in
      turn end with chains of the same length
      ([Cluster.two_resolves_agree]).
    - Threads: a seal keeps the chain valid exactly when
      the proof is valid against the block last at seal time
      ([Threads.seal_valid_iff]); two overlapping [/mine] requests make
      the chain invalid ([Threads.threaded_mine_breaks_chain]), against
      section 5 of the spec.
    - The node identifier: for any sixteen bytes it is 32 lowercase hex
      digits, version digit [4], variant digit in [89ab], spelling the
      128-bit value, whose other 122 bits are the random ones.
    - Hashing: digests have 64 characters and do not depend on dict order.
    - The JSON decoder: [json.loads] of the text [jsonify] writes for [v]
      is [v] with its dicts in key order ([JsonDecode.loads_dumps_ws]),
      for dicts with distinct keys and floats whose repr reads back
      ([float_rt], checked per float by computation); this is what the
      wire theorems rest on.
    - The data: a node that never resolves keeps the spec's block and
      transaction schema, and [/mine] always makes progress when a valid
      proof exists; a node whose peers run this program keeps the schema
      through resolutions too; a peer chain without [index] (which
      [valid_chain] accepts) makes every later [/mine] raise.
    - The wire: against peers running this program a resolution adopts a
      valid chain really longer than ours; the spec's round trip
      ([is_valid] unchanged by serialising and parsing back) holds when no
      proof is a dict, and fails for the dict proof [{'b': 56646, 'a': 0}].

    ** Fuel
    Two loops of the source are unbounded or bounded by the data:
    - [valid_chain]'s [while] runs on fuel [len(chain)], which is always
      enough ([Validator.loop_links]);
    - [proof_of_work]'s [while] has no bound; it runs on a fuel argument,
      and the theorems show that fuel [q + 1] suffices when [q] is a valid
      proof and that no fuel suffices when none exists.  The [/mine]
      handler takes the fuel as part of its request; a request whose
      search has not finished is not a step of the node;
    - the JSON scanner recurses on nested arrays and objects; it runs on
      fuel [3 * len(text) + 1], and every call shortens the text, so this
      fuel is always enough ([JsonDecode.loads_fuel_enough]); it stands
      for the text, not for CPython's recursion limit.

    ** What is not modelled
    - Of [app.run]: the [if __name__ == '__main__'] guard (process
      start-up) and interleavings of threads other than at the proof
      search of [/mine]; the other handlers are short and run in the
      model without a switch, so [Threads] shows real runs but not all
      of them.
    - Of [requests.get]: its URL parsing (credentials, case of the host,
      default ports, IDNA); a server of the cluster is reached by the
      exact URL [http://{host:port}/chain].
    - The sources of randomness and time: [os.urandom]'s sixteen bytes are
      the argument of [Uuid.uuid4], and [time()] is an input of
      [new_block]; their values are not the program's to decide.
    - Requests to hosts that do not run this program: an arbitrary
      function from URL to reply (connection errors included).
    - Flask and Werkzeug internals outside what the program's requests
      reach: the HTML of error pages (only their status is modelled),
      headers other than the content type, and Flask before 2.3, whose
      [get_json] answers 400 rather than 415 to a non-JSON mimetype.
    - Unicode code points above U+00FF in strings (a [\u] escape above
      U+00FF is the model's own error [CodePointAboveFF]).  In
      [json.loads]: CPython's recursion limit (a text nested deeper than
      about 1000 levels raises [RecursionError] in CPython and is parsed
      by the model; a chain of this program is nested six levels plus its
      transaction values, and the theorems about successful decoding are
      about such texts), the [NaN] and [Infinity] literals and CPython's limit
      on the number of digits of an int; the general round trip of
      [float.__repr__] is not proved, it is checked per float
      ([float_rt]). *)

From Stdlib Require Import ZArith List String Ascii Lia Bool.
Import ListNotations.

Declare Scope py_scope.
Delimit Scope py_scope with py.
Open Scope py_scope.

(** ** Python exceptions raised by the program *)

Inductive exc :=
| IndexError          (** [chain[0]], [chain[-1]] on an empty sequence *)
| KeyError            (** dict subscript with a missing key *)
| TypeError           (** subscript, comparison or [+] on the wrong type *)
| AttributeError      (** [.append], [.get] on a value without it *)
| RequestException    (** [requests.get] could not reach the peer *)
| JSONDecodeError     (** [response.json()] on a body that is not JSON *)
| ValueError          (** [urlparse] on an unbalanced IPv6 bracket *)
| RecursionError      (** the JSON scanner nested deeper than its fuel *)
| CodePointAboveFF.   (** not a Python exception: a [\uXXXX] escape naming a
                          code point the development's strings cannot hold *)

Definition exc_eqb (a b : exc) : bool :=
  match a, b with
  | IndexError, IndexError | KeyError, KeyError | TypeError, TypeError
  | AttributeError, AttributeError | RequestException, RequestException
  | JSONDecodeError, JSONDecodeError | ValueError, ValueError
  | RecursionError, RecursionError | CodePointAboveFF, CodePointAboveFF => true
  | _, _ => false
  end.

(** ** Results: a value or a raised exception *)

Inductive res (A : Type) : Type :=
| Ok (a : A)
| Err (e : exc).
Arguments Ok {A} a.
Arguments Err {A} e.

Definition res_bind {A B} (m : res A) (k : A -> res B) : res B :=
  match m with
  | Ok a => k a
  | Err e => Err e
  end.

Definition res_map {A B} (f : A -> B) (m : res A) : res B :=
  res_bind m (fun a => Ok (f a)).

Definition of_option {A} (e : exc) (o : option A) : res A :=
  match o with
  | Some a => Ok a
  | None => Err e
  end.

Notation "'let?' x ':=' m 'in' k" := (res_bind m (fun x => k))
  (at level 10, x name, m at level 100, k at level 200) : py_scope.

(** ** Methods that mutate an object and may raise

    [PyM S A] runs on the object's state [S] and returns the state at the
    point where it returned or raised: an exception does not undo the
    mutations performed before it. *)

Definition PyM (S A : Type) : Type := S -> S * res A.

Definition pret {S A} (a : A) : PyM S A := fun s => (s, Ok a).
Definition praise {S A} (e : exc) : PyM S A := fun s => (s, Err e).
Definition pget {S} : PyM S S := fun s => (s, Ok s).
Definition pput {S} (s' : S) : PyM S unit := fun _ => (s', Ok tt).
Definition plift {S A} (m : res A) : PyM S A := fun s => (s, m).

Definition pbind {S A B} (m : PyM S A) (k : A -> PyM S B) : PyM S B :=
  fun s =>
    match m s with
    | (s', Ok a) => k a s'
    | (s', Err e) => (s', Err e)
    end.

Notation "x <- m ;; k" := (pbind m (fun x => k))
  (at level 100, m at next level, right associativity) : py_scope.

(** ** Shared lemmas on the monads *)

Create HintDb pyc discriminated.
Create Rewrite HintDb pyc_rw.

Lemma res_bind_ok {A B} (m : res A) (k : A -> res B) b :
  res_bind m k = Ok b <-> exists a, m = Ok a /\ k a = Ok b.
Proof.
  destruct m as [a|e]; simpl; split.
  - intros H. exists a. auto.
  - intros [a' [H1 H2]]. inversion H1; subst. exact H2.
  - discriminate.
  - intros [a' [H1 _]]. discriminate.
Qed.

Lemma res_bind_err {A B} (m : res A) (k : A -> res B) e :
  res_bind m k = Err e <-> m = Err e \/ exists a, m = Ok a /\ k a = Err e.
Proof.
  destruct m as [a|e']; simpl; split.
  - intros H. right. exists a. auto.
  - intros [H|[a' [H1 H2]]]; [discriminate|]. inversion H1; subst. exact H2.
  - intros H. left. inversion H. reflexivity.
  - intros [H|[a' [H1 _]]]; [inversion H; reflexivity|discriminate].
Qed.

Lemma res_bind_Ok_l {A B} (a : A) (k : A -> res B) : res_bind (Ok a) k = k a.
Proof. reflexivity. Qed.

Lemma res_bind_Err_l {A B} e (k : A -> res B) : res_bind (Err e) k = Err e.
Proof. reflexivity. Qed.

Lemma pbind_ok_inv {S A B} (m : PyM S A) (k : A -> PyM S B) s s' b :
  pbind m k s = (s', Ok b) ->
  exists a s1, m s = (s1, Ok a) /\ k a s1 = (s', Ok b).
Proof.
  unfold pbind. destruct (m s) as [s1 [a|e]]; [|discriminate].
  intros H. exists a, s1. auto.
Qed.

#[export] Hint Rewrite @res_bind_Ok_l @res_bind_Err_l : pyc_rw.

Lemma res_eq_dec_true (r : res bool) : {r = Ok true} + {r <> Ok true}.
Proof. destruct r as [[|]|e]; [left; reflexivity|right; discriminate..]. Qed.

(** Unfold the monad's plumbing in the goal, leaving the operations. *)
Ltac pyrun := cbn [pbind pget pput plift pret praise res_bind fst snd] in *.

(** Case analysis on every [let?] whose scrutinee is in a hypothesis
    [res_bind m k = Ok b]: the development's basic inversion step. *)
Ltac inv_ok :=
  repeat match goal with
  | H : res_bind ?m ?k = Ok _ |- _ =>
      let a := fresh "a" in let Ha := fresh "Ha" in
      apply res_bind_ok in H; destruct H as [a [Ha H]]
  | H : Ok _ = Ok _ |- _ => injection H as H
  | H : Err _ = Ok _ |- _ => discriminate H
  | H : Ok _ = Err _ |- _ => discriminate H
  end.

(** ** Generic list lemmas *)

Lemma last_app_single {A} (l : list A) (x d : A) : last (l ++ [x]) d = x.
Proof. induction l as [|y l IH]; [reflexivity|]. destruct l; simpl in *; auto. Qed.

Lemma nth_error_app_single {A} (l : list A) (x : A) :
  nth_error (l ++ [x]) (List.length l) = Some x.
Proof. induction l; simpl; auto. Qed.

#[export] Hint Rewrite @last_app_single @nth_error_app_single : pyc_rw.

(** ** Generic string lemmas *)

Lemma sapp_assoc (a b c : string) : ((a ++ b) ++ c)%string = (a ++ (b ++ c))%string.
Proof. induction a as [|x a IH]; simpl; [reflexivity|]. rewrite IH. reflexivity. Qed.

Lemma sapp_nil_r (a : string) : (a ++ EmptyString)%string = a.
Proof. induction a as [|x a IH]; simpl; [reflexivity|]. rewrite IH. reflexivity. Qed.

Lemma slength_app (a b : string) :
  String.length (a ++ b) = (String.length a + String.length b)%nat.
Proof. induction a as [|x a IH]; simpl; [reflexivity|]. rewrite IH. reflexivity. Qed.

Lemma substring_all s : substring 0 (String.length s) s = s.
Proof. induction s as [|c s IH]; simpl; [reflexivity|]. rewrite IH. reflexivity. Qed.

#[export] Hint Rewrite sapp_assoc sapp_nil_r slength_app : pyc_rw.
