(* ===== verification/Sha256.v ===== *)
(** * SHA-256 ([hashlib.sha256(..).hexdigest()])

    The source calls [hashlib.sha256] twice: in [Blockchain.hash] on the
    encoded JSON of a block, and in [valid_proof] on the encoded guess.
    This file gives an executable SHA-256 after FIPS 180-4 on byte lists
    (a byte is a [Z] in [0, 256), a word a [Z] in [0, 2^32) with its
    wrap-around written out) and the lowercase hexadecimal rendering of
    [hexdigest()].  The constants are computed from the primes as the
    standard defines them.  The length of the result (32 bytes, 64 hex
    digits) is proved in [Hasher]. *)

From Stdlib Require Import ZArith List String Ascii Lia.
From S2P Require Import Prelude.
Import ListNotations.
Open Scope Z_scope.

Module Sha256.

(** ** 32-bit word operations *)

Definition wmod (x : Z) : Z := x mod 2 ^ 32.
Definition add32 (x y : Z) : Z := wmod (x + y).
Definition rotr (n x : Z) : Z :=
  Z.lor (Z.shiftr x n) (wmod (Z.shiftl x (32 - n))).
Definition shr (n x : Z) : Z := Z.shiftr x n.
Definition not32 (x : Z) : Z := Z.lxor x (2 ^ 32 - 1).

Definition ch (x y z : Z) : Z := Z.lxor (Z.land x y) (Z.land (not32 x) z).
Definition maj (x y z : Z) : Z :=
  Z.lxor (Z.lxor (Z.land x y) (Z.land x z)) (Z.land y z).
Definition big_sigma0 (x : Z) : Z := Z.lxor (Z.lxor (rotr 2 x) (rotr 13 x)) (rotr 22 x).
Definition big_sigma1 (x : Z) : Z := Z.lxor (Z.lxor (rotr 6 x) (rotr 11 x)) (rotr 25 x).
Definition small_sigma0 (x : Z) : Z := Z.lxor (Z.lxor (rotr 7 x) (rotr 18 x)) (shr 3 x).
Definition small_sigma1 (x : Z) : Z := Z.lxor (Z.lxor (rotr 17 x) (rotr 19 x)) (shr 10 x).

(** ** Constants (FIPS 180-4, 4.2.2 and 5.3.3)

    The standard defines the round constants as the first 32 bits of the
    fractional parts of the cube roots of the first 64 primes, and the
    initial hash value from the square roots of the first 8 primes.  They
    are computed so, once, when the definitions are elaborated. *)

Fixpoint has_divisor (fuel : nat) (d n : Z) : bool :=
  match fuel with
  | O => false
  | S fuel' => if n <? d * d then false else (n mod d =? 0) || has_divisor fuel' (d + 1) n
  end.

Definition is_prime (n : Z) : bool := (2 <=? n) && negb (has_divisor (Z.to_nat n) 2 n).

(** The first [k] primes from [n] on. *)
Fixpoint primes_from (fuel : nat) (k : nat) (n : Z) : list Z :=
  match fuel, k with
  | O, _ | _, O => []
  | S fuel', S k' =>
      if is_prime n then n :: primes_from fuel' k' (n + 1) else primes_from fuel' k (n + 1)
  end.

(** The integer cube root of [x] by bisection on [[lo, hi)]. *)
Fixpoint icbrt_in (fuel : nat) (x lo hi : Z) : Z :=
  match fuel with
  | O => lo
  | S fuel' =>
      if hi - lo <=? 1 then lo
      else let mid := (lo + hi) / 2 in
           if mid * mid * mid <=? x then icbrt_in fuel' x mid hi else icbrt_in fuel' x lo mid
  end.

Definition icbrt (x : Z) : Z := icbrt_in 128 x 0 (Z.sqrt x + 2).

Definition round_constants : list Z :=
  Eval vm_compute in map (fun p => icbrt (p * 2 ^ 96) mod 2 ^ 32) (primes_from 400 64 2).

Definition initial_hash : list Z :=
  Eval vm_compute in map (fun p => Z.sqrt (p * 2 ^ 64) mod 2 ^ 32) (primes_from 400 8 2).

(** ** Padding and parsing (5.1.1, 5.2.1) *)

(** [n] bytes of the big-endian encoding of [x]. *)
Fixpoint be_bytes (n : nat) (x : Z) : list Z :=
  match n with
  | O => []
  | S n' => be_bytes n' (Z.shiftr x 8) ++ [Z.land x 255]
  end.

Definition pad (msg : list Z) : list Z :=
  let len := Z.of_nat (List.length msg) in
  msg ++ [0x80] ++ repeat 0 (Z.to_nat ((55 - len) mod 64))
      ++ be_bytes 8 (8 * len).

Fixpoint be_words (bytes : list Z) : list Z :=
  match bytes with
  | b0 :: b1 :: b2 :: b3 :: rest =>
      (b0 * 2 ^ 24 + b1 * 2 ^ 16 + b2 * 2 ^ 8 + b3) :: be_words rest
  | _ => []
  end.

(** ** Message schedule (6.2.2, step 1)

    [window] holds [W(t-16) .. W(t-1)]. *)
Fixpoint schedule (n : nat) (window : list Z) : list Z :=
  match n with
  | O => []
  | S n' =>
      let w := add32 (add32 (small_sigma1 (nth 14 window 0)) (nth 9 window 0))
                     (add32 (small_sigma0 (nth 1 window 0)) (nth 0 window 0)) in
      w :: schedule n' (tl window ++ [w])
  end.

Definition message_schedule (block16 : list Z) : list Z :=
  block16 ++ schedule 48 block16.

(** ** Compression (6.2.2, steps 2 to 4) *)

Record working := Working { wa : Z; wb : Z; wc : Z; wd : Z; we : Z; wf : Z; wg : Z; wh : Z }.

Definition round (v : working) (kw : Z * Z) : working :=
  let '(k, w) := kw in
  let t1 := add32 (add32 (add32 (wh v) (big_sigma1 (we v)))
                         (add32 (ch (we v) (wf v) (wg v)) k)) w in
  let t2 := add32 (big_sigma0 (wa v)) (maj (wa v) (wb v) (wc v)) in
  Working (add32 t1 t2) (wa v) (wb v) (wc v) (add32 (wd v) t1) (we v) (wf v) (wg v).

Definition to_working (h : list Z) : working :=
  Working (nth 0 h 0) (nth 1 h 0) (nth 2 h 0) (nth 3 h 0)
          (nth 4 h 0) (nth 5 h 0) (nth 6 h 0) (nth 7 h 0).

Definition of_working (v : working) : list Z :=
  [wa v; wb v; wc v; wd v; we v; wf v; wg v; wh v].

Definition compress (h : list Z) (block16 : list Z) : list Z :=
  let v := fold_left round (combine round_constants (message_schedule block16))
                     (to_working h) in
  map (fun '(x, y) => add32 x y) (combine h (of_working v)).

(** [nblocks] 64-byte blocks of [bytes], compressed in order. *)
Fixpoint process (nblocks : nat) (h : list Z) (bytes : list Z) : list Z :=
  match nblocks with
  | O => h
  | S n => process n (compress h (be_words (firstn 64 bytes))) (skipn 64 bytes)
  end.

Definition sha256 (msg : list Z) : list Z :=
  let p := pad msg in
  flat_map (be_bytes 4) (process (List.length p / 64) initial_hash p).

(** ** [hexdigest()] *)

Definition hex_digit (d : Z) : ascii :=
  if d <? 10 then ascii_of_nat (Z.to_nat (48 + d))
  else ascii_of_nat (Z.to_nat (87 + d)).

Fixpoint hex_of_bytes (bs : list Z) : string :=
  match bs with
  | [] => EmptyString
  | b :: bs' => String (hex_digit (Z.shiftr b 4)) (String (hex_digit (Z.land b 15))
                                                        (hex_of_bytes bs'))
  end.

Definition hexdigest (msg : list Z) : string := hex_of_bytes (sha256 msg).

End Sha256.
