(* ===== verification/PyFloat.v ===== *)
(** * Python floats

    The program meets floats in two places: the block timestamp
    ([time()] in [new_block], then [json.dumps] in [hash]) and any JSON
    number with a fraction or an exponent in a peer's reply (compared with
    [>] in [resolve_conflicts], printed by [str()] in [valid_proof],
    incremented by [+ 1] in [new_transaction]).  A Python float is an IEEE
    binary64 number, here [SpecFloat.spec_float] at [prec = 53],
    [emax = 1024] (the Standard Library's executable IEEE model):
    - [float_of_decimal]: correctly rounded decimal to binary conversion
      (what [float('1.5e3')] and the JSON decoder do);
    - [float_repr]: [float.__repr__], the shortest decimal that converts
      back to the same float (CPython's [dtoa] mode 0), laid out as
      CPython's [format_float_short] does for [repr];
    - [float_add], [float_cmp_Z], [float_cmp]: [+] and the exact
      comparisons of [float_richcompare]. *)

From Stdlib Require Import ZArith List String Ascii Lia Bool.
From Stdlib Require Import SpecFloat DecimalString.
From S2P Require Import Prelude.
Import ListNotations.
Open Scope Z_scope.

Module PyFloat.

Definition prec : Z := 53.
Definition emax : Z := 1024.

Definition pyfloat := spec_float.

Definition float_eqb (x y : pyfloat) : bool :=
  match x, y with
  | S754_zero a, S754_zero b | S754_infinity a, S754_infinity b => Bool.eqb a b
  | S754_nan, S754_nan => true
  | S754_finite a m e, S754_finite b m' e' =>
      Bool.eqb a b && Pos.eqb m m' && Z.eqb e e'
  | _, _ => false
  end.

(** ** Decimal text of integers ([int.__repr__]) *)

Definition string_of_N (n : N) : string := NilZero.string_of_uint (N.to_uint n).

Definition string_of_Z (z : Z) : string :=
  if z <? 0 then String "-" (string_of_N (Z.to_N (- z))) else string_of_N (Z.to_N z).

(** Number of decimal digits of a positive integer. *)
Definition ndigits (n : Z) : Z := Z.of_nat (String.length (string_of_N (Z.to_N n))).

(** ** Decimal to binary: the float nearest to [(-1)^neg * c * 10^E] *)

Definition float_of_decimal (neg : bool) (c E : Z) : pyfloat :=
  if c <=? 0 then S754_zero neg
  else if 0 <=? E then binary_round prec emax neg (Z.to_pos (c * 10 ^ E)) 0
  else
    let D := 10 ^ (- E) in
    let s := Z.max 0 (prec + 3 + Z.log2 D - Z.log2 c) in
    let num := c * 2 ^ s in
    let q := num / D in
    let r := num mod D in
    let loc := if r =? 0 then loc_Exact else loc_Inexact (Z.compare (2 * r) D) in
    binary_round_aux prec emax neg q (- s) loc.

(** ** Binary to shortest decimal ([repr]) *)

(** The exact value [num / den] of a positive finite float. *)
Definition exact_ratio (m : positive) (e : Z) : Z * Z :=
  if 0 <=? e then (Z.pos m * 2 ^ e, 1) else (Z.pos m, 2 ^ (- e)).

(** [k] with [10^k <= num/den < 10^(k+1)]. *)
Definition dec_exponent (num den : Z) : Z :=
  let k := ndigits num - ndigits den in
  let ge := if 0 <=? k then den * 10 ^ k <=? num else den <=? num * 10 ^ (- k) in
  if ge then k else k - 1.

(** The [n]-digit decimal chosen at precision [n], if one converts back:
    of the two [n]-digit neighbours of [x], those that convert back to [x],
    the nearer, and on a tie the even one. *)
Definition candidate (neg : bool) (x : pyfloat) (num den k : Z) (n : Z)
    : option (Z * Z) :=
  let E := k - n + 1 in
  let '(N', D') := if 0 <=? E then (num, den * 10 ^ E) else (num * 10 ^ (- E), den) in
  let lo := N' / D' in
  let r := N' mod D' in
  if r =? 0 then Some (lo, E)
  else
    let ok_lo := float_eqb (float_of_decimal neg lo E) x in
    let ok_hi := float_eqb (float_of_decimal neg (lo + 1) E) x in
    match ok_lo, ok_hi with
    | true, true =>
        match Z.compare (2 * r) D' with
        | Lt => Some (lo, E)
        | Gt => Some (lo + 1, E)
        | Eq => if Z.even lo then Some (lo, E) else Some (lo + 1, E)
        end
    | true, false => Some (lo, E)
    | false, true => Some (lo + 1, E)
    | false, false => None
    end.

(** Precisions [n], [n+1], ... up to 17, which always converts back. *)
Fixpoint shortest_from (fuel : nat) (neg : bool) (x : pyfloat) (num den k n : Z)
    : Z * Z :=
  match fuel with
  | O => (num * 10 ^ 17 / den / 10 ^ (k + 1), k - 16)
  | S fuel' =>
      match candidate neg x num den k n with
      | Some ce => ce
      | None => shortest_from fuel' neg x num den k (n + 1)
      end
  end.

Fixpoint strip_zeros (fuel : nat) (c E : Z) : Z * Z :=
  match fuel with
  | O => (c, E)
  | S f => if (0 <? c) && (c mod 10 =? 0) then strip_zeros f (c / 10) (E + 1) else (c, E)
  end.

(** [(digits, decpt)] with [x = 0.digits * 10^decpt] for finite nonzero [x]. *)
Definition shortest_digits (neg : bool) (m : positive) (e : Z) : string * Z :=
  let x := S754_finite neg m e in
  let '(num, den) := exact_ratio m e in
  let k := dec_exponent num den in
  let '(c, E) := shortest_from 17 neg x num den k 1 in
  let '(c', E') := strip_zeros 20 c E in
  let ds := string_of_N (Z.to_N c') in
  (ds, Z.of_nat (String.length ds) + E').

Fixpoint zeros (n : nat) : string :=
  match n with O => EmptyString | S n' => String "0" (zeros n') end.

(** CPython [format_float_short] for [repr]: exponent notation when
    [decpt <= -4] or [decpt > 16], otherwise fixed notation with at least
    one digit after the point. *)
Definition format_repr (ds : string) (decpt : Z) : string :=
  let L := Z.of_nat (String.length ds) in
  if (decpt <=? -4) || (16 <? decpt) then
    let ex := decpt - 1 in
    let mant := match ds with
                | String d0 rest =>
                    if (L =? 1) then String d0 EmptyString
                    else String d0 (String "." rest)
                | EmptyString => EmptyString
                end in
    let exps := string_of_N (Z.to_N (Z.abs ex)) in
    let exps := if Z.abs ex <? 10 then String "0" exps else exps in
    (mant ++ "e" ++ (if Z.ltb ex 0 then "-" else "+") ++ exps)%string
  else if decpt <=? 0 then
    ("0." ++ zeros (Z.to_nat (- decpt)) ++ ds)%string
  else if L <=? decpt then
    (ds ++ zeros (Z.to_nat (decpt - L)) ++ ".0")%string
  else
    (substring 0 (Z.to_nat decpt) ds ++ "." ++
     substring (Z.to_nat decpt) (Z.to_nat (L - decpt)) ds)%string.

Definition float_repr (x : pyfloat) : string :=
  match x with
  | S754_zero s => if s then "-0.0" else "0.0"
  | S754_infinity s => if s then "-inf" else "inf"
  | S754_nan => "nan"
  | S754_finite s m e =>
      let '(ds, decpt) := shortest_digits s m e in
      let r := format_repr ds decpt in
      if s then String "-" r else r
  end%string.

(** ** Arithmetic and comparisons *)

Definition float_of_Z (z : Z) : pyfloat :=
  binary_normalize prec emax z 0 false.

Definition float_add (x y : pyfloat) : pyfloat := SFadd prec emax x y.

(** Exact comparison of a float with an integer, [None] for NaN. *)
Definition float_cmp_Z (x : pyfloat) (z : Z) : option comparison :=
  match x with
  | S754_nan => None
  | S754_infinity s => Some (if s then Lt else Gt)
  | S754_zero _ => Some (Z.compare 0 z)
  | S754_finite s m e =>
      let v := if s then Z.neg m else Z.pos m in
      Some (if 0 <=? e then Z.compare (v * 2 ^ e) z
            else Z.compare v (z * 2 ^ (- e)))
  end.

(** IEEE comparison of two floats, [None] when one is NaN. *)
Definition float_cmp (x y : pyfloat) : option comparison := SFcompare x y.

Definition float_is_zero (x : pyfloat) : bool :=
  match x with S754_zero _ => true | _ => false end.

End PyFloat.
