(* ===== verification/PyValue.v ===== *)
(** * Python values and the operations the program applies to them

    Blocks and transactions are Python dicts; a peer's reply is whatever
    [response.json()] decodes, and [resolve_conflicts] stores it in
    [self.chain] after validation.  So the model keeps the program's
    values untyped: [pyval] is the set of values a JSON document decodes
    to, and each Python operation the source applies to them is a
    function that returns [Err] with the exception CPython raises on the
    wrong type ([TypeError]), a missing key ([KeyError]) or an index out
    of range ([IndexError]).  [str()], [repr()] and [str.encode()] give
    the bytes that [valid_proof] hashes. *)

From Stdlib Require Import ZArith List String Ascii Lia Bool SpecFloat.
From S2P Require Import Prelude PyFloat.
Import ListNotations PyFloat.
Open Scope Z_scope.

Module PyValue.

(** Nested induction principles for [pyval] (through [list_all] and
    [prod_all]). *)
Scheme All for list.
Scheme All for prod.

Inductive pyval :=
| PNone
| PBool (b : bool)
| PInt (z : Z)
| PFloat (f : pyfloat)
| PStr (s : string)
| PList (l : list pyval)
| PDict (d : list (string * pyval)).

(** ** Dicts: association lists in insertion order *)

Fixpoint dict_lookup (d : list (string * pyval)) (k : string) : option pyval :=
  match d with
  | [] => None
  | (k', v) :: d' => if String.eqb k k' then Some v else dict_lookup d' k
  end.

(** [d[k] = v]: replace in place when present, append otherwise. *)
Fixpoint dict_set (d : list (string * pyval)) (k : string) (v : pyval)
    : list (string * pyval) :=
  match d with
  | [] => [(k, v)]
  | (k', v') :: d' => if String.eqb k k' then (k', v) :: d' else (k', v') :: dict_set d' k v
  end.

(** ** Subscripts *)

(** [v[k]] for a str key [k]. *)
Definition getitem_str (v : pyval) (k : string) : res pyval :=
  match v with
  | PDict d => of_option KeyError (dict_lookup d k)
  | _ => Err TypeError
  end.

(** Python's index normalisation: a negative index counts from the end. *)
Definition norm_index (i : Z) (len : nat) : option nat :=
  let j := if i <? 0 then i + Z.of_nat len else i in
  if (0 <=? j) && (j <? Z.of_nat len) then Some (Z.to_nat j) else None.

(** [v[i]] for an int index [i]. *)
Definition getitem_int (v : pyval) (i : Z) : res pyval :=
  match v with
  | PList l =>
      match norm_index i (List.length l) with
      | Some j => of_option IndexError (nth_error l j)
      | None => Err IndexError
      end
  | PStr s =>
      match norm_index i (String.length s) with
      | Some j => of_option IndexError (option_map (fun c => PStr (String c EmptyString))
                                                   (String.get j s))
      | None => Err IndexError
      end
  | PDict _ => Err KeyError
  | _ => Err TypeError
  end.

Definition py_len (v : pyval) : res Z :=
  match v with
  | PList l => Ok (Z.of_nat (List.length l))
  | PStr s => Ok (Z.of_nat (String.length s))
  | PDict d => Ok (Z.of_nat (List.length d))
  | _ => Err TypeError
  end.

(** [bool(v)]: the test of [if v:]. *)
Definition truthy (v : pyval) : bool :=
  match v with
  | PNone => false
  | PBool b => b
  | PInt z => negb (z =? 0)
  | PFloat f => negb (float_is_zero f)
  | PStr s => negb (String.eqb s EmptyString)
  | PList l => negb (Nat.eqb (List.length l) 0)
  | PDict d => negb (Nat.eqb (List.length d) 0)
  end.

(** [v == PStr s]: a str equals only the same str. *)
Definition eq_str (v : pyval) (s : string) : bool :=
  match v with
  | PStr s' => String.eqb s' s
  | _ => false
  end.

(** [k in v] for a str [k]: a key of a dict, an element of a list, a
    substring of a str; other values are not iterable. *)
Definition contains_str (v : pyval) (k : string) : res bool :=
  match v with
  | PDict d => Ok (match dict_lookup d k with Some _ => true | None => false end)
  | PList l => Ok (existsb (fun x => eq_str x k) l)
  | PStr s => Ok (match String.index 0 k s with Some _ => true | None => false end)
  | _ => Err TypeError
  end.

(** ** Numbers: [>] and [+ n] *)

Inductive pynum := NInt (z : Z) | NFloat (f : pyfloat).

(** bool is a subclass of int. *)
Definition as_num (v : pyval) : option pynum :=
  match v with
  | PBool b => Some (NInt (if b then 1 else 0))
  | PInt z => Some (NInt z)
  | PFloat f => Some (NFloat f)
  | _ => None
  end.

Definition num_gt (a b : pynum) : bool :=
  match a, b with
  | NInt x, NInt y => y <? x
  | NFloat f, NInt y => match float_cmp_Z f y with Some Gt => true | _ => false end
  | NInt x, NFloat g => match float_cmp_Z g x with Some Lt => true | _ => false end
  | NFloat f, NFloat g => match float_cmp f g with Some Gt => true | _ => false end
  end.

(** [a > b] where [b] is a number: [a] must be a number too, or Python
    raises [TypeError] ([str], [list], [dict], [None] do not compare with
    numbers).  The program only compares against numbers. *)
Definition gt_num (a b : pyval) : res bool :=
  match as_num a, as_num b with
  | Some x, Some y => Ok (num_gt x y)
  | _, _ => Err TypeError
  end.

(** [v + n] for an int [n]. *)
Definition add_int (v : pyval) (n : Z) : res pyval :=
  match v with
  | PBool b => Ok (PInt ((if b then 1 else 0) + n))
  | PInt z => Ok (PInt (z + n))
  | PFloat f => Ok (PFloat (float_add f (float_of_Z n)))
  | _ => Err TypeError
  end.

(** ** [str()] and [repr()] *)

Definition code (c : ascii) : Z := Z.of_nat (nat_of_ascii c).
Definition chr (n : Z) : ascii := ascii_of_nat (Z.to_nat n).

Definition hex2 (n : Z) : string :=
  let d x := if x <? 10 then chr (48 + x) else chr (87 + x) in
  String (d (n / 16)) (String (d (n mod 16)) EmptyString).

Fixpoint has_char (c : ascii) (s : string) : bool :=
  match s with
  | EmptyString => false
  | String c' s' => Ascii.eqb c c' || has_char c s'
  end.

(** Characters U+0080..U+00A0 and U+00AD are not printable
    ([str.isprintable]); [repr] escapes them. *)
Definition repr_char (quote c : ascii) : string :=
  let n := code c in
  if Ascii.eqb c quote || (n =? 92) then String "\" (String c EmptyString)
  else if n =? 9 then "\t"
  else if n =? 10 then "\n"
  else if n =? 13 then "\r"
  else if (n <? 32) || (n =? 127) then ("\x" ++ hex2 n)%string
  else if n <? 127 then String c EmptyString
  else if (n <=? 160) || (n =? 173) then ("\x" ++ hex2 n)%string
  else String c EmptyString.

Fixpoint repr_chars (quote : ascii) (s : string) : string :=
  match s with
  | EmptyString => EmptyString
  | String c s' => (repr_char quote c ++ repr_chars quote s')%string
  end.

(** [repr] of a str: single quotes unless the text has a single quote and
    no double quote. *)
Definition repr_string (s : string) : string :=
  let q := if has_char "'"%char s && negb (has_char "034"%char s) then "034"%char else "'"%char in
  String q (repr_chars q s ++ String q EmptyString).

Fixpoint join (sep : string) (l : list string) : string :=
  match l with
  | [] => EmptyString
  | [x] => x
  | x :: l' => (x ++ sep ++ join sep l')%string
  end.

Fixpoint py_repr (v : pyval) : string :=
  match v with
  | PNone => "None"
  | PBool b => if b then "True" else "False"
  | PInt z => string_of_Z z
  | PFloat f => float_repr f
  | PStr s => repr_string s
  | PList l => ("[" ++ join ", " (map py_repr l) ++ "]")%string
  | PDict d =>
      ("{" ++ join ", " (map (fun '(k, x) => repr_string k ++ ": " ++ py_repr x) d)
       ++ "}")%string
  end.

(** [str(v)], which is what an f-string substitutes. *)
Definition py_str (v : pyval) : string :=
  match v with
  | PStr s => s
  | _ => py_repr v
  end.

(** ** [str.encode()]: UTF-8 *)

Fixpoint utf8_encode (s : string) : list Z :=
  match s with
  | EmptyString => []
  | String c s' =>
      let n := code c in
      (if n <? 128 then [n] else [192 + n / 64; 128 + n mod 64]) ++ utf8_encode s'
  end.

End PyValue.
