(* ===== verification/Json.v ===== *)
(** * [json.dumps(obj, sort_keys=True)]

    [Blockchain.hash] digests [json.dumps(block, sort_keys=True).encode()].
    This file models that encoder with CPython's defaults: separators
    [", "] and [": "], [ensure_ascii=True] (every character outside
    U+0020..U+007E is escaped, [\uXXXX] with lowercase hex where no short
    escape exists), [allow_nan=True] ([NaN], [Infinity], [-Infinity]),
    [float.__repr__] for other floats, and the items of every dict sorted
    by key.

    The canonical-encoding property the spec asks of the hasher is proved
    here: dicts whose items are a permutation of each other, at any depth,
    encode to the same text ([dumps_same_items]). *)

From Stdlib Require Import ZArith String Ascii Lia Bool SpecFloat.
From stdpp Require Import base list sorting.
From S2P Require Import Prelude PyFloat PyValue.
Import PyFloat PyValue.
Local Open Scope string_scope.
Open Scope Z_scope.

Module Json.

(** ** Strings ([py_encode_basestring_ascii]) *)

Definition hex4 (n : Z) : string := ("00" ++ hex2 n)%string.

Definition json_char (c : ascii) : string :=
  let n := code c in
  if n =? 92 then "\\"
  else if n =? 34 then String "\" (String c EmptyString)
  else if n =? 8 then "\b"
  else if n =? 12 then "\f"
  else if n =? 10 then "\n"
  else if n =? 13 then "\r"
  else if n =? 9 then "\t"
  else if (32 <=? n) && (n <=? 126) then String c EmptyString
  else ("\u" ++ hex4 n)%string.

Fixpoint json_chars (s : string) : string :=
  match s with
  | EmptyString => EmptyString
  | String c s' => (json_char c ++ json_chars s')%string
  end.

Definition quote : ascii := "034"%char.

Definition encode_string (s : string) : string :=
  String quote (json_chars s ++ String quote EmptyString).

(** ** Floats ([floatstr] with [allow_nan=True]) *)

Definition encode_float (f : pyfloat) : string :=
  match f with
  | S754_nan => "NaN"
  | S754_infinity false => "Infinity"
  | S754_infinity true => "-Infinity"
  | _ => float_repr f
  end.

(** ** Sorting the items of a dict by key

    Python sorts [dct.items()]; the keys of a dict are distinct, so the
    key alone decides the order.  The items are sorted after their values
    have been encoded. *)

Definition key_le {B} (a b : string * B) : Prop := String.leb (fst a) (fst b) = true.

Fixpoint insert_item {B} (kv : string * B) (l : list (string * B)) : list (string * B) :=
  match l with
  | [] => [kv]
  | kv' :: l' => if String.leb (fst kv) (fst kv') then kv :: l else kv' :: insert_item kv l'
  end.

Fixpoint sort_items {B} (l : list (string * B)) : list (string * B) :=
  match l with
  | [] => []
  | kv :: l' => insert_item kv (sort_items l')
  end.

Definition render_item (key_sep : string) (kv : string * string) : string :=
  (encode_string (fst kv) ++ key_sep ++ snd kv)%string.

(** [json.dumps(v, sort_keys=True, separators=(item_sep, key_sep))]. *)
Fixpoint dumps_with (item_sep key_sep : string) (v : pyval) : string :=
  match v with
  | PNone => "null"
  | PBool b => if b then "true" else "false"
  | PInt z => string_of_Z z
  | PFloat f => encode_float f
  | PStr s => encode_string s
  | PList l => ("[" ++ join item_sep (map (dumps_with item_sep key_sep) l) ++ "]")%string
  | PDict d =>
      ("{" ++ join item_sep
              (map (render_item key_sep)
                 (sort_items (map (fun '(k, x) => (k, dumps_with item_sep key_sep x)) d)))
       ++ "}")%string
  end.

(** The default separators [(', ', ': ')], as [Blockchain.hash] uses them. *)
Definition dumps : pyval -> string := dumps_with ", " ": ".

(** ** Well-formed values and equality up to the order of dict items *)

(** A Python dict has distinct keys; a JSON decoder keeps the last of
    duplicated keys.  [wfb] asks this of every dict inside a value. *)
Fixpoint nodup_keys (ks : list string) : bool :=
  match ks with
  | [] => true
  | k :: ks' => negb (existsb (String.eqb k) ks') && nodup_keys ks'
  end.

Fixpoint wfb (v : pyval) : bool :=
  match v with
  | PList l => forallb wfb l
  | PDict d => nodup_keys (map fst d) && forallb (fun '(_, x) => wfb x) d
  | _ => true
  end.

(** Structural equality of values in which dicts that hold the same items
    in another order are identified. *)
#[local] Set Warnings "-register-all".
Inductive same_items : pyval -> pyval -> Prop :=
| si_none : same_items PNone PNone
| si_bool b : same_items (PBool b) (PBool b)
| si_int z : same_items (PInt z) (PInt z)
| si_float f : same_items (PFloat f) (PFloat f)
| si_str s : same_items (PStr s) (PStr s)
| si_list l1 l2 : Forall2 same_items l1 l2 -> same_items (PList l1) (PList l2)
| si_dict d1 d2 d2' :
    Forall2 (fun a b => fst a = fst b /\ same_items (snd a) (snd b)) d1 d2' ->
    Permutation d2' d2 ->
    same_items (PDict d1) (PDict d2).

(** ** The encoding does not depend on the order of dict items *)

Lemma string_compare_le_trans a b c :
  String.compare a b <> Gt -> String.compare b c <> Gt -> String.compare a c <> Gt.
Proof.
  revert b c; induction a as [|x a IH]; intros [|y b] [|z c]; simpl; try congruence.
  unfold Ascii.compare.
  destruct (N.compare_spec (Ascii.N_of_ascii x) (Ascii.N_of_ascii y));
  destruct (N.compare_spec (Ascii.N_of_ascii y) (Ascii.N_of_ascii z)); intros H1 H2;
  try congruence;
  destruct (N.compare_spec (Ascii.N_of_ascii x) (Ascii.N_of_ascii z)); try congruence;
  try lia.
  eapply IH; eauto.
Qed.

Lemma string_leb_trans (a b c : string) :
  String.leb a b = true -> String.leb b c = true -> String.leb a c = true.
Proof.
  unfold String.leb. intros H1 H2.
  destruct (String.compare a c) eqn:E3; try reflexivity. exfalso.
  apply (string_compare_le_trans a b c); [..|exact E3]; intros E; rewrite E in *; discriminate.
Qed.

Lemma string_leb_total_false (a b : string) :
  String.leb a b = false -> String.leb b a = true.
Proof. destruct (String.leb_total a b) as [H|H]; congruence. Qed.

#[export] Instance key_le_trans {B} : Transitive (@key_le B).
Proof. intros x y z. apply string_leb_trans. Qed.

Lemma insert_item_perm {B} (kv : string * B) l : insert_item kv l ≡ₚ kv :: l.
Proof.
  induction l as [|kv' l IH]; simpl; [done|].
  destruct (String.leb _ _); [done|]. rewrite IH. constructor.
Qed.

Lemma sort_items_perm {B} (l : list (string * B)) : sort_items l ≡ₚ l.
Proof.
  induction l as [|kv l IH]; simpl; [done|]. by rewrite insert_item_perm, IH.
Qed.

Lemma insert_item_sorted {B} (kv : string * B) l : Sorted key_le l -> Sorted key_le (insert_item kv l).
Proof.
  induction 1 as [|kv' l Hs IH Hhd]; simpl; [repeat constructor|].
  destruct (String.leb (fst kv) (fst kv')) eqn:E.
  - by repeat constructor.
  - constructor; [exact IH|].
    destruct l as [|kv'' l]; simpl; [constructor; by apply string_leb_total_false|].
    destruct (String.leb (fst kv) (fst kv'')); constructor;
      [by apply string_leb_total_false|by inversion Hhd].
Qed.

Lemma sort_items_sorted {B} (l : list (string * B)) : Sorted key_le (sort_items l).
Proof. induction l; simpl; [constructor|by apply insert_item_sorted]. Qed.

Lemma nodup_keys_NoDup ks : nodup_keys ks = true -> NoDup ks.
Proof.
  induction ks as [|k ks IH]; simpl; [constructor|].
  intros [Hn Hr]%andb_prop. constructor; [|auto].
  intros Hin. apply negb_true_iff in Hn. rewrite <- not_true_iff_false in Hn.
  apply Hn, existsb_exists. exists k. split; [by apply list_elem_of_In|apply String.eqb_refl].
Qed.

Lemma NoDup_keys_same {B} (l : list (string * B)) x y :
  NoDup (map fst l) -> In x l -> In y l -> fst x = fst y -> x = y.
Proof.
  induction l as [|z l IH]; simpl; [easy|].
  intros Hnd Hx Hy Hk. inversion Hnd as [|? ? Hz Hnd']; subst.
  destruct Hx as [<-|Hx], Hy as [<-|Hy]; auto;
  exfalso; apply Hz, list_elem_of_In, in_map_iff; eauto.
Qed.

(** Sorting by key commutes with rewriting the values. *)
Lemma insert_item_map_snd {B C} (g : B -> C) (k : string) (x : B) l :
  insert_item (k, g x) (map (fun '(k, x) => (k, g x)) l) =
  map (fun '(k, x) => (k, g x)) (insert_item (k, x) l).
Proof.
  induction l as [|[k' x'] l IH]; simpl; [reflexivity|].
  destruct (String.leb k k'); simpl; [reflexivity|]. rewrite IH. reflexivity.
Qed.

Lemma sort_items_map_snd {B C} (g : B -> C) (l : list (string * B)) :
  sort_items (map (fun '(k, x) => (k, g x)) l) = map (fun '(k, x) => (k, g x)) (sort_items l).
Proof.
  induction l as [|[k x] l IH]; simpl; [reflexivity|].
  rewrite IH. apply insert_item_map_snd.
Qed.

(** Two permutations of the same items with distinct keys sort to the
    same list. *)
Lemma sort_items_perm_eq {B} (l1 l2 : list (string * B)) :
  NoDup (map fst l1) -> l1 ≡ₚ l2 -> sort_items l1 = sort_items l2.
Proof.
  intros Hnd Hp. apply (Sorted_unique_strong key_le); [|apply sort_items_sorted..|].
  - intros x y Hx Hy Hxy Hyx.
    apply (NoDup_keys_same l1); [done| | |by apply String.leb_antisym].
    + apply list_elem_of_In. by rewrite <- (sort_items_perm l1).
    + apply list_elem_of_In. by rewrite Hp, <- (sort_items_perm l2).
  - by rewrite !sort_items_perm.
Qed.

Section Separators.

Variables item_sep key_sep : string.
Local Abbreviation dumps := (dumps_with item_sep key_sep).

Lemma map_dumps_items (d1 d2 : list (string * pyval)) :
  list_all (string * pyval) (prod_all string (fun _ => unit) pyval
     (fun v => forall v2, wfb v = true -> same_items v v2 -> dumps v = dumps v2)) d1 ->
  forallb (fun '(_, x) => wfb x) d1 = true ->
  Forall2 (fun a b => fst a = fst b /\ same_items (snd a) (snd b)) d1 d2 ->
  map (fun '(k, x) => (k, dumps x)) d1 = map (fun '(k, x) => (k, dumps x)) d2.
Proof.
  intros Hall Hwf H2. revert Hall Hwf.
  induction H2 as [|[k x] [k' y] d1 d2 [Hk Hxy] _ IH]; intros Hall Hwf; [done|].
  inversion Hall as [|? Hp ? Hrest]; subst. inversion Hp; subst.
  simpl in *. apply andb_prop in Hwf as [Hx Hwf]. f_equal; [f_equal; auto|auto].
Qed.

(** The dict case of canonicity. *)
Lemma dumps_dict_perm_items (d1 d2 : list (string * string)) :
  NoDup (map fst d1) -> d1 ≡ₚ d2 ->
  join item_sep (map (render_item key_sep) (sort_items d1)) =
  join item_sep (map (render_item key_sep) (sort_items d2)).
Proof. intros Hnd Hp. by rewrite (sort_items_perm_eq d1 d2). Qed.

Lemma map_fst_dumps (d : list (string * pyval)) :
  map fst (map (fun '(k, x) => (k, dumps x)) d) = map fst d.
Proof. induction d as [|[k x] d IH]; simpl; congruence. Qed.

Lemma map_dumps_list (l1 l2 : list pyval) :
  list_all pyval
    (fun v => forall v2, wfb v = true -> same_items v v2 -> dumps v = dumps v2) l1 ->
  forallb wfb l1 = true -> Forall2 same_items l1 l2 -> map dumps l1 = map dumps l2.
Proof.
  intros Hall Hwf H2. revert Hall Hwf.
  induction H2 as [|x y l1 l2 Hxy _ IH]; intros Hall Hwf; [done|].
  inversion Hall; subst. simpl in *. apply andb_prop in Hwf as [Hx Hwf].
  f_equal; auto.
Qed.

Lemma dumps_same_items (v1 v2 : pyval) :
  wfb v1 = true -> same_items v1 v2 -> dumps v1 = dumps v2.
Proof.
  revert v2. induction v1 as [| | | | |l IH|d IH]; intros v2 Hwf Hsi;
    inversion Hsi as [| | | | |? l2 H2|? d2 d2' H2 Hp]; subst; simpl; try reflexivity.
  - by rewrite (map_dumps_list l l2).
  - simpl in Hwf. apply andb_prop in Hwf as [Hnd Hall].
    rewrite (map_dumps_items d d2' IH Hall H2). do 2 f_equal.
    apply dumps_dict_perm_items; [|by apply Permutation_map].
    rewrite <- (map_dumps_items d d2' IH Hall H2), map_fst_dumps.
    by apply nodup_keys_NoDup.
Qed.

End Separators.

(** ** Equality up to item order is reflexive *)

Lemma same_items_refl (v : pyval) : same_items v v.
Proof.
  induction v as [| | | | |l IH|d IH]; try constructor.
  - induction IH; constructor; auto.
  - apply (si_dict d d d); [|reflexivity].
    induction IH as [|kv Hp d _ IHd]; constructor; [|exact IHd].
    destruct Hp as [k _ x Hx]. split; [reflexivity|exact Hx].
Qed.

Lemma same_items_dict_perm (d1 d2 : list (string * pyval)) :
  Permutation d1 d2 -> same_items (PDict d1) (PDict d2).
Proof.
  intros Hp. apply (si_dict d1 d2 d1); [|exact Hp]. clear Hp.
  induction d1 as [|[k x] d1 IH]; constructor; [split; [reflexivity|apply same_items_refl]|].
  exact IH.
Qed.

(** A block as [new_block] builds it, and the same block with its fields
    inserted in the reverse order. *)
Definition sample_block : pyval :=
  PDict [("index", PInt 2); ("timestamp", PFloat (float_of_decimal false 17000000605 (-1)));
         ("transactions", PList [PDict [("sender", PStr "0"); ("recipient", PStr "node-1");
                                        ("amount", PInt 1)]]);
         ("proof", PInt 35293);
         ("previous_hash",
          PStr "71e58952ca1365b292d2bfcc55fecff0295b18a8b810c2e0c8fadfde0cd1e10b")].

Definition sample_block_reversed : pyval :=
  match sample_block with PDict d => PDict (rev d) | v => v end.

Lemma sample_same_items : same_items sample_block sample_block_reversed.
Proof. apply same_items_dict_perm. apply Permutation_rev. Qed.

End Json.
