(* ===== verification/JsonDecode.v ===== *)
(** * [json.loads], as [response.json()] runs it on a peer's reply

    [resolve_conflicts] (src/blockchain.py, lines 65-69) reads a peer's
    [/chain] reply with [response.json()]: requests decodes the body and
    calls [json.loads] on it, which runs CPython's C scanner
    ([_json.c: scan_once_unicode], [scanstring_unicode],
    [_match_number_unicode], [_parse_array_unicode],
    [_parse_object_unicode]) and [JSONDecoder.decode] (leading and
    trailing whitespace, extra data refused).  This file models that decoder on
    the development's strings.

    The scanner recurses on nested arrays and objects; the model runs it
    on a fuel that [loads] fixes at [3 * len(text) + 1], which is always
    enough ([loads_fuel_enough] below).  CPython's scanner also calls
    [Py_EnterRecursiveCall] on each nested array or object and raises
    [RecursionError] past the interpreter's recursion limit (1000 frames
    by default, less the frames in use); that limit is not modelled, so
    on a text nested that deep the model parses where CPython raises.  An escape [\uXXXX] that
    names a code point above U+00FF has no counterpart among the
    development's characters; the model refuses it with
    [CodePointAboveFF] instead of building the character. *)

From Stdlib Require Import ZArith List String Ascii Lia Bool SpecFloat Permutation.
From Stdlib Require Import DecimalString DecimalN.
From S2P Require Import Prelude PyFloat PyValue Json.
Import ListNotations PyFloat PyValue Json.
Open Scope Z_scope.

Module JsonDecode.

(** ** Characters *)

(** The whitespace of [json.decoder.WHITESPACE]: [[ \t\n\r]]. *)
Definition is_ws (c : ascii) : bool :=
  let n := code c in (n =? 32) || (n =? 9) || (n =? 10) || (n =? 13).

Fixpoint skip_ws (s : string) : string :=
  match s with
  | String c s' => if is_ws c then skip_ws s' else s
  | EmptyString => EmptyString
  end.

Definition is_digit (c : ascii) : bool := (48 <=? code c) && (code c <=? 57).

(** The longest prefix of decimal digits, and what follows it. *)
Fixpoint span_digits (s : string) : string * string :=
  match s with
  | String c s' =>
      if is_digit c then let '(ds, r) := span_digits s' in (String c ds, r)
      else (EmptyString, s)
  | EmptyString => (EmptyString, EmptyString)
  end.

(** [int(ds)] on a string of decimal digits. *)
Definition Z_of_digits (ds : string) : Z :=
  match NilZero.uint_of_string ds with
  | Some d => Z.of_N (N.of_uint d)
  | None => 0
  end.

Definition hex_value (c : ascii) : option Z :=
  let n := code c in
  if (48 <=? n) && (n <=? 57) then Some (n - 48)
  else if (97 <=? n) && (n <=? 102) then Some (n - 87)
  else if (65 <=? n) && (n <=? 70) then Some (n - 55)
  else None.

(** The one-character escapes: a backslash followed by a quote, a
    backslash, a slash, or one of [b f n r t]. *)
Definition simple_escape (e : ascii) : option ascii :=
  let n := code e in
  if (n =? 34) || (n =? 92) || (n =? 47) then Some e
  else if n =? 98 then Some (chr 8)
  else if n =? 102 then Some (chr 12)
  else if n =? 110 then Some (chr 10)
  else if n =? 114 then Some (chr 13)
  else if n =? 116 then Some (chr 9)
  else None.

(** ** Strings ([scanstring_unicode], strict mode)

    From after the opening quote to after the closing one. *)
Fixpoint scanstring (s : string) : res (string * string) :=
  match s with
  | EmptyString => Err JSONDecodeError
  | String c s' =>
      let n := code c in
      if n =? 34 then Ok (EmptyString, s')
      else if n =? 92 then
        match s' with
        | String e r =>
            if code e =? 117 then
              match r with
              | String h1 (String h2 (String h3 (String h4 r'))) =>
                  match hex_value h1, hex_value h2, hex_value h3, hex_value h4 with
                  | Some a, Some b, Some c', Some d =>
                      let u := a * 4096 + b * 256 + c' * 16 + d in
                      if u <=? 255 then
                        let? tr := scanstring r' in Ok (String (chr u) (fst tr), snd tr)
                      else Err CodePointAboveFF
                  | _, _, _, _ => Err JSONDecodeError
                  end
              | _ => Err JSONDecodeError
              end
            else
              match simple_escape e with
              | Some x => let? tr := scanstring r in Ok (String x (fst tr), snd tr)
              | None => Err JSONDecodeError
              end
        | EmptyString => Err JSONDecodeError
        end
      else if n <? 32 then Err JSONDecodeError
      else let? tr := scanstring s' in Ok (String c (fst tr), snd tr)
  end.

(** ** Numbers ([_match_number_unicode])

    An optional minus, then [0] or a nonzero digit and the digits after
    it; then a point and digits, if a digit follows the point; then [e]
    or [E], an optional sign and digits, if a digit follows (otherwise the
    [e] is left unread).  With a fraction or an exponent the text goes to [float()],
    which rounds to nearest; otherwise to [int()]. *)

Definition take_sign (s : string) : bool * string :=
  match s with
  | String c r => if code c =? 45 then (true, r) else (false, s)
  | EmptyString => (false, s)
  end.

Definition take_int (s : string) : res (string * string) :=
  match s with
  | String c r =>
      if code c =? 48 then Ok (String c EmptyString, r)
      else if is_digit c then let '(ds, r') := span_digits r in Ok (String c ds, r')
      else Err JSONDecodeError
  | EmptyString => Err JSONDecodeError
  end.

Definition take_frac (s : string) : string * string :=
  match s with
  | String p (String d r) =>
      if (code p =? 46) && is_digit d then let '(ds, r') := span_digits r in (String d ds, r')
      else (EmptyString, s)
  | _ => (EmptyString, s)
  end.

Definition exp_sign (s : string) : bool * string :=
  match s with
  | String sg r => if code sg =? 45 then (true, r) else if code sg =? 43 then (false, r)
                   else (false, s)
  | EmptyString => (false, s)
  end.

Definition take_exp (s : string) : option Z * string :=
  match s with
  | String e r =>
      if (code e =? 101) || (code e =? 69) then
        let '(neg, r1) := exp_sign r in
        match span_digits r1 with
        | (EmptyString, _) => (None, s)
        | (ds, r2) => (Some (if neg then - Z_of_digits ds else Z_of_digits ds), r2)
        end
      else (None, s)
  | EmptyString => (None, s)
  end.

Definition scan_number (s : string) : res (pyval * string) :=
  let '(neg, s1) := take_sign s in
  let? ir := take_int s1 in
  let '(ids, r1) := ir in
  let '(fds, r2) := take_frac r1 in
  let '(ex, r3) := take_exp r2 in
  match fds, ex with
  | EmptyString, None => Ok (PInt (if neg then - Z_of_digits ids else Z_of_digits ids), r3)
  | _, _ =>
      let E := match ex with Some x => x | None => 0 end - Z.of_nat (String.length fds) in
      Ok (PFloat (float_of_decimal neg (Z_of_digits (ids ++ fds)) E), r3)
  end.

(** ** Values ([scan_once_unicode]) *)

Fixpoint strip_prefix (p s : string) : option string :=
  match p, s with
  | EmptyString, _ => Some s
  | String a p', String b s' => if Ascii.eqb a b then strip_prefix p' s' else None
  | _, _ => None
  end.

(** [pairs] to a dict, as [dict(pairs)]: a repeated key keeps its first
    position and its last value. *)
Definition dict_of_pairs (pairs : list (string * pyval)) : list (string * pyval) :=
  fold_left (fun d kv => dict_set d (fst kv) (snd kv)) pairs [].

(** [scan_once] at the first character of a value; [array_items] at the
    first element of a non-empty array; [object_items] after the opening
    quote of a key. *)
Fixpoint scan_once (fuel : nat) (s : string) {struct fuel} : res (pyval * string) :=
  match fuel with
  | O => Err RecursionError
  | S f =>
      match s with
      | EmptyString => Err JSONDecodeError
      | String c r =>
          let n := code c in
          if n =? 34 then let? tr := scanstring r in Ok (PStr (fst tr), snd tr)
          else if n =? 123 then
            match skip_ws r with
            | String c1 r1 =>
                if code c1 =? 125 then Ok (PDict [], r1)
                else if code c1 =? 34 then
                  let? pr := object_items f r1 in Ok (PDict (dict_of_pairs (fst pr)), snd pr)
                else Err JSONDecodeError
            | EmptyString => Err JSONDecodeError
            end
          else if n =? 91 then
            match skip_ws r with
            | String c1 r1 =>
                if code c1 =? 93 then Ok (PList [], r1)
                else let? lr := array_items f (String c1 r1) in Ok (PList (fst lr), snd lr)
            | EmptyString => Err JSONDecodeError
            end
          else
            match strip_prefix "null" s with Some r' => Ok (PNone, r') | None =>
            match strip_prefix "true" s with Some r' => Ok (PBool true, r') | None =>
            match strip_prefix "false" s with Some r' => Ok (PBool false, r') | None =>
            match strip_prefix "NaN" s with Some r' => Ok (PFloat S754_nan, r') | None =>
            match strip_prefix "Infinity" s with
            | Some r' => Ok (PFloat (S754_infinity false), r') | None =>
            match strip_prefix "-Infinity" s with
            | Some r' => Ok (PFloat (S754_infinity true), r')
            | None => scan_number s
            end end end end end end
      end
  end
with array_items (fuel : nat) (s : string) {struct fuel} : res (list pyval * string) :=
  match fuel with
  | O => Err RecursionError
  | S f =>
      let? vr := scan_once f s in
      match skip_ws (snd vr) with
      | String c r =>
          if code c =? 93 then Ok ([fst vr], r)
          else if code c =? 44 then
            let? lr := array_items f (skip_ws r) in Ok (fst vr :: fst lr, snd lr)
          else Err JSONDecodeError
      | EmptyString => Err JSONDecodeError
      end
  end
with object_items (fuel : nat) (s : string) {struct fuel}
    : res (list (string * pyval) * string) :=
  match fuel with
  | O => Err RecursionError
  | S f =>
      let? kr := scanstring s in
      match skip_ws (snd kr) with
      | String c r =>
          if code c =? 58 then
            let? vr := scan_once f (skip_ws r) in
            match skip_ws (snd vr) with
            | String c' r' =>
                if code c' =? 125 then Ok ([(fst kr, fst vr)], r')
                else if code c' =? 44 then
                  match skip_ws r' with
                  | String q r'' =>
                      if code q =? 34 then
                        let? pr := object_items f r'' in Ok ((fst kr, fst vr) :: fst pr, snd pr)
                      else Err JSONDecodeError
                  | EmptyString => Err JSONDecodeError
                  end
                else Err JSONDecodeError
            | EmptyString => Err JSONDecodeError
            end
          else Err JSONDecodeError
      | EmptyString => Err JSONDecodeError
      end
  end.

(** [json.loads(s)]: [JSONDecoder.decode] skips whitespace around one
    value and refuses anything after it. *)
Definition loads (s : string) : res pyval :=
  let? vr := scan_once (3 * String.length s + 1) (skip_ws s) in
  match skip_ws (snd vr) with
  | EmptyString => Ok (fst vr)
  | String _ _ => Err JSONDecodeError
  end.

(** ** Every scanner consumes input *)

Local Abbreviation slen := String.length.

(** Split every [let?], [match] and [if] of a hypothesis [H : ... = Ok _]. *)
Ltac split_ok H :=
  repeat (cbv beta iota zeta in H;
    match type of H with
    | res_bind ?m ?k = Ok _ =>
        let a := fresh "a" in let Ha := fresh "Ha" in
        apply res_bind_ok in H; destruct H as [a [Ha H]]
    | context [match ?x with _ => _ end] => let E := fresh "E" in destruct x eqn:E
    | context [if ?x then _ else _] => let E := fresh "E" in destruct x eqn:E
    | Ok _ = Ok _ => injection H as H
    | Err _ = Ok _ => discriminate H
    end).

Lemma skip_ws_le s : (slen (skip_ws s) <= slen s)%nat.
Proof. induction s as [|c s IH]; simpl; [lia|]. destruct (is_ws c); simpl; lia. Qed.

Lemma span_digits_le s : (slen (snd (span_digits s)) <= slen s)%nat.
Proof.
  induction s as [|c s IH]; simpl; [lia|].
  destruct (is_digit c); [destruct (span_digits s) eqn:E; simpl in *|simpl]; lia.
Qed.

Lemma scanstring_lt s t r : scanstring s = Ok (t, r) -> (slen r < slen s)%nat.
Proof.
  remember (slen s) as n eqn:En. revert s t r En.
  induction n as [n IH] using lt_wf_ind. intros s t r En H.
  destruct s as [|c s']; [discriminate|]. simpl in H.
  split_ok H; subst; simpl in *;
    repeat match goal with
           | Ha : scanstring ?x = Ok ?a |- _ =>
               destruct a; specialize (IH (slen x) ltac:(simpl; lia) x _ _ eq_refl Ha);
               clear Ha
           end; simpl in *; lia.
Qed.

Lemma take_int_lt s ds r : take_int s = Ok (ds, r) -> (slen r < slen s)%nat.
Proof.
  unfold take_int. destruct s as [|c s]; [discriminate|].
  destruct (code c =? 48); [intros H; injection H as _ <-; simpl; lia|].
  destruct (is_digit c); [|discriminate].
  pose proof (span_digits_le s) as Hl. destruct (span_digits s).
  intros H; injection H as _ <-. simpl in *. lia.
Qed.

Lemma take_sign_le s : (slen (snd (take_sign s)) <= slen s)%nat.
Proof. unfold take_sign. destruct s; [|destruct (_ =? _)]; simpl; lia. Qed.

Lemma take_frac_le s : (slen (snd (take_frac s)) <= slen s)%nat.
Proof.
  unfold take_frac. destruct s as [|p [|d r]]; simpl; try lia.
  destruct (_ && _); [|simpl; lia].
  pose proof (span_digits_le r). destruct (span_digits r); simpl in *; lia.
Qed.

Lemma exp_sign_le s : (slen (snd (exp_sign s)) <= slen s)%nat.
Proof. unfold exp_sign. destruct s; [|destruct (_ =? 45); [|destruct (_ =? 43)]]; simpl; lia. Qed.

Lemma take_exp_le s : (slen (snd (take_exp s)) <= slen s)%nat.
Proof.
  unfold take_exp. destruct s as [|e r]; simpl; [lia|].
  destruct (_ || _); [|simpl; lia].
  pose proof (exp_sign_le r). destruct (exp_sign r) as [b r1]. simpl in *.
  pose proof (span_digits_le r1). destruct (span_digits r1) as [[|d ds] r2]; simpl in *; lia.
Qed.

Lemma scan_number_lt s v r : scan_number s = Ok (v, r) -> (slen r < slen s)%nat.
Proof.
  unfold scan_number. intros H.
  pose proof (take_sign_le s). destruct (take_sign s) as [neg s1]. simpl in *.
  destruct (take_int s1) as [[ids r1]|e] eqn:Hi; [|discriminate]. simpl in H.
  apply take_int_lt in Hi.
  pose proof (take_frac_le r1). destruct (take_frac r1) as [fds r2]. simpl in *.
  pose proof (take_exp_le r2). destruct (take_exp r2) as [ex r3]. simpl in *.
  destruct fds, ex; injection H as _ <-; lia.
Qed.

Lemma strip_prefix_le p s r : strip_prefix p s = Some r -> (slen r + slen p = slen s)%nat.
Proof.
  revert s. induction p as [|a p IH]; intros [|b s] H; simpl in H; try discriminate.
  - injection H as <-. simpl. lia.
  - injection H as <-. simpl. lia.
  - destruct (Ascii.eqb a b); [apply IH in H; simpl; lia|discriminate].
Qed.

#[local] Arguments strip_prefix : simpl never.
#[local] Arguments scanstring : simpl never.
#[local] Arguments scan_number : simpl never.

(** Turn every scanner result in the context into a fact on lengths. *)
Ltac len_facts :=
  repeat match goal with
  | a : (_ * _)%type |- _ => destruct a
  | E : skip_ws ?x = ?y |- _ =>
      let L := fresh "L" in pose proof (skip_ws_le x) as L; rewrite E in L; clear E
  | E : scanstring _ = Ok _ |- _ => apply scanstring_lt in E
  | E : scan_number _ = Ok _ |- _ => apply scan_number_lt in E
  | E : strip_prefix _ _ = Some _ |- _ => apply strip_prefix_le in E
  | H : context [skip_ws ?x] |- _ =>
      let L := fresh "L" in let y := fresh "w" in
      pose proof (skip_ws_le x) as L; set (y := skip_ws x) in *; clearbody y
  end; subst; simpl in *.

Lemma scan_lt f :
  (forall s v r, scan_once f s = Ok (v, r) -> (slen r < slen s)%nat) /\
  (forall s l r, array_items f s = Ok (l, r) -> (slen r < slen s)%nat) /\
  (forall s l r, object_items f s = Ok (l, r) -> (slen r < slen s)%nat).
Proof.
  induction f as [|f [IHs [IHa IHo]]];
    (split; [|split]); intros s x r H; simpl in H; try discriminate;
    [destruct s as [|c s]; [discriminate|]|..];
    split_ok H; len_facts;
    repeat match goal with
    | E : scan_once f _ = Ok _ |- _ => apply IHs in E
    | E : array_items f _ = Ok _ |- _ => apply IHa in E
    | E : object_items f _ = Ok _ |- _ => apply IHo in E
    end; simpl in *; lia.
Qed.

(** ** The fuel of [loads] is enough: no [RecursionError] *)

Lemma scanstring_not_recursion s : scanstring s <> Err RecursionError.
Proof.
  remember (slen s) as n eqn:En. revert s En.
  induction n as [n IH] using lt_wf_ind. intros [|c s] En H; [discriminate|].
  unfold scanstring in H; fold scanstring in H.
  repeat match type of H with
  | res_bind (scanstring ?x) _ = _ =>
      let E := fresh "E" in destruct (scanstring x) eqn:E; simpl in H; [discriminate|];
      injection H as ->; subst n; exact (IH (slen x) ltac:(simpl; lia) x eq_refl E)
  | context [match ?x with _ => _ end] => destruct x
  | context [if ?x then _ else _] => destruct x
  end; discriminate.
Qed.

Lemma scan_number_not_recursion s : scan_number s <> Err RecursionError.
Proof.
  unfold scan_number. destruct (take_sign s) as [neg s1].
  destruct (take_int s1) as [[ids r1]|e] eqn:E; simpl.
  - destruct (take_frac r1) as [fds r2]. destruct (take_exp r2) as [ex r3].
    destruct fds, ex; discriminate.
  - unfold take_int in E. destruct s1 as [|c s1]; [injection E as <-; discriminate|].
    destruct (code c =? 48); [discriminate|].
    destruct (is_digit c); [destruct (span_digits s1); discriminate|].
    injection E as <-; discriminate.
Qed.

Ltac len_bound :=
  repeat match goal with
  | |- context [slen (skip_ws ?x)] =>
      let L := fresh "L" in pose proof (skip_ws_le x) as L; set (skip_ws x) in *
  | _ : context [slen (skip_ws ?x)] |- _ =>
      let L := fresh "L" in pose proof (skip_ws_le x) as L; set (skip_ws x) in *
  end; simpl in *; lia.

(** Case analysis on the goal [X <> Err RecursionError], calling the
    induction hypotheses on every nested scan. *)
Ltac total_cases IHs IHa IHo :=
  repeat (cbv beta iota zeta;
    match goal with
    | |- res_bind (scan_once ?g ?x) _ <> _ =>
        let H := fresh "H" in let E := fresh "E" in
        assert (H : scan_once g x <> Err RecursionError) by (apply IHs; len_bound);
        destruct (scan_once g x) as [[?v ?r]|?e] eqn:E; simpl res_bind;
        [apply (proj1 (scan_lt g)) in E|congruence]
    | |- res_bind (array_items ?g ?x) _ <> _ =>
        let H := fresh "H" in let E := fresh "E" in
        assert (H : array_items g x <> Err RecursionError) by (apply IHa; len_bound);
        destruct (array_items g x) as [[?v ?r]|?e] eqn:E; simpl res_bind;
        [apply (proj1 (proj2 (scan_lt g))) in E|congruence]
    | |- res_bind (object_items ?g ?x) _ <> _ =>
        let H := fresh "H" in let E := fresh "E" in
        assert (H : object_items g x <> Err RecursionError) by (apply IHo; len_bound);
        destruct (object_items g x) as [[?v ?r]|?e] eqn:E; simpl res_bind;
        [apply (proj2 (proj2 (scan_lt g))) in E|congruence]
    | |- res_bind (scanstring ?x) _ <> _ =>
        let E := fresh "E" in pose proof (scanstring_not_recursion x);
        destruct (scanstring x) as [[?t ?r]|?e] eqn:E; simpl res_bind;
        [apply scanstring_lt in E|congruence]
    | |- context [match skip_ws ?x with _ => _ end] =>
        let L := fresh "L" in let E := fresh "E" in
        pose proof (skip_ws_le x) as L; destruct (skip_ws x) eqn:E; simpl in L
    | |- context [match ?x with _ => _ end] => destruct x eqn:?
    | |- context [if ?x then _ else _] => destruct x eqn:?
    | |- Ok _ <> Err _ => discriminate
    | |- Err ?e <> Err RecursionError => discriminate
    | |- scan_number _ <> _ => apply scan_number_not_recursion
    end).

Lemma scan_no_recursion_error f :
  (forall s, (3 * slen s + 1 <= f)%nat -> scan_once f s <> Err RecursionError) /\
  (forall s, (3 * slen s + 2 <= f)%nat -> array_items f s <> Err RecursionError) /\
  (forall s, (3 * slen s + 2 <= f)%nat -> object_items f s <> Err RecursionError).
Proof.
  induction f as [|f [IHs [IHa IHo]]]; (split; [|split]); intros s Hf; [lia..| | |].
  - destruct s as [|c s]; [discriminate|]. simpl. total_cases IHs IHa IHo.
  - simpl. total_cases IHs IHa IHo.
  - simpl. total_cases IHs IHa IHo.
Qed.

(** The fuel [3 * len(s) + 1] of [loads] covers every nesting the text
    can have: the model's [RecursionError] (fuel exhausted) never
    happens.  CPython's own recursion limit is not modelled (see the
    header). *)
Lemma loads_fuel_enough (s : string) : loads s <> Err RecursionError.
Proof.
  unfold loads. pose proof (proj1 (scan_no_recursion_error (3 * slen s + 1)) (skip_ws s)) as H.
  pose proof (skip_ws_le s).
  destruct (scan_once _ (skip_ws s)) as [[v r]|e]; simpl.
  - destruct (skip_ws r); discriminate.
  - intros He. injection He as ->. apply H; [lia|reflexivity].
Qed.

(** ** Decimal digits of [int.__repr__] *)

Fixpoint all_digits (s : string) : bool :=
  match s with
  | EmptyString => true
  | String c s' => is_digit c && all_digits s'
  end.

Lemma code_inj (c d : ascii) : code c = code d -> c = d.
Proof.
  unfold code. intros H. apply Nat2Z.inj in H.
  rewrite <- (ascii_nat_embedding c), <- (ascii_nat_embedding d), H. reflexivity.
Qed.

Lemma string_of_uint_digits d : all_digits (NilEmpty.string_of_uint d) = true.
Proof. induction d; simpl; auto. Qed.

Lemma string_of_N_shape n :
  exists c r, string_of_N n = String c r /\ is_digit c = true /\ all_digits r = true.
Proof.
  unfold string_of_N, NilZero.string_of_uint.
  destruct (N.to_uint n); simpl; eexists _, _; split; try reflexivity;
    split; try reflexivity; apply string_of_uint_digits.
Qed.

Lemma nzhead_head d : match Decimal.nzhead d with Decimal.D0 _ => False | _ => True end.
Proof. induction d; simpl; auto. Qed.

(** No leading zero: a text starting with [0] is [0] itself. *)
Lemma string_of_N_zero_head n r : string_of_N n = String "0" r -> r = EmptyString /\ n = 0%N.
Proof.
  unfold string_of_N. pose proof (DecimalN.Unsigned.of_to n) as Hn.
  pose proof (DecimalN.Unsigned.to_of (N.to_uint n)) as Hu. rewrite Hn in Hu.
  destruct (N.to_uint n) as [|d| | | | | | | | |] eqn:E; simpl; intros H;
    try discriminate; injection H as <-.
  unfold Decimal.unorm in Hu. simpl in Hu. pose proof (nzhead_head d) as Hh.
  destruct (Decimal.nzhead d); try contradiction; try discriminate.
  injection Hu as ->. split; [reflexivity|]. rewrite <- Hn. reflexivity.
Qed.

Lemma Z_of_digits_string_of_N n : Z_of_digits (string_of_N n) = Z.of_N n.
Proof.
  unfold Z_of_digits.
  destruct (NilZero.usu_gen (N.to_uint n)) as [H|H]; unfold string_of_N; rewrite H.
  - rewrite DecimalN.Unsigned.of_to. reflexivity.
  - apply NilZero.sus in H. symmetry in H.
    destruct (string_of_N_zero_head n EmptyString H) as [_ ->]. reflexivity.
Qed.

Lemma span_digits_all s : all_digits s = true -> span_digits s = (s, EmptyString).
Proof.
  induction s as [|c s IH]; simpl; [reflexivity|].
  intros [-> Hs]%andb_prop. rewrite IH by exact Hs. reflexivity.
Qed.

Lemma take_int_string_of_N n : take_int (string_of_N n) = Ok (string_of_N n, EmptyString).
Proof.
  destruct (string_of_N_shape n) as [c [r [E [Hc Hr]]]]. rewrite E. unfold take_int.
  destruct (Z.eqb_spec (code c) 48) as [H0|H0].
  - apply (code_inj c "0") in H0. subst c.
    destruct (string_of_N_zero_head n r E) as [-> _]. reflexivity.
  - rewrite Hc, span_digits_all by exact Hr. reflexivity.
Qed.

Lemma digit_not_minus c : is_digit c = true -> (code c =? 45) = false.
Proof. unfold is_digit. intros [H1 H2]%andb_prop. apply Z.leb_le in H1. lia. Qed.

(** ** What follows a number does not change it

    [stops rest]: [rest] is empty or starts with a character that cannot
    continue a number (not a digit, [.], [e], [E], [+] or [-]); every
    delimiter that follows a value in [json.dumps] output does. *)

Definition stops (rest : string) : bool :=
  match rest with
  | EmptyString => true
  | String c _ =>
      negb (is_digit c) && negb (code c =? 46) && negb (code c =? 101) &&
      negb (code c =? 69) && negb (code c =? 43) && negb (code c =? 45)
  end.

Section Stops.

Variable rest : string.
Hypothesis Hrest : stops rest = true.

Lemma stops_facts :
  match rest with
  | EmptyString => True
  | String c _ => is_digit c = false /\ (code c =? 46) = false /\ (code c =? 101) = false /\
                  (code c =? 69) = false /\ (code c =? 43) = false /\ (code c =? 45) = false
  end.
Proof.
  destruct rest as [|c r]; [exact I|]. simpl in Hrest.
  repeat rewrite andb_true_iff in Hrest. rewrite !negb_true_iff in Hrest. tauto.
Qed.

Ltac stops_cases :=
  pose proof stops_facts as Hs; destruct rest as [|c0 r0];
    [|destruct Hs as [Hd [Hp [He [HE [Hplus Hminus]]]]]]; simpl.

Lemma span_digits_app t :
  span_digits (t ++ rest) = (fst (span_digits t), (snd (span_digits t) ++ rest)%string).
Proof.
  induction t as [|c t IH]; simpl.
  - stops_cases; [reflexivity|]. rewrite Hd. reflexivity.
  - destruct (is_digit c); [|reflexivity]. rewrite IH. destruct (span_digits t). reflexivity.
Qed.

Lemma take_sign_app t :
  take_sign (t ++ rest) = (fst (take_sign t), (snd (take_sign t) ++ rest)%string).
Proof.
  destruct t as [|c t]; simpl; [stops_cases; [reflexivity|]; rewrite Hminus; reflexivity|].
  destruct (code c =? 45); reflexivity.
Qed.

Lemma take_int_app t :
  take_int (t ++ rest) = res_map (fun p => (fst p, (snd p ++ rest)%string)) (take_int t).
Proof.
  destruct t as [|c t]; simpl.
  - stops_cases; [reflexivity|]. rewrite Hd. destruct (code c0 =? 48) eqn:E0; [|reflexivity].
    apply Z.eqb_eq in E0. unfold is_digit in Hd. rewrite E0 in Hd. discriminate.
  - destruct (code c =? 48); [reflexivity|]. destruct (is_digit c); [|reflexivity].
    rewrite span_digits_app. destruct (span_digits t). reflexivity.
Qed.

Lemma take_frac_app t :
  take_frac (t ++ rest) = (fst (take_frac t), (snd (take_frac t) ++ rest)%string).
Proof.
  destruct t as [|p [|d t]]; simpl.
  - stops_cases; [reflexivity|]. destruct r0 as [|d r0]; [reflexivity|]. rewrite Hp. reflexivity.
  - stops_cases; [reflexivity|]. rewrite Hd, andb_false_r. reflexivity.
  - destruct (_ && _); [|reflexivity]. rewrite span_digits_app. destruct (span_digits t).
    reflexivity.
Qed.

Lemma exp_sign_app t :
  exp_sign (t ++ rest) = (fst (exp_sign t), (snd (exp_sign t) ++ rest)%string).
Proof.
  destruct t as [|c t]; simpl; [stops_cases; [reflexivity|]; rewrite Hminus, Hplus; reflexivity|].
  destruct (code c =? 45); [reflexivity|]. destruct (code c =? 43); reflexivity.
Qed.

Lemma take_exp_app t :
  take_exp (t ++ rest) = (fst (take_exp t), (snd (take_exp t) ++ rest)%string).
Proof.
  destruct t as [|e t]; simpl.
  - stops_cases; [reflexivity|]. rewrite He, HE. reflexivity.
  - destruct (_ || _); [|reflexivity].
    rewrite exp_sign_app. destruct (exp_sign t) as [neg r1]. simpl.
    rewrite span_digits_app. destruct (span_digits r1) as [[|d ds] r2]; reflexivity.
Qed.

Lemma scan_number_app t :
  scan_number (t ++ rest) = res_map (fun p => (fst p, (snd p ++ rest)%string)) (scan_number t).
Proof.
  unfold scan_number. rewrite take_sign_app. destruct (take_sign t) as [neg s1]. simpl.
  rewrite take_int_app. destruct (take_int s1) as [[ids r1]|e]; [simpl|reflexivity].
  rewrite take_frac_app. destruct (take_frac r1) as [fds r2]. simpl.
  rewrite take_exp_app. destruct (take_exp r2) as [ex r3]. simpl.
  destruct fds, ex; reflexivity.
Qed.

End Stops.

(** The text of an int reads back as that int. *)
Lemma scan_number_Z z : scan_number (string_of_Z z) = Ok (PInt z, EmptyString).
Proof.
  unfold string_of_Z. destruct (Z.ltb_spec z 0) as [Hz|Hz].
  - unfold scan_number. simpl. rewrite take_int_string_of_N. simpl.
    rewrite Z_of_digits_string_of_N, Z2N.id, Z.opp_involutive by lia. reflexivity.
  - unfold scan_number.
    destruct (string_of_N_shape (Z.to_N z)) as [c [r [E [Hc _]]]].
    assert (take_sign (string_of_N (Z.to_N z)) = (false, string_of_N (Z.to_N z))) as ->.
    { rewrite E. simpl. rewrite digit_not_minus by exact Hc. reflexivity. }
    rewrite take_int_string_of_N. simpl.
    rewrite Z_of_digits_string_of_N, Z2N.id by lia. reflexivity.
Qed.

(** ** Which branch of [scan_once] reads a number *)

Lemma strip_prefix_cons a p b s :
  strip_prefix (String a p) (String b s) = if Ascii.eqb a b then strip_prefix p s else None.
Proof. reflexivity. Qed.

Lemma strip_prefix_nil s : strip_prefix EmptyString s = Some s.
Proof. reflexivity. Qed.

Lemma ascii_eqb_digit a c : is_digit a = false -> is_digit c = true -> Ascii.eqb a c = false.
Proof. intros Ha Hc. destruct (Ascii.eqb_spec a c) as [->|]; congruence. Qed.

Lemma digit_code c : is_digit c = true -> (48 <= code c <= 57)%Z.
Proof. unfold is_digit. intros [H1 H2]%andb_prop. apply Z.leb_le in H1, H2. lia. Qed.

(** Rewrite the literal tests of [scan_once] away on a text whose first
    character, or whose character after a minus, is the digit [c]. *)
Ltac literal_tests c :=
  pose proof (digit_code c ltac:(assumption));
  repeat ((rewrite (ascii_eqb_digit _ c) by (reflexivity || assumption))
          || (rewrite strip_prefix_cons) || (rewrite strip_prefix_nil)
          || (progress cbn [Ascii.eqb Bool.eqb]));
  repeat match goal with
  | |- context [code c =? ?k] => replace (code c =? k) with false by (symmetry; apply Z.eqb_neq; lia)
  end.

Lemma scan_once_digit f c r :
  is_digit c = true -> scan_once (S f) (String c r) = scan_number (String c r).
Proof. intros Hc. cbn [scan_once]. literal_tests c. reflexivity. Qed.

Lemma scan_once_minus_digit f c r :
  is_digit c = true ->
  scan_once (S f) (String "-" (String c r)) = scan_number (String "-" (String c r)).
Proof. intros Hc. cbn [scan_once]. literal_tests c. reflexivity. Qed.

(** ** Floats *)

Lemma format_repr_head d0 r0 decpt :
  is_digit d0 = true ->
  exists c r, format_repr (String d0 r0) decpt = String c r /\ is_digit c = true.
Proof.
  intros Hd. unfold format_repr.
  destruct (_ || _); [destruct (_ =? 1); simpl; eauto|].
  destruct (Z.leb_spec decpt 0); [simpl; eauto|].
  destruct (_ <=? decpt); [simpl; eauto|].
  destruct (Z.to_nat decpt) eqn:En; [lia|simpl; eauto].
Qed.

Lemma float_repr_head s m e :
  exists c r, (float_repr (S754_finite s m e) = String c r \/
               float_repr (S754_finite s m e) = String "-" (String c r)) /\ is_digit c = true.
Proof.
  unfold float_repr, shortest_digits.
  destruct (exact_ratio m e) as [num den]. destruct (shortest_from _ _ _ _ _ _ _) as [c0 E0].
  destruct (strip_zeros _ c0 E0) as [c1 E1].
  destruct (string_of_N_shape (Z.to_N c1)) as [d0 [r0 [-> [Hd _]]]].
  destruct (format_repr_head d0 r0 (Z.of_nat (String.length (String d0 r0)) + E1) Hd)
    as [c [r [-> Hc]]].
  exists c, r. destruct s; auto.
Qed.

Lemma float_eqb_eq x y : float_eqb x y = true -> x = y.
Proof.
  destruct x, y; simpl; try discriminate; try reflexivity;
    try (intros H; apply Bool.eqb_prop in H; subst; reflexivity).
  intros H. repeat rewrite andb_true_iff in H. destruct H as [[H1 H2] H3].
  apply Bool.eqb_prop in H1. apply Pos.eqb_eq in H2. apply Z.eqb_eq in H3. subst. reflexivity.
Qed.

(** [float_rt f]: the text [repr(f)] reads back as [f] (NaN and the
    infinities are written as constants the scanner knows). *)
Definition float_rt (f : pyfloat) : bool :=
  match f with
  | S754_nan | S754_infinity _ => true
  | _ =>
      match scan_number (float_repr f) with
      | Ok (PFloat g, EmptyString) => float_eqb g f
      | _ => false
      end
  end.

(** A number text whose first character, after an optional minus, is a
    digit, followed by a character that stops numbers. *)
Lemma scan_once_number_text fuel t rest v :
  (exists c r, (t = String c r \/ t = String "-" (String c r)) /\ is_digit c = true) ->
  scan_number t = Ok (v, EmptyString) -> stops rest = true ->
  scan_once (S fuel) (t ++ rest) = Ok (v, rest).
Proof.
  intros [c [r [[-> | ->] Hc]]] Ht Hr.
  - change (String c r ++ rest)%string with (String c (r ++ rest)).
    rewrite scan_once_digit by exact Hc.
    change (String c (r ++ rest)) with (String c r ++ rest)%string.
    rewrite (scan_number_app rest Hr), Ht. reflexivity.
  - change (String "-" (String c r) ++ rest)%string with (String "-" (String c (r ++ rest))).
    rewrite scan_once_minus_digit by exact Hc.
    change (String "-" (String c (r ++ rest))) with (String "-" (String c r) ++ rest)%string.
    rewrite (scan_number_app rest Hr), Ht. reflexivity.
Qed.

Lemma string_of_Z_head z :
  exists c r, (string_of_Z z = String c r \/ string_of_Z z = String "-" (String c r)) /\
    is_digit c = true.
Proof.
  unfold string_of_Z.
  destruct (string_of_N_shape (Z.to_N (if z <? 0 then - z else z))) as [c [r [E [Hc _]]]].
  exists c, r. destruct (z <? 0); rewrite E; auto.
Qed.

Lemma scan_float fuel f rest :
  float_rt f = true -> stops rest = true ->
  scan_once (S fuel) (encode_float f ++ rest) = Ok (PFloat f, rest).
Proof.
  intros Hf Hr. destruct f as [[]|[]| |s m e]; try reflexivity.
  - apply scan_once_number_text; [|reflexivity|exact Hr]. exists "0"%char, ".0"%string. auto.
  - apply scan_once_number_text; [|reflexivity|exact Hr]. exists "0"%char, ".0"%string. auto.
  - apply scan_once_number_text; [apply float_repr_head| |exact Hr].
    unfold float_rt in Hf. destruct (scan_number _) as [[[| | |g| | |] [|]]|]; try discriminate.
    apply float_eqb_eq in Hf. subst. reflexivity.
Qed.

(** ** Strings read back *)

(** Each of the 256 characters, as [py_encode_basestring_ascii] writes
    it, reads back as itself. *)
Lemma scanstring_json_char c t :
  scanstring (json_char c ++ t) = res_map (fun p => (String c (fst p), snd p)) (scanstring t).
Proof. destruct c as [[] [] [] [] [] [] [] []]; reflexivity. Qed.

Lemma scanstring_json_chars s rest :
  scanstring (json_chars s ++ String quote rest) = Ok (s, rest).
Proof.
  induction s as [|c s IH]; [reflexivity|]. simpl.
  rewrite sapp_assoc, scanstring_json_char, IH. reflexivity.
Qed.

Lemma scan_string fuel s rest :
  scan_once (S fuel) (encode_string s ++ rest) = Ok (PStr s, rest).
Proof.
  unfold encode_string. cbn [String.append scan_once]. rewrite sapp_assoc.
  cbn [String.append]. rewrite scanstring_json_chars. reflexivity.
Qed.

(** ** The value [json.loads] gives back for [json.dumps(v, sort_keys=True)]

    The decoder builds each dict in the order of the text, which
    [sort_keys] made the order of the keys: [canon v] is [v] with the
    items of every dict sorted by key (the same dict for Python's [==]). *)
Fixpoint canon (v : pyval) : pyval :=
  match v with
  | PList l => PList (map canon l)
  | PDict d => PDict (sort_items (map (fun '(k, x) => (k, canon x)) d))
  | _ => v
  end.

(** Every float inside [v] passes [float_rt]. *)
Fixpoint floats_ok (v : pyval) : bool :=
  match v with
  | PFloat f => float_rt f
  | PList l => forallb floats_ok l
  | PDict d => forallb (fun '(_, x) => floats_ok x) d
  | _ => true
  end.

Fixpoint all_ws (s : string) : bool :=
  match s with
  | EmptyString => true
  | String c s' => is_ws c && all_ws s'
  end.

Lemma skip_ws_app_ws w t : all_ws w = true -> skip_ws (w ++ t) = skip_ws t.
Proof.
  induction w as [|c w IH]; simpl; [reflexivity|]. intros [-> Hw]%andb_prop. exact (IH Hw).
Qed.

Lemma skip_ws_nonws c t : is_ws c = false -> skip_ws (String c t) = String c t.
Proof. simpl. intros ->. reflexivity. Qed.

Lemma digit_not_ws c : is_digit c = true -> is_ws c = false.
Proof.
  intros Hc. apply digit_code in Hc. unfold is_ws.
  repeat (rewrite (proj2 (Z.eqb_neq _ _)) by lia). reflexivity.
Qed.

Lemma dict_set_fresh d k v : ~ In k (map fst d) -> dict_set d k v = d ++ [(k, v)].
Proof.
  induction d as [|[k' v'] d IH]; simpl; [reflexivity|]. intros Hn.
  destruct (String.eqb_spec k k') as [->|_]; [tauto|]. rewrite IH by tauto. reflexivity.
Qed.

Lemma fold_dict_set acc ps :
  NoDup (map fst (acc ++ ps)) ->
  fold_left (fun d kv => dict_set d (fst kv) (snd kv)) ps acc = acc ++ ps.
Proof.
  revert acc. induction ps as [|[k v] ps IH]; intros acc Hnd; simpl; [symmetry; apply app_nil_r|].
  rewrite map_app in Hnd. simpl in Hnd.
  rewrite dict_set_fresh.
  - rewrite IH; [rewrite <- app_assoc; reflexivity|]. rewrite <- app_assoc. simpl.
    rewrite map_app. exact Hnd.
  - apply NoDup_remove_2 in Hnd. rewrite in_app_iff in Hnd. tauto.
Qed.

(** [dict(pairs)] keeps pairs whose keys are distinct as they are. *)
Lemma dict_of_pairs_nodup ps : NoDup (map fst ps) -> dict_of_pairs ps = ps.
Proof. intros H. apply (fold_dict_set [] ps H). Qed.

(** ** The round trip *)

Section RoundTrip.

Variables w1 w2 : string.
Hypothesis Hw1 : all_ws w1 = true.
Hypothesis Hw2 : all_ws w2 = true.
Local Abbreviation D := (dumps_with (String "," w1) (String ":" w2)).

Lemma dumps_head v :
  exists c r, D v = String c r /\ is_ws c = false /\ (code c =? 93) = false.
Proof.
  assert (Hdig : forall c, is_digit c = true -> is_ws c = false /\ (code c =? 93) = false).
  { intros c Hc. split; [apply digit_not_ws, Hc|]. apply digit_code in Hc. apply Z.eqb_neq. lia. }
  destruct v as [|b|z|f|s|l|d]; cbn [dumps_with];
    try (eexists _, _; split; [reflexivity|split; reflexivity]).
  - destruct b; (eexists _, _; split; [reflexivity|split; reflexivity]).
  - destruct (string_of_Z_head z) as [c [r [[-> | ->] Hc]]];
      [exists c, r; split; [reflexivity|apply Hdig, Hc]|].
    eexists _, _; split; [reflexivity|split; reflexivity].
  - destruct f as [[]|[]| |s m e]; try (eexists _, _; split; [reflexivity|split; reflexivity]).
    change (encode_float (S754_finite s m e)) with (float_repr (S754_finite s m e)).
    destruct (float_repr_head s m e) as [c [r [[-> | ->] Hc]]];
      [exists c, r; split; [reflexivity|apply Hdig, Hc]|].
    eexists _, _; split; [reflexivity|split; reflexivity].
Qed.

Lemma skip_ws_dumps v t : skip_ws (D v ++ t) = (D v ++ t)%string.
Proof.
  destruct (dumps_head v) as [c [r [E [Hc _]]]]. rewrite E. simpl. rewrite Hc. reflexivity.
Qed.

Lemma dumps_nonempty v : (1 <= slen (D v))%nat.
Proof. destruct (dumps_head v) as [c [r [-> _]]]. simpl. lia. Qed.

Definition RT (v : pyval) : Prop :=
  wfb v = true -> floats_ok v = true -> forall rest f, stops rest = true ->
  (3 * slen (D v ++ rest) + 1 <= f)%nat -> scan_once f (D v ++ rest) = Ok (canon v, rest).

Lemma join_head sep a l : exists t, join sep (a :: l) = (a ++ t)%string.
Proof.
  destruct l; simpl; [exists EmptyString; rewrite sapp_nil_r|eexists]; reflexivity.
Qed.

Lemma skip_ws_join v l t :
  skip_ws (join (String "," w1) (D v :: l) ++ t) = (join (String "," w1) (D v :: l) ++ t)%string.
Proof.
  destruct (join_head (String "," w1) (D v) l) as [u ->]. rewrite sapp_assoc.
  apply skip_ws_dumps.
Qed.

Ltac lens :=
  repeat (first [rewrite slength_app in * | progress cbn [String.length] in *]); lia.

Lemma array_items_dumps (l : list pyval) rest f :
  Forall RT l -> forallb wfb l = true -> forallb floats_ok l = true -> l <> [] ->
  (3 * slen (join (String "," w1) (map D l) ++ String "]" rest) + 2 <= f)%nat ->
  array_items f (join (String "," w1) (map D l) ++ String "]" rest) = Ok (map canon l, rest).
Proof.
  revert f. induction l as [|x l IH]; intros f Hall Hwf Hfl Hne Hf; [congruence|].
  inversion Hall as [|? ? Hx Hl]; subst. simpl in Hwf, Hfl.
  apply andb_prop in Hwf as [Hwx Hwl]. apply andb_prop in Hfl as [Hfx Hfl'].
  destruct f as [|f]; [lia|]. cbn [array_items].
  destruct l as [|y l].
  - cbn [map join] in *. rewrite (Hx Hwx Hfx (String "]" rest) f eq_refl) by lens.
    reflexivity.
  - set (T := join (String "," w1) (map D (y :: l))) in *.
    change (join (String "," w1) (map D (x :: y :: l)))
      with (D x ++ String "," w1 ++ T)%string in *.
    rewrite !sapp_assoc in *. cbn [String.append] in *.
    rewrite (Hx Hwx Hfx (String "," (w1 ++ T ++ String "]" rest)) f eq_refl) by lens.
    cbn [res_bind fst snd].
    rewrite skip_ws_nonws by reflexivity. cbn [code nat_of_ascii N_of_ascii]. simpl.
    rewrite skip_ws_app_ws by exact Hw1. unfold T.
    change (map D (y :: l)) with (D y :: map D l). rewrite skip_ws_join.
    fold T. pose proof (dumps_nonempty x). rewrite IH by (auto; discriminate || lens).
    reflexivity.
Qed.

Ltac sassoc := repeat (first [rewrite sapp_assoc | progress cbn [String.append]]).

(** The items of a dict from the first key's text on, as [json.dumps]
    writes them and [object_items] reads them. *)
Fixpoint obj_text (kv : string * pyval) (ps : list (string * pyval)) (rest : string) : string :=
  match ps with
  | [] => json_chars (fst kv) ++ String quote (String ":" (w2 ++ D (snd kv) ++ String "}" rest))
  | kv' :: ps' =>
      json_chars (fst kv) ++ String quote (String ":" (w2 ++ D (snd kv) ++
        String "," (w1 ++ String quote (obj_text kv' ps' rest))))
  end.

Lemma obj_text_bridge kv ps rest :
  (join (String "," w1) (map (render_item (String ":" w2)) (map (fun '(k, x) => (k, D x)) (kv :: ps)))
   ++ String "}" rest)%string = String quote (obj_text kv ps rest).
Proof.
  revert kv. induction ps as [|kv' ps IH]; intros [k x].
  - cbn [map join obj_text fst snd]. unfold render_item, encode_string. cbn [fst snd]. sassoc.
    reflexivity.
  - specialize (IH kv'). destruct kv' as [k' x'].
    cbn [map join obj_text fst snd] in *. rewrite <- IH. unfold render_item, encode_string.
    cbn [fst snd]. sassoc. reflexivity.
Qed.

Lemma object_items_dumps kv ps rest f :
  Forall (fun kv => RT (snd kv)) (kv :: ps) ->
  forallb (fun kv => wfb (snd kv) && floats_ok (snd kv)) (kv :: ps) = true ->
  (3 * slen (obj_text kv ps rest) + 2 <= f)%nat ->
  object_items f (obj_text kv ps rest) = Ok (map (fun '(k, x) => (k, canon x)) (kv :: ps), rest).
Proof.
  revert kv f. induction ps as [|kv' ps IH]; intros [k x] f Hall Hok Hf;
    inversion Hall as [|? ? Hx Hps]; subst; cbn [forallb snd] in Hok;
    apply andb_prop in Hok as [Hx1 Hok]; apply andb_prop in Hx1 as [Hwx Hfx];
    destruct f as [|f]; try lia; cbn [object_items obj_text fst snd] in *;
    rewrite scanstring_json_chars; cbn [res_bind fst snd];
    rewrite skip_ws_nonws by reflexivity; cbn [code nat_of_ascii N_of_ascii]; simpl;
    rewrite skip_ws_app_ws, skip_ws_dumps by exact Hw2.
  - rewrite (Hx Hwx Hfx (String "}" rest) f eq_refl) by lens. reflexivity.
  - rewrite (Hx Hwx Hfx (String "," (w1 ++ String quote (obj_text kv' ps rest))) f eq_refl)
      by lens.
    cbn [res_bind fst snd]. rewrite skip_ws_nonws by reflexivity.
    cbn [code nat_of_ascii N_of_ascii]. simpl. rewrite skip_ws_app_ws by exact Hw1.
    rewrite skip_ws_nonws by reflexivity. simpl.
    pose proof (dumps_nonempty x). rewrite IH by (auto || lens). reflexivity.
Qed.

Lemma scan_list l rest f :
  Forall RT l -> forallb wfb l = true -> forallb floats_ok l = true -> stops rest = true ->
  (3 * slen (D (PList l) ++ rest) + 1 <= f)%nat ->
  scan_once f (D (PList l) ++ rest) = Ok (canon (PList l), rest).
Proof.
  intros Hall Hw Hfl Hr Hf. destruct f as [|f]; [lia|].
  cbn [dumps_with canon] in *. sassoc. cbn [scan_once code nat_of_ascii N_of_ascii]. simpl.
  destruct l as [|x l']; [reflexivity|].
  destruct (join_head (String "," w1) (D x) (map D l')) as [u Hu].
  destruct (dumps_head x) as [c [r [Ex [Hws Hc]]]].
  assert (HT : (join (String "," w1) (map D (x :: l')) ++ String "]" rest)%string =
               String c (r ++ u ++ String "]" rest)).
  { cbn [map]. rewrite Hu, Ex. sassoc. reflexivity. }
  rewrite HT, skip_ws_nonws, Hc, <- HT by exact Hws.
  rewrite array_items_dumps by (auto; discriminate || lens). reflexivity.
Qed.

Lemma nodup_keys_List_NoDup ks : nodup_keys ks = true -> List.NoDup ks.
Proof.
  induction ks as [|k ks IH]; simpl; [constructor|].
  intros [Hn Hr]%andb_prop. constructor; [|exact (IH Hr)].
  intros Hin. apply negb_true_iff in Hn. rewrite <- not_true_iff_false in Hn.
  apply Hn, existsb_exists. exists k. split; [exact Hin|apply String.eqb_refl].
Qed.

Lemma Forall_sort_items {B} (P : string * B -> Prop) (d : list (string * B)) :
  Forall P d -> Forall P (sort_items d).
Proof.
  rewrite !Forall_forall. intros H x Hx. apply H.
  apply (Permutation_in _ (sort_items_perm d)), Hx.
Qed.

Lemma scan_dict d rest f :
  Forall (fun kv => RT (snd kv)) d -> wfb (PDict d) = true -> floats_ok (PDict d) = true ->
  stops rest = true -> (3 * slen (D (PDict d) ++ rest) + 1 <= f)%nat ->
  scan_once f (D (PDict d) ++ rest) = Ok (canon (PDict d), rest).
Proof.
  intros Hall Hw Hfl Hr Hf. destruct f as [|f]; [lia|].
  cbn [wfb floats_ok] in Hw, Hfl. apply andb_prop in Hw as [Hnd Hw].
  assert (Hok : Forall (fun kv => RT (snd kv) /\ wfb (snd kv) && floats_ok (snd kv) = true)
                       (sort_items d)).
  { apply Forall_sort_items. rewrite Forall_forall in *. intros [k x] Hin. split.
    - exact (Hall _ Hin).
    - rewrite forallb_forall in Hw, Hfl. specialize (Hw _ Hin). specialize (Hfl _ Hin).
      cbn in Hw, Hfl |- *. rewrite Hw, Hfl. reflexivity. }
  assert (Hkeys : NoDup (map fst (sort_items d))).
  { apply (Permutation_NoDup (Permutation_map fst (Permutation_sym (sort_items_perm d)))).
    apply nodup_keys_List_NoDup, Hnd. }
  cbn [dumps_with canon] in *. rewrite sort_items_map_snd in *. rewrite sort_items_map_snd.
  destruct (sort_items d) as [|kv ps].
  - reflexivity.
  - repeat (first [rewrite sapp_assoc in Hf | progress cbn [String.append] in Hf]).
    sassoc. rewrite obj_text_bridge in *. cbn [scan_once code nat_of_ascii N_of_ascii]. simpl.
    rewrite object_items_dumps.
    + cbn [res_bind fst snd]. rewrite dict_of_pairs_nodup; [reflexivity|].
      rewrite map_map. replace (map _ (kv :: ps)) with (map fst (kv :: ps)); [exact Hkeys|].
      apply map_ext. intros [k x]. reflexivity.
    + eapply Forall_impl; [|exact Hok]. intros kv' [H _]. exact H.
    + apply forallb_forall. intros kv' Hin. rewrite Forall_forall in Hok. apply (Hok _ Hin).
    + lens.
Qed.

Lemma list_all_Forall {A} (P : A -> Prop) (l : list A) : list_all A P l -> Forall P l.
Proof. induction 1; constructor; auto. Qed.

Lemma list_all_prod_Forall {B} (P : pyval -> Prop) (d : list (B * pyval)) :
  list_all (B * pyval) (prod_all B (fun _ => unit) pyval P) d -> Forall (fun kv => P (snd kv)) d.
Proof. induction 1 as [|kv Hp d _ IH]; constructor; [destruct Hp; exact p|exact IH]. Qed.

(** Every well-formed value whose floats read back is read back by the
    scanner, as [canon v], from its [json.dumps] text followed by any
    character that ends a value. *)
Lemma scan_dumps v : RT v.
Proof.
  induction v as [|b|z|fl|s|l IH|d IH]; intros Hw Hfl rest f Hr Hf;
    try (destruct f as [|f]; [lia|]).
  - reflexivity.
  - destruct b; reflexivity.
  - apply scan_once_number_text; [apply string_of_Z_head|apply scan_number_Z|exact Hr].
  - apply scan_float; assumption.
  - apply scan_string.
  - apply scan_list; auto. apply list_all_Forall, IH.
  - apply scan_dict; auto. apply list_all_prod_Forall, IH.
Qed.


Lemma stops_ws w : all_ws w = true -> stops w = true.
Proof.
  destruct w as [|c w]; [reflexivity|]. simpl. intros [Hc _]%andb_prop.
  unfold is_ws in Hc. unfold is_digit.
  repeat rewrite orb_true_iff in Hc. repeat rewrite Z.eqb_eq in Hc.
  destruct Hc as [[[H|H]|H]|H]; rewrite H; reflexivity.
Qed.

(** [json.loads] of the text [json.dumps] writes, followed by any
    whitespace (Flask appends a newline), gives [canon v] back. *)
Lemma loads_dumps_ws v w :
  wfb v = true -> floats_ok v = true -> all_ws w = true -> loads (D v ++ w) = Ok (canon v).
Proof.
  intros Hw Hfl Hws. unfold loads. rewrite skip_ws_dumps.
  rewrite (scan_dumps v Hw Hfl w _ (stops_ws w Hws) (le_n _)). cbn [res_bind fst snd].
  rewrite <- (sapp_nil_r w), skip_ws_app_ws by exact Hws. reflexivity.
Qed.

End RoundTrip.

End JsonDecode.
