(* ===== verification/Hasher.v ===== *)
(** * [Blockchain.hash] (src/blockchain.py, lines 123-131)

    [hash(block) = sha256(json.dumps(block, sort_keys=True).encode()).hexdigest()].
    The theorems: the digest always has 64 characters (so the
    slices and comparisons of [valid_proof] and [valid_chain] are on a
    full digest), and it is canonical: blocks whose dicts hold the same
    items in any order hash identically. *)

From Stdlib Require Import ZArith List String Ascii Lia Bool.
From S2P Require Import Prelude Sha256 PyFloat PyValue Json.
Import ListNotations PyValue Json Sha256.
Open Scope Z_scope.

Module Hasher.

Definition hash (block : pyval) : string :=
  hexdigest (utf8_encode (dumps block)).

(** ** The digest has 32 bytes and 64 hex characters *)

Lemma be_bytes_length n x : List.length (be_bytes n x) = n.
Proof.
  revert x; induction n as [|n IH]; intros x; simpl; [reflexivity|].
  rewrite length_app, IH. simpl. lia.
Qed.

Lemma compress_length h block : List.length h = 8%nat -> List.length (compress h block) = 8%nat.
Proof.
  intros Hh. unfold compress. rewrite length_map, length_combine. simpl. lia.
Qed.

Lemma process_length n h bytes :
  List.length h = 8%nat -> List.length (process n h bytes) = 8%nat.
Proof.
  revert h bytes; induction n as [|n IH]; intros h bytes Hh; simpl; [exact Hh|].
  apply IH, compress_length, Hh.
Qed.

Lemma flat_map_be_bytes_length (ws : list Z) :
  List.length (flat_map (be_bytes 4) ws) = (4 * List.length ws)%nat.
Proof.
  induction ws as [|w ws IH]; [reflexivity|].
  change (flat_map (be_bytes 4) (w :: ws)) with (be_bytes 4 w ++ flat_map (be_bytes 4) ws).
  rewrite length_app, be_bytes_length, IH. simpl. lia.
Qed.

Lemma sha256_length msg : List.length (sha256 msg) = 32%nat.
Proof.
  unfold sha256. rewrite flat_map_be_bytes_length, process_length; reflexivity.
Qed.

Lemma hex_of_bytes_length bs : String.length (hex_of_bytes bs) = (2 * List.length bs)%nat.
Proof. induction bs as [|b bs IH]; simpl; [reflexivity|]. rewrite IH. lia. Qed.

(** Every digest [hash] computes is 64 characters long, so the
    comparisons of [valid_chain] are between full SHA-256 digests. *)
Theorem hash_length (block : pyval) : String.length (hash block) = 64%nat.
Proof.
  unfold hash, hexdigest. rewrite hex_of_bytes_length, sha256_length. reflexivity.
Qed.

(** C10: the block hash is insensitive to the order in which the fields
    of the block and of its transactions were inserted. *)
Theorem hash_canonical (b1 b2 : pyval) :
  wfb b1 = true -> same_items b1 b2 -> hash b1 = hash b2.
Proof. intros Hwf Hsi. unfold hash. unfold dumps. rewrite (dumps_same_items _ _ b1 b2 Hwf Hsi). reflexivity. Qed.

Lemma hash_canonical_witness : hash sample_block = hash sample_block_reversed.
Proof. apply hash_canonical; [vm_compute; reflexivity|exact sample_same_items]. Defined.

End Hasher.
