(* ===== verification/Url.v ===== *)
(** * [urllib.parse.urlparse(address).netloc]

    [Blockchain.register_node] (src/blockchain.py, lines 18-24) stores
    [urlparse(address).netloc].  This file models the part of CPython
    3.11's [urlsplit] that decides the netloc: leading C0 controls and
    spaces are stripped, tab, CR and LF are removed, a scheme is split off
    at the first [':'] when the text before it is a letter followed by
    scheme characters, and the netloc is what follows a leading ["//"] up
    to the first ['/'], ['?'] or ['#'].  An address without ["//"] (such
    as ['192.168.0.5:5000'] or ['localhost:5000']) has an empty netloc.
    [_checknetloc]'s NFKC test never fires on the code points
    U+0000..U+00FF this development covers.  An address [http://h/...]
    whose [h] holds no delimiter, bracket, tab or newline has the netloc
    [h] ([netloc_of_http]). *)

From Stdlib Require Import ZArith List String Ascii Lia Bool.
From S2P Require Import Prelude PyFloat PyValue.
Import ListNotations PyValue.
Open Scope Z_scope.

Module Url.

Fixpoint lstrip_c0 (s : string) : string :=
  match s with
  | String c s' => if code c <=? 32 then lstrip_c0 s' else s
  | EmptyString => EmptyString
  end.

Fixpoint remove_unsafe (s : string) : string :=
  match s with
  | String c s' =>
      let n := code c in
      if (n =? 9) || (n =? 10) || (n =? 13) then remove_unsafe s' else String c (remove_unsafe s')
  | EmptyString => EmptyString
  end.

Definition is_ascii_alpha (c : ascii) : bool :=
  let n := code c in ((65 <=? n) && (n <=? 90)) || ((97 <=? n) && (n <=? 122)).

Definition is_scheme_char (c : ascii) : bool :=
  let n := code c in
  is_ascii_alpha c || ((48 <=? n) && (n <=? 57)) || (n =? 43) || (n =? 45) || (n =? 46).

Fixpoint all_chars (p : ascii -> bool) (s : string) : bool :=
  match s with
  | String c s' => p c && all_chars p s'
  | EmptyString => true
  end.

(** [str.find(c)]. *)
Fixpoint find_char (c : ascii) (s : string) : option nat :=
  match s with
  | EmptyString => None
  | String c' s' => if Ascii.eqb c c' then Some O else option_map S (find_char c s')
  end.

Definition drop (n : nat) (s : string) : string := substring n (String.length s - n) s.

(** The scheme split: [url[:i]] must start with an ASCII letter and
    consist of scheme characters. *)
Definition split_scheme (url : string) : string :=
  match find_char ":" url, url with
  | Some i, String c0 _ =>
      if (0 <? i)%nat && is_ascii_alpha c0 && all_chars is_scheme_char (substring 0 i url)
      then drop (S i) url else url
  | _, _ => url
  end.

(** [_splitnetloc(url, 2)]: up to the first ['/'], ['?'] or ['#']. *)
Fixpoint take_netloc (s : string) : string :=
  match s with
  | String c s' =>
      if Ascii.eqb c "/" || Ascii.eqb c "?" || Ascii.eqb c "#" then EmptyString
      else String c (take_netloc s')
  | EmptyString => EmptyString
  end.

Definition has_char (c : ascii) (s : string) : bool :=
  match find_char c s with Some _ => true | None => false end.

Definition netloc_of (address : string) : res string :=
  let url := split_scheme (remove_unsafe (lstrip_c0 address)) in
  if String.prefix "//" url then
    let netloc := take_netloc (drop 2 url) in
    if xorb (has_char "[" netloc) (has_char "]" netloc) then Err ValueError else Ok netloc
  else Ok EmptyString.

(** ** An address without a slash has an empty netloc *)

Lemma find_char_lstrip c s : find_char c s = None -> find_char c (lstrip_c0 s) = None.
Proof.
  induction s as [|c' s IH]; simpl; intros H; [reflexivity|].
  destruct (Ascii.eqb c c') eqn:Ec; [discriminate|].
  destruct (find_char c s) eqn:E; [discriminate|].
  destruct (code c' <=? 32); [apply IH; reflexivity|simpl; rewrite Ec, E; reflexivity].
Qed.

Lemma find_char_remove_unsafe c s : find_char c s = None -> find_char c (remove_unsafe s) = None.
Proof.
  induction s as [|c' s IH]; simpl; intros H; [reflexivity|].
  destruct (Ascii.eqb c c') eqn:Ec; [discriminate|].
  destruct (find_char c s) eqn:E; [discriminate|].
  destruct (_ || _); [apply IH; reflexivity|simpl; rewrite Ec, IH; reflexivity].
Qed.

Lemma find_char_substring c s n m :
  find_char c s = None -> find_char c (substring n m s) = None.
Proof.
  revert n m. induction s as [|c' s IH]; intros n m H; destruct n, m; simpl in *;
    try reflexivity;
  destruct (Ascii.eqb c c') eqn:Ec; try discriminate;
  destruct (find_char c s) eqn:E; try discriminate; auto.
  rewrite IH; reflexivity.
Qed.

Lemma find_char_split_scheme c s : find_char c s = None -> find_char c (split_scheme s) = None.
Proof.
  intros H. unfold split_scheme.
  destruct (find_char ":" s) as [i|]; destruct s as [|c0 s']; auto.
  destruct (_ && _); [apply find_char_substring|]; auto.
Qed.

Lemma prefix_slashes_none s : find_char "/" s = None -> String.prefix "//" s = false.
Proof.
  destruct s as [|c s]; intros H; [reflexivity|].
  assert (E : String.prefix "//" (String c s) =
              if ascii_dec "/" c then String.prefix "/" s else false) by reflexivity.
  rewrite E. destruct (ascii_dec "/" c) as [Hc|Hc]; [|reflexivity].
  subst c. cbn [find_char] in H. rewrite Ascii.eqb_refl in H. discriminate.
Qed.

Lemma netloc_of_no_slash a : find_char "/" a = None -> netloc_of a = Ok EmptyString.
Proof.
  intros H. unfold netloc_of.
  rewrite prefix_slashes_none; [reflexivity|].
  apply find_char_split_scheme, find_char_remove_unsafe, find_char_lstrip, H.
Qed.


(** ** An address [http://host:port] has the netloc [host:port] *)

(** A character that can stand in a netloc as written: none of the
    delimiters [/ ? #], no bracket, and none of tab, CR, LF. *)
Definition netloc_char (c : ascii) : bool :=
  let n := code c in
  negb ((n =? 47) || (n =? 63) || (n =? 35) || (n =? 91) || (n =? 93) ||
        (n =? 9) || (n =? 10) || (n =? 13)).

(** A path after the netloc: empty or starting with ['/']. *)
Definition path_start (p : string) : bool :=
  match p with EmptyString => true | String c _ => Ascii.eqb c "/" end.

Lemma remove_unsafe_netloc h t :
  all_chars netloc_char h = true -> remove_unsafe (h ++ t) = (h ++ remove_unsafe t)%string.
Proof.
  induction h as [|c h IH]; simpl; [reflexivity|]. intros [Hc Hh]%andb_prop.
  unfold netloc_char in Hc. apply negb_true_iff in Hc. repeat rewrite orb_false_iff in Hc.
  destruct Hc as [[[[[[[_ _] _] _] _] H9] H10] H13]. rewrite H9, H10, H13. simpl. rewrite IH; auto.
Qed.

Lemma take_netloc_netloc h t :
  all_chars netloc_char h = true -> path_start t = true -> take_netloc (h ++ t) = h.
Proof.
  induction h as [|c h IH]; simpl; intros Hh Ht.
  - destruct t as [|c t]; [reflexivity|]. simpl in Ht. apply Ascii.eqb_eq in Ht as ->. reflexivity.
  - apply andb_prop in Hh as [Hc Hh]. unfold netloc_char in Hc. apply negb_true_iff in Hc.
    repeat rewrite orb_false_iff in Hc. destruct Hc as [[[[[[[H47 H63] H35] _] _] _] _] _].
    assert (E : Ascii.eqb c "/" || Ascii.eqb c "?" || Ascii.eqb c "#" = false).
    { destruct (Ascii.eqb_spec c "/") as [->|]; [discriminate|].
      destruct (Ascii.eqb_spec c "?") as [->|]; [discriminate|].
      destruct (Ascii.eqb_spec c "#") as [->|]; [discriminate|reflexivity]. }
    rewrite E, IH; auto.
Qed.

Lemma path_start_remove_unsafe t : path_start t = true -> path_start (remove_unsafe t) = true.
Proof.
  destruct t as [|c t]; [reflexivity|]. simpl. intros Hc. apply Ascii.eqb_eq in Hc as ->. reflexivity.
Qed.

Lemma has_char_netloc c h :
  all_chars netloc_char h = true -> (code c =? 91) || (code c =? 93) = true -> has_char c h = false.
Proof.
  unfold has_char. intros Hh Hc. induction h as [|c' h IH]; [reflexivity|].
  simpl in Hh |- *. apply andb_prop in Hh as [Hc' Hh].
  destruct (Ascii.eqb_spec c c') as [<-|]; [|specialize (IH Hh); destruct (find_char c h); auto].
  unfold netloc_char in Hc'. apply negb_true_iff in Hc'. repeat rewrite orb_false_iff in Hc'.
  destruct Hc' as [[[[[[[_ _] _] H91] H93] _] _] _].
  rewrite H91, H93 in Hc. discriminate.
Qed.

Lemma substring_after p x :
  substring (String.length p) (String.length (p ++ x) - String.length p) (p ++ x) = x.
Proof.
  induction p as [|c p IH]; simpl.
  - rewrite Nat.sub_0_r. apply substring_all.
  - exact IH.
Qed.

Lemma split_scheme_http x : split_scheme ("http://" ++ x) = ("//" ++ x)%string.
Proof.
  unfold split_scheme, drop. change ("http://" ++ x)%string with ("http:" ++ ("//" ++ x))%string.
  change (find_char ":" ("http:" ++ ("//" ++ x))) with (Some 4%nat).
  cbv iota beta. change (S 4) with (String.length "http:"). apply substring_after.
Qed.

Lemma prefix_slashes x : String.prefix "//" ("//" ++ x) = true.
Proof.
  simpl. destruct (ascii_dec "/" "/") as [_|C]; [|contradiction C; reflexivity].
  destruct x; reflexivity.
Qed.

Lemma drop_slashes x : drop 2 ("//" ++ x) = x.
Proof. exact (substring_after "//" x). Qed.

Lemma netloc_of_http h t :
  all_chars netloc_char h = true -> path_start t = true ->
  netloc_of ("http://" ++ h ++ t) = Ok h.
Proof.
  intros Hh Ht. unfold netloc_of.
  change (lstrip_c0 ("http://" ++ h ++ t)) with ("http://" ++ h ++ t)%string.
  change (remove_unsafe ("http://" ++ h ++ t)) with ("http://" ++ remove_unsafe (h ++ t))%string.
  rewrite split_scheme_http, remove_unsafe_netloc by exact Hh.
  rewrite prefix_slashes.
  rewrite drop_slashes.
  rewrite take_netloc_netloc by (auto using path_start_remove_unsafe).
  rewrite !has_char_netloc by (auto; reflexivity). reflexivity.
Qed.

End Url.
