(* ===== verification/Uuid.v ===== *)
(** * The node identifier: [str(uuid4()).replace('-', '')] (src/blockchain.py, line 168)

    [uuid4()] is CPython's [UUID(bytes=os.urandom(16), version=4)]: the
    sixteen bytes read as a big-endian 128-bit integer
    ([int.from_bytes]), then [__init__]'s range checks and the two bit
    updates that set the RFC 4122 variant (bits 62-63 to [10]) and the
    version (bits 76-79 to [4]).  [str(u)] is ['%032x' % u.int] cut into
    groups of 8, 4, 4, 4 and 12 hex digits joined by ['-'], and
    [.replace('-', '')] removes the dashes again.

    The random bytes are an argument (a list of [byte]); the integer is a
    [Z] with its bit operations written as the source writes them.  The
    theorems: for every sixteen bytes the identifier is 32 lowercase hex
    digits with the version digit [4] at position 12 and a variant digit
    among [8 9 a b] at position 16, and it reads back as the UUID's
    integer, which keeps the other 122 bits of the random bytes. *)

From Stdlib Require Import ZArith List String Ascii Lia Bool Strings.Byte.
From coqutil Require Import Z.bitblast.
From S2P Require Import Prelude.
Import ListNotations.
Open Scope Z_scope.

Module Uuid.

(** [int.from_bytes(bytes)] (big-endian). *)
Definition from_bytes (bs : list byte) : Z :=
  fold_left (fun acc b => acc * 256 + Z.of_N (Byte.to_N b)) bs 0.

(** The variant and version updates of [UUID.__init__]:
    [int &= ~(0xc000 << 48); int |= 0x8000 << 48;
     int &= ~(0xf000 << 64); int |= version << 76]. *)
Definition set_version (version i : Z) : Z :=
  let i := Z.land i (Z.lnot (Z.shiftl 49152 48)) in
  let i := Z.lor i (Z.shiftl 32768 48) in
  let i := Z.land i (Z.lnot (Z.shiftl 61440 64)) in
  Z.lor i (Z.shiftl version 76).

(** [UUID.__init__(bytes=bs, version=version)]. *)
Definition make_uuid (bs : list byte) (version : Z) : res Z :=
  if negb (List.length bs =? 16)%nat then Err ValueError
  else
    let i := from_bytes bs in
    if negb ((0 <=? i) && (i <? 2 ^ 128)) then Err ValueError
    else if negb ((1 <=? version) && (version <=? 5)) then Err ValueError
    else
      Ok (set_version version i).

(** [uuid4()] on the bytes [os.urandom(16)] returned. *)
Definition uuid4 (bs : list byte) : res Z := make_uuid bs 4.

(** A hex digit of ['%x']: [0-9] then [a-f]. *)
Definition hex_char (d : Z) : ascii :=
  ascii_of_nat (Z.to_nat (if d <? 10 then 48 + d else 87 + d)).

(** The last [k] hex digits of [i], most significant first. *)
Fixpoint hex_pad (k : nat) (i : Z) : string :=
  match k with
  | O => EmptyString
  | S k' => (hex_pad k' (i / 16) ++ String (hex_char (i mod 16)) EmptyString)%string
  end.

(** The number of hex digits of a non-negative [i]. *)
Definition hex_len (i : Z) : nat :=
  if i =? 0 then 1%nat else Z.to_nat (Z.log2 i / 4 + 1).

(** ['%032x' % i] for [i >= 0]: at least 32 digits, zero-padded. *)
Definition format_032x (i : Z) : string := hex_pad (Nat.max 32 (hex_len i)) i.

(** [UUID.__str__]. *)
Definition uuid_str (u : Z) : string :=
  let hex := format_032x u in
  (substring 0 8 hex ++ "-" ++ substring 8 4 hex ++ "-" ++ substring 12 4 hex ++ "-" ++
   substring 16 4 hex ++ "-" ++ substring 20 (String.length hex - 20) hex)%string.

(** [s.replace(c, new)] for a one-character [c]. *)
Fixpoint str_replace_char (c : ascii) (new s : string) : string :=
  match s with
  | EmptyString => EmptyString
  | String c' s' =>
      if Ascii.eqb c c' then (new ++ str_replace_char c new s')%string
      else String c' (str_replace_char c new s')
  end.

(** [node_identifier = str(uuid4()).replace('-', '')]. *)
Definition node_identifier_of (bs : list byte) : res string :=
  let? u := uuid4 bs in Ok (str_replace_char "-" EmptyString (uuid_str u)).

(** [int(s, 16)] for a string of lowercase hex digits. *)
Definition hex_value (c : ascii) : Z :=
  let n := Z.of_nat (nat_of_ascii c) in if n <=? 57 then n - 48 else n - 87.

Fixpoint int_of_hex_acc (acc : Z) (s : string) : Z :=
  match s with
  | EmptyString => acc
  | String c s' => int_of_hex_acc (acc * 16 + hex_value c) s'
  end.

Definition is_lower_hex (c : ascii) : bool :=
  let n := nat_of_ascii c in ((48 <=? n) && (n <=? 57))%nat || ((97 <=? n) && (n <=? 102))%nat.

Fixpoint all_chars (p : ascii -> bool) (s : string) : bool :=
  match s with EmptyString => true | String c s' => p c && all_chars p s' end.

(** ** The bits of [uuid4()] *)

(** A property of the sixteen nibble values, checked one by one. *)
Lemma nibble_cases (P : Z -> Prop) :
  Forall P (map Z.of_nat (seq 0 16)) -> forall d, 0 <= d < 16 -> P d.
Proof.
  intros HP d Hd. rewrite Forall_forall in HP. apply HP, in_map_iff.
  exists (Z.to_nat d). split; [lia|]. apply in_seq. lia.
Qed.

(** The bits of a small constant, by enumeration below 16. *)
Ltac const_bits :=
  let n := fresh "n" in
  intros n; destruct (Z.lt_ge_cases n 0);
  [rewrite Z.testbit_neg_r by assumption; destruct n; try lia; reflexivity|];
  destruct (Z.lt_ge_cases n 16);
  [pattern n; apply nibble_cases; [repeat constructor | lia]
  |rewrite Z.bits_above_log2 by (simpl; lia);
   symmetry; repeat rewrite orb_false_iff; repeat split; apply Z.eqb_neq; lia].

Lemma bits_49152 : forall n, Z.testbit 49152 n = (n =? 14) || (n =? 15).
Proof. const_bits. Qed.

Lemma bits_32768 : forall n, Z.testbit 32768 n = (n =? 15).
Proof. const_bits. Qed.

Lemma bits_61440 : forall n, Z.testbit 61440 n = (n =? 12) || (n =? 13) || (n =? 14) || (n =? 15).
Proof. const_bits. Qed.

Lemma bits_4 : forall n, Z.testbit 4 n = (n =? 2).
Proof. const_bits. Qed.

(** Decide every comparison of [k] left in the goal, pruning the
    impossible branches. *)
Ltac decide_cmps :=
  repeat match goal with
  | |- context [?a =? ?b] => destruct (Z.eqb_spec a b); try (exfalso; lia)
  | |- context [?a <=? ?b] => destruct (Z.leb_spec a b); try (exfalso; lia)
  | |- context [?a <? ?b] => destruct (Z.ltb_spec a b); try (exfalso; lia)
  end.

(** [uuid4] clears bit 62, sets bit 63, writes [0100] in bits 76-79 and
    keeps every other bit. *)
Lemma set_version_bits i k :
  0 <= k ->
  Z.testbit (set_version 4 i) k =
    if k =? 62 then false else if k =? 63 then true
    else if (76 <=? k) && (k <? 80) then (k =? 78) else Z.testbit i k.
Proof.
  intros Hk. unfold set_version.
  repeat (rewrite ?Z.lor_spec, ?Z.land_spec; rewrite ?Z.lnot_spec, ?Z.shiftl_spec by lia).
  rewrite bits_49152, bits_32768, bits_61440, bits_4.
  decide_cmps; destruct (Z.testbit i k); reflexivity.
Qed.

Lemma bits_high i n : 0 <= i < 2 ^ 128 -> 128 <= n -> Z.testbit i n = false.
Proof.
  intros Hi Hn. rewrite <- (Z.mod_small i (2 ^ 128)) by lia.
  apply Z.mod_pow2_bits_high. lia.
Qed.

Lemma set_version_range i : 0 <= i < 2 ^ 128 -> 0 <= set_version 4 i < 2 ^ 128.
Proof.
  intros Hi.
  assert (E : Z.land (set_version 4 i) (Z.ones 128) = set_version 4 i).
  { apply Z.bits_inj'. intros n Hn.
    rewrite Z.land_spec, Z.testbit_ones_nonneg, set_version_bits by lia.
    decide_cmps; rewrite ?andb_true_r, ?andb_false_r; try reflexivity.
    symmetry. apply bits_high; lia. }
  rewrite <- E, Z.land_ones by lia. apply Z.mod_pos_bound. lia.
Qed.

Lemma from_bytes_acc_bound bs acc :
  0 <= acc -> 0 <= fold_left (fun acc b => acc * 256 + Z.of_N (Byte.to_N b)) bs acc <
              (acc + 1) * 2 ^ (8 * Z.of_nat (List.length bs)).
Proof.
  revert acc. induction bs as [|b bs IH]; intros acc Hacc; cbn [fold_left List.length]; [simpl; lia|].
  pose proof (Byte.to_N_bounded b) as Hb. apply N2Z.inj_le in Hb. simpl in Hb.
  assert (0 <= Z.of_N (Byte.to_N b)) by lia.
  destruct (IH (acc * 256 + Z.of_N (Byte.to_N b))) as [H1 H2]; [lia|]. split; [exact H1|].
  rewrite Nat2Z.inj_succ.
  replace (8 * Z.succ (Z.of_nat (List.length bs))) with (8 + 8 * Z.of_nat (List.length bs)) by lia.
  rewrite Z.pow_add_r by lia. change (2 ^ 8) with 256.
  pose proof (Z.pow_pos_nonneg 2 (8 * Z.of_nat (List.length bs))). nia.
Qed.

Lemma from_bytes_bound bs : 0 <= from_bytes bs < 2 ^ (8 * Z.of_nat (List.length bs)).
Proof. pose proof (from_bytes_acc_bound bs 0 ltac:(lia)). unfold from_bytes. lia. Qed.

(** [uuid4()] succeeds on sixteen bytes. *)
Lemma uuid4_ok bs : List.length bs = 16%nat -> uuid4 bs = Ok (set_version 4 (from_bytes bs)).
Proof.
  intros Hl. pose proof (from_bytes_bound bs) as Hb. rewrite Hl in Hb.
  assert (E1 : (0 <=? from_bytes bs) = true) by (apply Z.leb_le; lia).
  assert (E2 : (from_bytes bs <? 2 ^ 128) = true) by (apply Z.ltb_lt; lia).
  unfold uuid4, make_uuid. rewrite Hl, E1, E2. reflexivity.
Qed.

(** ** ['%032x'] and its digits *)

Lemma hex_pad_length k i : String.length (hex_pad k i) = k.
Proof.
  revert i. induction k as [|k IH]; intros i; simpl; [reflexivity|].
  rewrite slength_app, IH. simpl. lia.
Qed.

Lemma hex_pad_get k i j :
  (j < k)%nat -> String.get j (hex_pad k i) = Some (hex_char ((i / 16 ^ Z.of_nat (k - 1 - j)) mod 16)).
Proof.
  revert i j. induction k as [|k IH]; intros i j Hj; [lia|]. cbn [hex_pad].
  destruct (Nat.eq_dec j k) as [->|Hne].
  - rewrite <- (hex_pad_length k (i / 16)) at 1.
    rewrite <- (Nat.add_0_l (String.length _)), <- append_correct2.
    replace (S k - 1 - k)%nat with 0%nat by lia. rewrite Z.pow_0_r, Z.div_1_r. reflexivity.
  - rewrite <- append_correct1 by (rewrite hex_pad_length; lia).
    rewrite IH by lia. rewrite Z.div_div by (try apply Z.pow_pos_nonneg; lia).
    do 3 f_equal. replace (S k - 1 - j)%nat with (S (k - 1 - j)) by lia.
    rewrite Nat2Z.inj_succ, Z.pow_succ_r by lia. lia.
Qed.

Lemma hex_char_lower d : 0 <= d < 16 -> is_lower_hex (hex_char d) = true.
Proof. revert d. apply nibble_cases. repeat constructor. Qed.

Lemma hex_value_char d : 0 <= d < 16 -> hex_value (hex_char d) = d.
Proof. revert d. apply nibble_cases. repeat constructor. Qed.

Lemma all_chars_app p a b : all_chars p (a ++ b) = all_chars p a && all_chars p b.
Proof. induction a as [|c a IH]; simpl; [reflexivity|]. rewrite IH, andb_assoc. reflexivity. Qed.

Lemma hex_pad_lower k i : all_chars is_lower_hex (hex_pad k i) = true.
Proof.
  revert i. induction k as [|k IH]; intros i; [reflexivity|]. cbn [hex_pad].
  rewrite all_chars_app, IH. simpl. rewrite hex_char_lower by (apply Z.mod_pos_bound; lia). reflexivity.
Qed.

Lemma int_of_hex_app acc a b : int_of_hex_acc acc (a ++ b) = int_of_hex_acc (int_of_hex_acc acc a) b.
Proof. revert acc. induction a as [|c a IH]; intros acc; simpl; auto. Qed.

(** [int(hex, 16)] reads the digits back. *)
Lemma int_of_hex_pad k i : int_of_hex_acc 0 (hex_pad k i) = i mod 16 ^ Z.of_nat k.
Proof.
  revert i. induction k as [|k IH]; intros i; [simpl; rewrite Z.mod_1_r; reflexivity|].
  cbn [hex_pad]. rewrite int_of_hex_app, IH. cbn [int_of_hex_acc].
  rewrite hex_value_char by (apply Z.mod_pos_bound; lia).
  rewrite Nat2Z.inj_succ, Z.pow_succ_r, Z.rem_mul_r by (try apply Z.pow_pos_nonneg; lia).
  lia.
Qed.

Lemma hex_len_le i : 0 <= i < 2 ^ 128 -> (hex_len i <= 32)%nat.
Proof.
  intros Hi. unfold hex_len. destruct (Z.eqb_spec i 0); [lia|].
  assert (Z.log2 i < 128) by (apply Z.log2_lt_pow2; lia).
  pose proof (Z.log2_nonneg i). assert (Z.log2 i / 4 < 32) by (apply Z.div_lt_upper_bound; lia).
  pose proof (Z.div_pos (Z.log2 i) 4 ltac:(lia) ltac:(lia)). lia.
Qed.

Lemma format_032x_eq i : 0 <= i < 2 ^ 128 -> format_032x i = hex_pad 32 i.
Proof. intros Hi. unfold format_032x. rewrite Nat.max_l by (apply hex_len_le; exact Hi). reflexivity. Qed.

(** ** Removing the dashes gives the 32 digits back *)

Lemma str_replace_char_app c new a b :
  str_replace_char c new (a ++ b) = (str_replace_char c new a ++ str_replace_char c new b)%string.
Proof.
  induction a as [|x a IH]; simpl; [reflexivity|]. rewrite IH.
  destruct (Ascii.eqb c x); [symmetry; apply sapp_assoc|reflexivity].
Qed.

Lemma str_replace_dash_hex s : all_chars is_lower_hex s = true -> str_replace_char "-" EmptyString s = s.
Proof.
  induction s as [|c s IH]; cbn [str_replace_char all_chars]; [reflexivity|]. intros [Hc Hs]%andb_prop.
  destruct (Ascii.eqb_spec "-" c) as [<-|_]; [discriminate|]. rewrite IH by exact Hs. reflexivity.
Qed.

Lemma all_chars_substring p s n m : all_chars p s = true -> all_chars p (substring n m s) = true.
Proof.
  revert n m. induction s as [|c s IH]; intros n m Hs; destruct n, m; simpl in *; auto.
  apply andb_prop in Hs as [Hc Hs]. rewrite Hc. simpl. auto.
  apply andb_prop in Hs as [_ Hs]. auto.
  apply andb_prop in Hs as [_ Hs]. auto.
Qed.

Lemma substring_concat s a b c :
  (substring a b s ++ substring (a + b) c s)%string = substring a (b + c) s.
Proof.
  revert a b. induction s as [|x s IH]; intros a b.
  - destruct a, b, c; reflexivity.
  - destruct a as [|a]; [destruct b as [|b]|].
    + reflexivity.
    + simpl. rewrite <- IH. reflexivity.
    + simpl. apply IH.
Qed.

Lemma substring_join s a b c d e :
  d = (a + b)%nat -> e = (b + c)%nat ->
  (substring a b s ++ substring d c s)%string = substring a e s.
Proof. intros -> ->. apply substring_concat. Qed.

Lemma uuid_str_undash h :
  String.length h = 32%nat -> all_chars is_lower_hex h = true ->
  str_replace_char "-" EmptyString
    (substring 0 8 h ++ "-" ++ substring 8 4 h ++ "-" ++ substring 12 4 h ++ "-" ++
     substring 16 4 h ++ "-" ++ substring 20 (String.length h - 20) h)%string = h.
Proof.
  intros Hl Hh. rewrite Hl. simpl (32 - 20)%nat.
  rewrite !str_replace_char_app.
  cbn [str_replace_char Ascii.eqb Bool.eqb append].
  repeat rewrite str_replace_dash_hex by (apply all_chars_substring, Hh).
  rewrite (substring_join h 16 4 12 20 16), (substring_join h 12 4 16 16 20),
    (substring_join h 8 4 20 12 24), (substring_join h 0 8 24 8 32) by reflexivity.
  rewrite <- Hl at 1. apply substring_all.
Qed.

(** ** The version and variant digits *)

(** The hex digit [m] places from the right is four bits of the integer. *)
Lemma nibble_bits i m :
  (i / 16 ^ Z.of_nat m) mod 16 = Z.land (Z.shiftr i (4 * Z.of_nat m)) (Z.ones 4).
Proof.
  rewrite Z.land_ones, Z.shiftr_div_pow2 by lia. rewrite Z.pow_mul_r by lia. reflexivity.
Qed.

Lemma version_nibble i : Z.land (Z.shiftr (set_version 4 i) 76) (Z.ones 4) = 4.
Proof.
  apply Z.bits_inj'. intros n Hn.
  rewrite Z.land_spec, Z.shiftr_spec, Z.testbit_ones_nonneg, set_version_bits, bits_4 by lia.
  decide_cmps; simpl; rewrite ?andb_false_r; reflexivity.
Qed.

Lemma variant_nibble i :
  let d := Z.land (Z.shiftr (set_version 4 i) 60) (Z.ones 4) in
  0 <= d < 16 /\ Z.testbit d 3 = true /\ Z.testbit d 2 = false.
Proof.
  intros d. split; [subst d; rewrite Z.land_ones by lia; apply Z.mod_pos_bound; lia|].
  subst d. rewrite !Z.land_spec, !Z.shiftr_spec, !set_version_bits by lia. split; reflexivity.
Qed.

Lemma variant_char d :
  0 <= d < 16 -> Z.testbit d 3 = true -> Z.testbit d 2 = false ->
  In (hex_char d) ["8"; "9"; "a"; "b"]%char.
Proof.
  intros Hd H3 H2. assert (d = 0 \/ d = 1 \/ d = 2 \/ d = 3 \/ d = 4 \/ d = 5 \/ d = 6 \/ d = 7 \/ d = 8 \/
    d = 9 \/ d = 10 \/ d = 11 \/ d = 12 \/ d = 13 \/ d = 14 \/ d = 15) as Hn by lia.
  repeat destruct Hn as [-> | Hn]; subst; try discriminate; simpl; tauto.
Qed.

(** ** The node identifier *)

(** The format of [node_identifier], for every sixteen random bytes: the
    UUID integer is below [2^128]; the identifier is 32 lowercase hex
    digits, the 13th is the version [4], the 17th the RFC 4122 variant
    ([8], [9], [a] or [b]); [int(node_identifier, 16)] is the UUID's
    integer; and the 122 bits outside the variant and version fields are
    the bits of the random bytes. *)
Lemma node_identifier_spec (bs : list byte) :
  List.length bs = 16%nat ->
  exists u id, uuid4 bs = Ok u /\ node_identifier_of bs = Ok id /\
    0 <= u < 2 ^ 128 /\ String.length id = 32%nat /\ all_chars is_lower_hex id = true /\
    String.get 12 id = Some "4"%char /\
    (exists d, String.get 16 id = Some d /\ In d ["8"; "9"; "a"; "b"]%char) /\
    int_of_hex_acc 0 id = u /\
    (forall k, 0 <= k < 128 -> k <> 62 -> k <> 63 -> ~ (76 <= k < 80) ->
       Z.testbit u k = Z.testbit (from_bytes bs) k).
Proof.
  intros Hl. pose proof (from_bytes_bound bs) as Hi. rewrite Hl in Hi. change (8 * Z.of_nat 16) with 128 in Hi.
  pose proof (set_version_range _ Hi) as Hu.
  exists (set_version 4 (from_bytes bs)), (hex_pad 32 (set_version 4 (from_bytes bs))).
  split; [exact (uuid4_ok bs Hl)|]. split.
  { unfold node_identifier_of. rewrite (uuid4_ok bs Hl). simpl res_bind. unfold uuid_str. cbv zeta.
    rewrite format_032x_eq by exact Hu. rewrite uuid_str_undash; [reflexivity| |].
    - apply hex_pad_length.
    - apply hex_pad_lower. }
  split; [exact Hu|]. split; [apply hex_pad_length|]. split; [apply hex_pad_lower|].
  split.
  { rewrite hex_pad_get by lia. rewrite nibble_bits. change (4 * Z.of_nat (32 - 1 - 12)) with 76.
    rewrite version_nibble. reflexivity. }
  split.
  { rewrite hex_pad_get by lia. rewrite nibble_bits. change (4 * Z.of_nat (32 - 1 - 16)) with 60.
    destruct (variant_nibble (from_bytes bs)) as [Hd [H3 H2]].
    eexists; split; [reflexivity|]. apply variant_char; assumption. }
  split.
  { rewrite int_of_hex_pad. change (16 ^ Z.of_nat 32) with (2 ^ 128). apply Z.mod_small, Hu. }
  intros k Hk H62 H63 Hv. rewrite set_version_bits by lia. decide_cmps; reflexivity.
Qed.

(** C26: [node_identifier = str(uuid4()).replace('-', '')] is, for every
    sixteen bytes [os.urandom(16)] returns, a string of 32 lowercase hex
    digits whose 13th digit is the version [4] and whose 17th is one of
    [8 9 a b] (the RFC 4122 variant); it reads back with [int(_, 16)] as
    the UUID's integer, which is below [2^128] and carries the random
    bytes' bits everywhere outside the variant and version fields. *)
Theorem node_identifier_format (bs : list byte) :
  List.length bs = 16%nat ->
  exists u id, uuid4 bs = Ok u /\ node_identifier_of bs = Ok id /\
    0 <= u < 2 ^ 128 /\ String.length id = 32%nat /\ all_chars is_lower_hex id = true /\
    String.get 12 id = Some "4"%char /\
    (exists d, String.get 16 id = Some d /\ In d ["8"; "9"; "a"; "b"]%char) /\
    int_of_hex_acc 0 id = u /\
    (forall k, 0 <= k < 128 -> k <> 62 -> k <> 63 -> ~ (76 <= k < 80) ->
       Z.testbit u k = Z.testbit (from_bytes bs) k).
Proof. apply node_identifier_spec. Qed.

(** Sixteen sample bytes [00 11 22 ... ff]. *)
Definition sample_bytes : list byte :=
  [x00; x11; x22; x33; x44; x55; x66; x77; x88; x99; xaa; xbb; xcc; xdd; xee; xff].

Lemma node_identifier_format_witness :
  node_identifier_of sample_bytes = Ok "00112233445546778899aabbccddeeff"%string /\
  exists u id, uuid4 sample_bytes = Ok u /\ node_identifier_of sample_bytes = Ok id /\
    0 <= u < 2 ^ 128 /\ String.length id = 32%nat /\ all_chars is_lower_hex id = true /\
    String.get 12 id = Some "4"%char /\
    (exists d, String.get 16 id = Some d /\ In d ["8"; "9"; "a"; "b"]%char) /\
    int_of_hex_acc 0 id = u /\
    (forall k, 0 <= k < 128 -> k <> 62 -> k <> 63 -> ~ (76 <= k < 80) ->
       Z.testbit u k = Z.testbit (from_bytes sample_bytes) k).
Proof. split; [vm_compute; reflexivity|]. apply node_identifier_format. reflexivity. Defined.

End Uuid.
