(* ===== verification/Chain.v ===== *)
(** * The [Blockchain] object and its mutating methods

    The state of [class Blockchain] (src/blockchain.py, lines 10-15):
    [self.chain], [self.current_transactions], [self.nodes].  [chain] is a
    Python value, not a list of typed blocks: [resolve_conflicts] assigns
    to it whatever a peer sent once that value passed [valid_chain].
    [nodes] is a Python set of the [netloc] parts of registered addresses.

    The methods are [PyM] computations: each returns the object's state at
    the point where it returned or raised.  [new_block] and
    [new_transaction] are modelled statement by statement, so an exception
    raised after an assignment leaves the assignment in place, as in
    Python.  [time()] is the parameter [now] of [new_block]. *)

From Stdlib Require Import ZArith String Ascii Lia Bool.
From stdpp Require Import base list gmap strings countable.
From S2P Require Import Prelude Sha256 PyFloat PyValue Json Hasher ProofOfWork Url.
Import PyFloat PyValue Hasher ProofOfWork.
Open Scope Z_scope.

Module Chain.

(** [urlparse(address).netloc]: a str, or [b''] when the address was a
    falsy non-str value (urllib decodes it as bytes). *)
Inductive netloc := NetStr (s : string) | NetBytes (s : string).

#[export] Instance netloc_eq_dec : EqDecision netloc.
Proof. solve_decision. Defined.

#[export] Instance netloc_countable : Countable netloc.
Proof.
  apply (inj_countable'
           (fun n => match n with NetStr s => (true, s) | NetBytes s => (false, s) end)
           (fun p => if p.1 then NetStr p.2 else NetBytes p.2)).
  intros []; reflexivity.
Defined.

Record blockchain := Blockchain {
  chain : pyval;
  current_transactions : list pyval;
  nodes : gset netloc
}.

Definition set_chain (s : blockchain) (c : pyval) : blockchain :=
  Blockchain c (current_transactions s) (nodes s).
Definition set_transactions (s : blockchain) (t : list pyval) : blockchain :=
  Blockchain (chain s) t (nodes s).
Definition set_nodes (s : blockchain) (n : gset netloc) : blockchain :=
  Blockchain (chain s) (current_transactions s) n.

(** ** [last_block] (lines 134-136): [self.chain[-1]] *)

Definition last_block : PyM blockchain pyval :=
  s <- pget ;; plift (getitem_int (chain s) (-1)).

(** ** [new_block(proof, previous_hash=None)] (lines 84-104) *)

Definition make_block (index : Z) (now : pyfloat) (txs : list pyval) (proof : pyval)
    (previous_hash : string) : pyval :=
  PDict [("index", PInt index); ("timestamp", PFloat now);
         ("transactions", PList txs); ("proof", proof);
         ("previous_hash", PStr previous_hash)].

(** [previous_hash or self.hash(self.chain[-1])]: the empty str is falsy. *)
Definition link_hash (previous_hash : option string) : PyM blockchain string :=
  match previous_hash with
  | Some h => if String.eqb h EmptyString then (lb <- last_block ;; pret (hash lb)) else pret h
  | None => lb <- last_block ;; pret (hash lb)
  end.

Definition append_block (block : pyval) : PyM blockchain unit :=
  s <- pget ;;
  match chain s with
  | PList l => pput (set_chain s (PList (l ++ [block])))
  | _ => praise AttributeError
  end.

Definition new_block (proof : pyval) (previous_hash : option string) (now : pyfloat)
    : PyM blockchain pyval :=
  s <- pget ;;
  n <- plift (py_len (chain s)) ;;
  ph <- link_hash previous_hash ;;
  let block := make_block (n + 1) now (current_transactions s) proof ph in
  _ <- pput (set_transactions s []) ;;
  _ <- append_block block ;;
  pret block.

(** ** [new_transaction(sender, recipient, amount)] (lines 107-120) *)

Definition new_transaction (sender recipient amount : pyval) : PyM blockchain pyval :=
  s <- pget ;;
  _ <- pput (set_transactions s (current_transactions s ++
        [PDict [("sender", sender); ("recipient", recipient); ("amount", amount)]])) ;;
  lb <- last_block ;;
  idx <- plift (getitem_str lb "index") ;;
  plift (add_int idx 1).

(** ** [__init__] (lines 11-15): the genesis block *)

Definition empty_blockchain : blockchain := Blockchain (PList []) [] ∅.

Definition genesis (now : pyfloat) : pyval :=
  make_block 1 now [] (PInt 100) "1".

(** The object after [__init__]; [new_block] cannot raise there. *)
Definition init (now : pyfloat) : blockchain :=
  fst (new_block (PInt 100) (Some "1") now empty_blockchain).

(** ** [register_node(address)] (lines 18-24) *)

(** [urlparse] accepts a str; another value is decoded as bytes when it
    is falsy (giving [b'']) and has no [decode] method otherwise. *)
Definition urlparse_netloc (address : pyval) : res netloc :=
  match address with
  | PStr a => res_map NetStr (Url.netloc_of a)
  | v => if truthy v then Err AttributeError else Ok (NetBytes EmptyString)
  end.

Definition register_node (address : pyval) : PyM blockchain unit :=
  n <- plift (urlparse_netloc address) ;;
  s <- pget ;;
  pput (set_nodes s ({[n]} ∪ nodes s)).

(** ** Behaviour of the methods *)

(** Run the monad's plumbing and the record updates of the object. *)
Ltac chainrun :=
  cbv beta iota zeta delta [pbind pget pput plift pret praise res_bind
    set_chain set_transactions set_nodes py_len] in *;
  cbn [fst snd chain current_transactions nodes] in *.

Definition tx (sender recipient amount : pyval) : pyval :=
  PDict [("sender", sender); ("recipient", recipient); ("amount", amount)].

Lemma getitem_last (l : list pyval) :
  l <> [] -> getitem_int (PList l) (-1) = Ok (List.last l PNone).
Proof.
  intros Hne. destruct (exists_last Hne) as [l' [x ->]].
  unfold getitem_int, norm_index. rewrite length_app. simpl.
  replace (-1 + Z.of_nat (List.length l' + 1)) with (Z.of_nat (List.length l')) by lia.
  destruct (Z.leb_spec 0 (Z.of_nat (List.length l'))); [|lia].
  destruct (Z.ltb_spec (Z.of_nat (List.length l')) (Z.of_nat (List.length l' + 1))); [|lia].
  simpl. rewrite Nat2Z.id, nth_error_app_single, last_app_single. reflexivity.
Qed.

Lemma last_block_list (s : blockchain) (l : list pyval) :
  chain s = PList l -> l <> [] -> last_block s = (s, Ok (List.last l PNone)).
Proof. intros Hc Hne. unfold last_block, pbind, pget, plift. rewrite Hc, getitem_last; auto. Qed.

Lemma last_block_empty (s : blockchain) :
  chain s = PList [] -> last_block s = (s, Err IndexError).
Proof. intros Hc. unfold last_block, pbind, pget, plift. rewrite Hc. reflexivity. Qed.

Lemma new_block_eq (s : blockchain) (l : list pyval) (proof : pyval) (now : pyfloat) :
  chain s = PList l -> l <> [] ->
  new_block proof None now s =
    (Blockchain (PList (l ++ [make_block (Z.of_nat (List.length l) + 1) now
                               (current_transactions s) proof (hash (List.last l PNone))]))
       [] (nodes s),
     Ok (make_block (Z.of_nat (List.length l) + 1) now (current_transactions s) proof
           (hash (List.last l PNone)))).
Proof.
  intros Hc Hne. destruct s as [c txs ns]; simpl in Hc; subst c.
  unfold new_block, link_hash, last_block, append_block. chainrun.
  rewrite getitem_last by exact Hne. reflexivity.
Qed.

(** C6: sealing a block on a non-empty chain: the new block has index
    [len(chain) + 1], carries the whole pending buffer and the hash of the
    last block, is appended to the chain, and the buffer is emptied; the
    peers are untouched. *)
Theorem new_block_seals (s : blockchain) (l : list pyval) (proof : pyval) (now : pyfloat) :
  chain s = PList l -> l <> [] ->
  let b := make_block (Z.of_nat (List.length l) + 1) now (current_transactions s) proof
                      (hash (List.last l PNone)) in
  new_block proof None now s = (Blockchain (PList (l ++ [b])) [] (nodes s), Ok b).
Proof. intros Hc Hne b. exact (new_block_eq s l proof now Hc Hne). Qed.

(** Sealing one pending transaction on top of a genesis block. *)
Lemma new_block_seals_witness :
  new_block (PInt 35293) None (float_of_Z 1700000060)
    (Blockchain (PList [genesis (float_of_Z 1700000000)]) [tx (PStr "A") (PStr "B") (PInt 10)] ∅) =
  (Blockchain (PList ([genesis (float_of_Z 1700000000)] ++
     [make_block 2 (float_of_Z 1700000060) [tx (PStr "A") (PStr "B") (PInt 10)] (PInt 35293)
        (hash (genesis (float_of_Z 1700000000)))])) [] ∅,
   Ok (make_block 2 (float_of_Z 1700000060) [tx (PStr "A") (PStr "B") (PInt 10)] (PInt 35293)
        (hash (genesis (float_of_Z 1700000000))))).
Proof.
  apply (new_block_seals
           (Blockchain (PList [genesis (float_of_Z 1700000000)])
              [tx (PStr "A") (PStr "B") (PInt 10)] ∅)
           [genesis (float_of_Z 1700000000)] (PInt 35293) (float_of_Z 1700000060));
    [reflexivity|discriminate].
Defined.

Lemma init_eq (now : pyfloat) :
  init now = Blockchain (PList [genesis now]) [] ∅.
Proof. reflexivity. Qed.

Lemma new_transaction_eq (s : blockchain) (l : list pyval) (i : Z) (a b c : pyval) :
  chain s = PList l -> l <> [] -> getitem_str (List.last l PNone) "index" = Ok (PInt i) ->
  new_transaction a b c s =
    (set_transactions s (current_transactions s ++ [tx a b c]), Ok (PInt (i + 1))).
Proof.
  intros Hc Hne Hi. destruct s as [ch txs ns]; simpl in Hc; subst ch.
  unfold new_transaction, last_block. chainrun.
  rewrite getitem_last by exact Hne. chainrun. rewrite Hi. reflexivity.
Qed.

(** The append happens before [self.last_block] is read, whatever follows. *)
Lemma new_transaction_fst (s : blockchain) (a b c : pyval) :
  fst (new_transaction a b c s) = set_transactions s (current_transactions s ++ [tx a b c]).
Proof.
  unfold new_transaction, last_block, pbind, pget, pput, plift.
  repeat (simpl; case_match); reflexivity.
Qed.

(** C23: [new_transaction] on a list chain always appends the
    transaction to the buffer, also when it then raises; it returns the
    index the last block names plus one (not [len(chain) + 1]), and on an
    empty chain it raises [IndexError] at [self.chain[-1]] after the
    append. *)
Lemma new_transaction_appends (s : blockchain) (l : list pyval) (a b c : pyval) :
  chain s = PList l ->
  fst (new_transaction a b c s) = set_transactions s (current_transactions s ++ [tx a b c]) /\
  (l = [] -> snd (new_transaction a b c s) = Err IndexError) /\
  (forall i, l <> [] -> getitem_str (List.last l PNone) "index" = Ok (PInt i) ->
     snd (new_transaction a b c s) = Ok (PInt (i + 1))).
Proof.
  intros Hc. split; [apply new_transaction_fst|split].
  - intros ->. destruct s; simpl in Hc; subst. reflexivity.
  - intros i Hne Hi. rewrite (new_transaction_eq s l i a b c Hc Hne Hi). reflexivity.
Qed.

(** The spec's scenario on a fresh node: [(A, B, 10)] is announced for
    block 2. *)
Lemma new_transaction_appends_witness :
  snd (new_transaction (PStr "A") (PStr "B") (PInt 10) (init (float_of_Z 1700000000))) =
    Ok (PInt (1 + 1)).
Proof.
  destruct (new_transaction_appends (init (float_of_Z 1700000000)) [genesis (float_of_Z 1700000000)]
              (PStr "A") (PStr "B") (PInt 10) eq_refl) as [_ [_ H]].
  apply H; [discriminate|reflexivity].
Defined.

(** An address with no ['/'], such as ['192.168.0.5:5000'], registers
    the empty netloc: [urlparse] finds no ["//"]. *)
Lemma register_node_without_slash (a : string) (s : blockchain) :
  Url.find_char "/" a = None ->
  register_node (PStr a) s = (set_nodes s ({[NetStr EmptyString]} ∪ nodes s), Ok tt).
Proof.
  intros H. unfold register_node, urlparse_netloc. rewrite Url.netloc_of_no_slash by exact H.
  reflexivity.
Qed.

End Chain.
