(* ===== verification/Samples.v ===== *)
(** * Concrete blocks and chains used by the examples and witnesses

    A three-block chain as the program builds it: the genesis block of
    [__init__], then two blocks whose proofs were found by
    [proof_of_work] (35293 for the genesis proof 100, then 35089), each
    naming the hash of its predecessor.  Timestamps are fixed floats. *)

From Stdlib Require Import ZArith List String Ascii Lia Bool.
From stdpp Require Import base gmap strings.
From S2P Require Import Prelude Sha256 PyFloat PyValue Json Hasher ProofOfWork Url Chain.
Import ListNotations PyFloat PyValue Hasher ProofOfWork Chain.
Open Scope Z_scope.

Module Samples.

(** [1700000000.1234567], [1700000060.5] and [1700000120.25]. *)
Definition ts0 : pyfloat := float_of_decimal false 17000000001234567 (-7).
Definition ts1 : pyfloat := float_of_decimal false 17000000605 (-1).
Definition ts2 : pyfloat := float_of_decimal false 170000012025 (-2).

Definition reward : pyval := tx (PStr "0") (PStr "node-1") (PInt 1).

Definition g0 : pyval := genesis ts0.
Definition b1 : pyval := make_block 2 ts1 [reward] (PInt 35293) (hash g0).
Definition b2 : pyval := make_block 3 ts2 [reward] (PInt 35089) (hash b1).

(** The node right after [__init__] and after mining twice. *)
Definition node0 : blockchain := init ts0.
Definition node2 : blockchain := Blockchain (PList [g0; b1; b2]) [] ∅.

(** [b2] with its transactions removed, and [b1] with another reward. *)
Definition b2_empty : pyval := make_block 3 ts2 [] (PInt 35089) (hash b1).
Definition b1_other : pyval :=
  make_block 2 ts1 [tx (PStr "0") (PStr "node-2") (PInt 1)] (PInt 35293) (hash g0).

(** A peer's two-block chain with another genesis: proof 31008, then
    2699 (valid against 31008); the next proof is 26. *)
Definition pg : pyval := make_block 1 ts0 [] (PInt 31008) "1".
Definition pb : pyval := make_block 2 ts1 [] (PInt 2699) (hash pg).

End Samples.
