(* ===== verification/Validator.v ===== *)
(** * [Blockchain.valid_chain] (src/blockchain.py, lines 27-51)

    The source walks the candidate with an index:
    [last_block = chain[0]; current_index = 1; while current_index < len(chain): ...].
    [valid_chain] follows it statement by statement on any Python value
    (the candidate comes from a peer's JSON), with the loop run on a fuel
    of [len(chain)], which is always enough ([loop_links]).

    [links] is the structural reference: it walks a list pairwise.  The
    theorems: the index loop computes [links] ([valid_chain_links]);
    [valid_chain] answers [True] exactly when every consecutive pair is
    hash-linked and proof-linked ([valid_chain_true_iff]); appending a
    block linked to the last one keeps a chain valid
    ([valid_chain_snoc]); and what the check does not look at: an empty
    chain raises [IndexError], a one-block chain is valid whatever the
    block is, the last block's contents are not covered by any hash. *)

From Stdlib Require Import ZArith List String Ascii Lia Bool.
From S2P Require Import Prelude Sha256 PyFloat PyValue Json Hasher ProofOfWork Url Chain Samples.
Import ListNotations PyValue Hasher ProofOfWork Chain Samples.
Open Scope Z_scope.

Module Validator.

(** One iteration's checks on [last_block] and [block]:
    [block['previous_hash'] != self.hash(last_block)], then
    [not self.valid_proof(last_block['proof'], block['proof'])]. *)
Definition link_ok (last_block block : pyval) : res bool :=
  let? ph := getitem_str block "previous_hash" in
  if negb (eq_str ph (hash last_block)) then Ok false
  else
    let? lp := getitem_str last_block "proof" in
    let? p := getitem_str block "proof" in
    Ok (valid_proof lp p).

(** The [while] loop from [current_index], at most [fuel] iterations. *)
Fixpoint loop (fuel : nat) (chain : pyval) (n : Z) (last_block : pyval) (current_index : Z)
    : res bool :=
  match fuel with
  | O => Ok true
  | S fuel' =>
      if current_index <? n then
        let? block := getitem_int chain current_index in
        let? ok := link_ok last_block block in
        if ok then loop fuel' chain n block (current_index + 1) else Ok false
      else Ok true
  end.

Definition valid_chain (chain : pyval) : res bool :=
  let? last_block := getitem_int chain 0 in
  let? n := py_len chain in
  loop (Z.to_nat n) chain n last_block 1.

(** ** The structural reference *)

Fixpoint links (prev : pyval) (l : list pyval) : res bool :=
  match l with
  | [] => Ok true
  | b :: l' =>
      let? ok := link_ok prev b in
      if ok then links b l' else Ok false
  end.

(** [linked prev l]: each block of [l] names the hash of its predecessor
    and carries a proof valid against the predecessor's proof. *)
Inductive linked : pyval -> list pyval -> Prop :=
| linked_nil prev : linked prev []
| linked_cons prev b l lp p :
    getitem_str b "previous_hash" = Ok (PStr (hash prev)) ->
    getitem_str prev "proof" = Ok lp ->
    getitem_str b "proof" = Ok p ->
    valid_proof lp p = true ->
    linked b l ->
    linked prev (b :: l).

(** ** The index loop computes the structural walk *)

Lemma nth_error_middle {A} (pre rest : list A) (b : A) :
  nth_error (pre ++ b :: rest) (List.length pre) = Some b.
Proof. induction pre; simpl; auto. Qed.

Lemma getitem_int_middle (pre rest : list pyval) (b : pyval) :
  getitem_int (PList (pre ++ b :: rest)) (Z.of_nat (List.length pre)) = Ok b.
Proof.
  unfold getitem_int, norm_index. rewrite length_app. simpl.
  destruct (Z.ltb_spec (Z.of_nat (List.length pre)) 0); [lia|].
  destruct (Z.leb_spec 0 (Z.of_nat (List.length pre))); [|lia].
  destruct (Z.ltb_spec (Z.of_nat (List.length pre))
                       (Z.of_nat (List.length pre + S (List.length rest)))); [|lia].
  simpl. rewrite Nat2Z.id, nth_error_middle. reflexivity.
Qed.

Lemma loop_S fuel chain n lb i :
  loop (S fuel) chain n lb i =
  if i <? n then
    let? block := getitem_int chain i in
    let? ok := link_ok lb block in
    if ok then loop fuel chain n block (i + 1) else Ok false
  else Ok true.
Proof. reflexivity. Qed.

(** Whenever the fuel covers the blocks left to visit, the loop is the
    structural walk over them. *)
Lemma loop_links (rest pre : list pyval) (fuel : nat) (lb : pyval) :
  (List.length rest <= fuel)%nat ->
  loop fuel (PList (pre ++ rest)) (Z.of_nat (List.length (pre ++ rest))) lb
       (Z.of_nat (List.length pre)) = links lb rest.
Proof.
  revert pre fuel lb. induction rest as [|b rest IH]; intros pre fuel lb Hf.
  - destruct fuel; simpl; [reflexivity|].
    rewrite app_nil_r, Z.ltb_irrefl. reflexivity.
  - destruct fuel as [|fuel]; simpl in Hf; [lia|]. rewrite loop_S.
    rewrite length_app. simpl List.length.
    destruct (Z.ltb_spec (Z.of_nat (List.length pre))
                         (Z.of_nat (List.length pre + S (List.length rest)))); [|lia].
    rewrite getitem_int_middle. simpl.
    destruct (link_ok lb b) as [[|]|e]; simpl; try reflexivity.
    rewrite <- (IH (pre ++ [b]) fuel b) by lia. rewrite <- app_assoc. simpl.
    f_equal; rewrite ?length_app; simpl; lia.
Qed.

Lemma valid_chain_as_links (b0 : pyval) (l : list pyval) :
  valid_chain (PList (b0 :: l)) = links b0 l.
Proof.
  unfold valid_chain. simpl res_bind.
  replace 1 with (Z.of_nat (List.length [b0])) by reflexivity.
  rewrite Nat2Z.id. apply (loop_links l [b0]). simpl. lia.
Qed.

(** C7: the source's index loop over a list computes the pairwise walk:
    [valid_chain] on [b0 :: l] is [links b0 l], whatever the blocks are
    (errors included: a missing key raises in both). *)
Theorem valid_chain_links (b0 : pyval) (l : list pyval) :
  valid_chain (PList (b0 :: l)) = links b0 l.
Proof. apply valid_chain_as_links. Qed.

(** ** What [valid_chain] accepts *)

Lemma eq_str_true (v : pyval) (s : string) : eq_str v s = true <-> v = PStr s.
Proof.
  destruct v; simpl; split; intros H; try discriminate; try congruence.
  - apply String.eqb_eq in H. congruence.
  - injection H as ->. apply String.eqb_refl.
Qed.

Lemma link_ok_true (prev b : pyval) :
  link_ok prev b = Ok true <->
  exists lp p, getitem_str b "previous_hash" = Ok (PStr (hash prev)) /\
    getitem_str prev "proof" = Ok lp /\ getitem_str b "proof" = Ok p /\
    valid_proof lp p = true.
Proof.
  unfold link_ok. split.
  - intros H. inv_ok.
    destruct (eq_str a (hash prev)) eqn:E; simpl in H; [|discriminate].
    apply eq_str_true in E; subst. inv_ok. do 2 eexists. repeat split; eassumption.
  - intros [lp [p [H1 [H2 [H3 H4]]]]]. rewrite H1. simpl.
    rewrite String.eqb_refl. simpl. rewrite H2, H3. simpl. congruence.
Qed.

Lemma links_true_iff (prev : pyval) (l : list pyval) :
  links prev l = Ok true <-> linked prev l.
Proof.
  revert prev. induction l as [|b l IH]; intros prev; simpl.
  - split; [constructor|reflexivity].
  - split.
    + intros H. destruct (link_ok prev b) as [[|]|e] eqn:Hl; simpl in H; try discriminate.
      apply link_ok_true in Hl as [lp [p [H1 [H2 [H3 H4]]]]].
      econstructor; eauto. apply IH, H.
    + intros H. inversion H as [|? ? ? lp p H1 H2 H3 H4 H5]; subst.
      assert (link_ok prev b = Ok true) as -> by (apply link_ok_true; exists lp, p; auto).
      apply IH, H5.
Qed.

Lemma valid_chain_linked (b0 : pyval) (l : list pyval) :
  valid_chain (PList (b0 :: l)) = Ok true <-> linked b0 l.
Proof. rewrite valid_chain_as_links. apply links_true_iff. Qed.

(** C2: a list is accepted exactly when every consecutive pair of blocks
    is linked by hash and by proof. *)
Theorem valid_chain_true_iff (b0 : pyval) (l : list pyval) :
  valid_chain (PList (b0 :: l)) = Ok true <-> linked b0 l.
Proof. apply valid_chain_linked. Qed.

Lemma linked_snoc (prev : pyval) (l : list pyval) (b lp p : pyval) :
  linked prev l ->
  getitem_str b "previous_hash" = Ok (PStr (hash (List.last (prev :: l) PNone))) ->
  getitem_str (List.last (prev :: l) PNone) "proof" = Ok lp ->
  getitem_str b "proof" = Ok p ->
  valid_proof lp p = true ->
  linked prev (l ++ [b]).
Proof.
  induction 1 as [prev|prev c l lp' p' H1 H2 H3 H4 H5 IH]; intros Hb Hlp Hp Hv; simpl.
  - econstructor; eauto; constructor.
  - econstructor; eauto.
Qed.

(** Appending a block linked to the last block keeps a chain valid. *)
Theorem valid_chain_snoc (b0 : pyval) (l : list pyval) (b lp p : pyval) :
  valid_chain (PList (b0 :: l)) = Ok true ->
  getitem_str b "previous_hash" = Ok (PStr (hash (List.last (b0 :: l) PNone))) ->
  getitem_str (List.last (b0 :: l) PNone) "proof" = Ok lp ->
  getitem_str b "proof" = Ok p ->
  valid_proof lp p = true ->
  valid_chain (PList (b0 :: l ++ [b])) = Ok true.
Proof.
  rewrite !valid_chain_linked. intros. eapply linked_snoc; eauto.
Qed.

(** ** What the check protects *)

Lemma linked_suffix (prev : pyval) (l1 rest : list pyval) (x : pyval) :
  linked prev (l1 ++ x :: rest) -> linked x rest.
Proof.
  revert prev. induction l1 as [|y l1 IH]; intros prev H; simpl in H;
    inversion H; subst; eauto.
Qed.

Lemma valid_chain_suffix (pre rest : list pyval) (x : pyval) :
  valid_chain (PList (pre ++ x :: rest)) = Ok true -> linked x rest.
Proof.
  destruct pre as [|b0 pre]; simpl; rewrite valid_chain_linked; [auto|].
  apply linked_suffix.
Qed.

(** A block that has a successor cannot be replaced by one with another
    hash: the successor's [previous_hash] no longer matches. *)
Lemma tamper_inner (pre post : list pyval) (b b' c : pyval) :
  valid_chain (PList (pre ++ b :: c :: post)) = Ok true ->
  hash b' <> hash b ->
  valid_chain (PList (pre ++ b' :: c :: post)) <> Ok true.
Proof.
  intros Hv Hne Hv'.
  apply valid_chain_suffix in Hv, Hv'.
  inversion Hv as [|? ? ? ? ? H1]; inversion Hv' as [|? ? ? ? ? H1']; subst.
  rewrite H1 in H1'. congruence.
Qed.

(** Two blocks that agree on [previous_hash] and [proof] link alike. *)
Lemma link_ok_same_fields (prev b b' : pyval) :
  getitem_str b' "previous_hash" = getitem_str b "previous_hash" ->
  getitem_str b' "proof" = getitem_str b "proof" ->
  link_ok prev b' = link_ok prev b.
Proof. intros H1 H2. unfold link_ok. rewrite H1, H2. reflexivity. Qed.

Lemma links_last_same_fields (prev : pyval) (l : list pyval) (b b' : pyval) :
  getitem_str b' "previous_hash" = getitem_str b "previous_hash" ->
  getitem_str b' "proof" = getitem_str b "proof" ->
  links prev (l ++ [b']) = links prev (l ++ [b]).
Proof.
  intros H1 H2. revert prev. induction l as [|y l IH]; intros prev; simpl.
  - rewrite (link_ok_same_fields prev b b' H1 H2). reflexivity.
  - destruct (link_ok prev y) as [[|]|e]; simpl; auto.
Qed.

(** C11: what [valid_chain] protects: a block that has a successor
    cannot be replaced by one with another hash (the successor's
    [previous_hash] no longer matches; [hash b' <> hash b] is where
    SHA-256's collision resistance enters), while the last block is
    covered by no hash: replacing it by any value with the same
    [previous_hash] and [proof] (other transactions, another timestamp or
    index) does not change the verdict. *)
Theorem tamper_detected (pre post : list pyval) (b b' c : pyval) (b0 : pyval) (l : list pyval)
    (bl bl' : pyval) :
  (valid_chain (PList (pre ++ b :: c :: post)) = Ok true -> hash b' <> hash b ->
   valid_chain (PList (pre ++ b' :: c :: post)) <> Ok true) /\
  (getitem_str bl' "previous_hash" = getitem_str bl "previous_hash" ->
   getitem_str bl' "proof" = getitem_str bl "proof" ->
   valid_chain (PList (b0 :: l ++ [bl'])) = valid_chain (PList (b0 :: l ++ [bl]))).
Proof.
  split; [apply tamper_inner|].
  intros H1 H2. rewrite !valid_chain_as_links. apply links_last_same_fields; auto.
Qed.

Lemma tamper_detected_witness :
  valid_chain (PList ([g0] ++ b1_other :: b2 :: [])) <> Ok true /\
  valid_chain (PList (g0 :: [b1] ++ [b2_empty])) = valid_chain (PList (g0 :: [b1] ++ [b2])).
Proof.
  destruct (tamper_detected [g0] [] b1 b1_other b2 g0 [b1] b2 b2_empty) as [H1 H2].
  split; [apply H1; [vm_compute; reflexivity|vm_compute; discriminate]|apply H2; reflexivity].
Defined.

(** C19: the chains of length below two: an empty list raises
    [IndexError] at [chain[0]] (the spec calls an empty chain trivially
    valid), while a one-element list, and even a one-character str, is
    valid whatever it holds: the genesis block is never inspected. *)
Lemma valid_chain_short :
  valid_chain (PList []) = Err IndexError /\
  (forall x : pyval, valid_chain (PList [x]) = Ok true) /\
  (forall c : ascii, valid_chain (PStr (String c EmptyString)) = Ok true).
Proof. repeat split. Qed.

End Validator.
