(* ===== verification/Consensus.v ===== *)
(** * [Blockchain.resolve_conflicts] (src/blockchain.py, lines 54-81)

    The consensus rule: ask every registered peer for [/chain], keep the
    reply whose reported [length] is the greatest among those above our
    own length and whose [chain] passes [valid_chain], and adopt it.

    The network is the Section variable [fetch]: the reply to
    [requests.get(url)] for each URL, either [Unreachable] (requests
    raises) or a status code with the body's JSON, if it is JSON.  The
    order in which the set [self.nodes] is iterated is a parameter
    [order]: Python does not specify it, so every theorem holds for every
    enumeration of the set.

    The theorems: the chain is replaced only by a value that passes
    [valid_chain] and that some peer sent with a reported length above
    ours and not below any other accepted reply (the first such reply in
    iteration order wins ties); otherwise, and whenever an exception
    escapes, the object is unchanged.  Two divergences from the spec are
    proved as well: a peer that cannot be reached aborts the whole
    resolution, and the reported length is trusted, so a shorter chain
    can replace ours.  The iteration order matters only through ties: a
    completed resolution gives the same result for every enumeration
    when no two different qualifying chains report the same length; but
    whether it completes can depend on the order, since a reply is only
    validated when it beats the best so far.  Finally, registering
    [http://h] makes the resolution fetch [http://h/chain]. *)

From Stdlib Require Import ZArith List String Ascii Lia Bool.
From stdpp Require Import base gmap strings.
From S2P Require Import Prelude Sha256 PyFloat PyValue Json Hasher ProofOfWork Url Chain Samples Validator.
Import ListNotations PyValue Hasher ProofOfWork Chain Samples Validator.
Open Scope Z_scope.

Module Consensus.

(** What [requests.get(url)] gives back. *)
Inductive reply :=
| Unreachable                                  (** requests raises *)
| Response (status : Z) (body : option pyval). (** [None]: not JSON *)

(** [f'http://{node}/chain'], with [str()] of the set element. *)
Definition node_url (n : netloc) : string :=
  match n with
  | NetStr s => "http://" ++ s ++ "/chain"
  | NetBytes s => "http://b'" ++ s ++ "'/chain"
  end%string.

Section Resolve.

Variable fetch : string -> reply.

(** The loop state: [max_length] and [new_chain]. *)
Definition best := (pyval * option pyval)%type.

(** One iteration of [for node in neighbours]. *)
Definition visit (acc : best) (node : netloc) : res best :=
  let '(max_length, new_chain) := acc in
  match fetch (node_url node) with
  | Unreachable => Err RequestException
  | Response status body =>
      if status =? 200 then
        let? j := of_option JSONDecodeError body in
        let? length := getitem_str j "length" in
        let? chain := getitem_str j "chain" in
        let? longer := gt_num length max_length in
        if longer then
          let? ok := valid_chain chain in
          if ok then Ok (length, Some chain) else Ok acc
        else Ok acc
      else Ok acc
  end.

Fixpoint visit_all (acc : best) (order : list netloc) : res best :=
  match order with
  | [] => Ok acc
  | n :: order' => let? acc' := visit acc n in visit_all acc' order'
  end.

(** [if new_chain:] is Python truthiness of the adopted value. *)
Definition resolve_conflicts (order : list netloc) : PyM blockchain bool :=
  s <- pget ;;
  max_length <- plift (py_len (chain s)) ;;
  final <- plift (visit_all (PInt max_length, None) order) ;;
  match snd final with
  | Some c => if truthy c then (_ <- pput (set_chain s c) ;; pret true) else pret false
  | None => pret false
  end.

End Resolve.

(** ** The resolution as a function of the loop's outcome *)

Lemma resolve_conflicts_eq fetch order s :
  resolve_conflicts fetch order s =
  match py_len (chain s) with
  | Err e => (s, Err e)
  | Ok m =>
      match visit_all fetch (PInt m, None) order with
      | Err e => (s, Err e)
      | Ok final =>
          match snd final with
          | Some c => if truthy c then (set_chain s c, Ok true) else (s, Ok false)
          | None => (s, Ok false)
          end
      end
  end.
Proof.
  unfold resolve_conflicts, pbind, pget, plift, pput, pret.
  destruct (py_len (chain s)); [|reflexivity].
  destruct (visit_all _ _ _) as [[ml [c|]]|e]; simpl; [|reflexivity..].
  destruct (truthy c); reflexivity.
Qed.

Lemma resolve_not_true_same fetch order s s' r :
  resolve_conflicts fetch order s = (s', r) -> r <> Ok true -> s' = s.
Proof.
  rewrite resolve_conflicts_eq.
  destruct (py_len (chain s)) as [m|e]; [|congruence].
  destruct (visit_all fetch (PInt m, None) order) as [[ml [c|]]|e]; simpl; [|congruence..].
  destruct (truthy c); congruence.
Qed.

(** A reply the loop may adopt: status 200, JSON body with [chain]. *)
Definition sent fetch (order : list netloc) (c : pyval) : Prop :=
  exists n j, In n order /\ fetch (node_url n) = Response 200 (Some j) /\
    getitem_str j "chain" = Ok c.

Lemma visit_adopts fetch acc n acc' :
  visit fetch acc n = Ok acc' ->
  snd acc' = snd acc \/
  exists c, snd acc' = Some c /\ valid_chain c = Ok true /\ sent fetch [n] c.
Proof.
  destruct acc as [ml nc]. unfold visit.
  destruct (fetch (node_url n)) as [|st body] eqn:Hf; [discriminate|].
  destruct (st =? 200) eqn:Hst; [|intros H; injection H as <-; auto].
  intros H.
  destruct body as [j|]; simpl in H; [|discriminate].
  destruct (getitem_str j "length") as [len|e] eqn:Hl; simpl in H; [|discriminate].
  destruct (getitem_str j "chain") as [c|e] eqn:Hc; simpl in H; [|discriminate].
  destruct (gt_num len ml) as [[|]|e]; simpl in H; [|injection H as <-; auto|discriminate].
  destruct (valid_chain c) as [[|]|e] eqn:Hv; simpl in H;
    [|injection H as <-; auto|discriminate].
  injection H as <-. right. exists c. apply Z.eqb_eq in Hst; subst.
  split; [reflexivity|split; [exact Hv|]]. exists n, j. simpl. auto.
Qed.

Lemma visit_all_adopts fetch acc order final :
  visit_all fetch acc order = Ok final ->
  snd final = snd acc \/
  exists c, snd final = Some c /\ valid_chain c = Ok true /\ sent fetch order c.
Proof.
  revert acc. induction order as [|n order IH]; intros acc H; simpl in H.
  - injection H as <-. auto.
  - inv_ok. destruct (IH _ H) as [E|[c [E [Hv [m [j [Hin Hj]]]]]]].
    + destruct (visit_adopts _ _ _ _ Ha) as [E'|[c [E' [Hv [m [j [Hin Hj]]]]]]].
      * left. congruence.
      * right. exists c. split; [congruence|split; [exact Hv|]].
        exists m, j. split; [|exact Hj]. destruct Hin as [<-|[]]. left. reflexivity.
    + right. exists c. split; [exact E|split; [exact Hv|]].
      exists m, j. split; [right; exact Hin|exact Hj].
Qed.

Lemma resolve_true_adopted fetch order s s' :
  resolve_conflicts fetch order s = (s', Ok true) ->
  valid_chain (chain s') = Ok true /\ sent fetch order (chain s') /\
  current_transactions s' = current_transactions s /\ nodes s' = nodes s.
Proof.
  rewrite resolve_conflicts_eq.
  destruct (py_len (chain s)) as [m|e]; [|congruence].
  destruct (visit_all fetch (PInt m, None) order) as [final|e] eqn:Hva; [|congruence].
  destruct (visit_all_adopts _ _ _ _ Hva) as [E|[c [E [Hv Hs]]]]; rewrite E; simpl;
    [congruence|].
  destruct (truthy c); [|congruence]. intros H; injection H as <-. simpl. auto.
Qed.

(** C8: the outcome of a resolution, on every branch: after an answer
    [True] the chain is a value some peer sent, it passes [valid_chain],
    and nothing else of the object changed; after an answer [False] or an
    exception the whole object is as it was (the replacement is atomic). *)
Theorem resolve_replaced_valid fetch order s s' r :
  resolve_conflicts fetch order s = (s', r) ->
  (r = Ok true -> valid_chain (chain s') = Ok true /\ sent fetch order (chain s') /\
     current_transactions s' = current_transactions s /\ nodes s' = nodes s) /\
  (r <> Ok true -> s' = s).
Proof.
  intros H. split; [intros ->; exact (resolve_true_adopted _ _ _ _ H)|].
  exact (resolve_not_true_same _ _ _ _ _ H).
Qed.

(** ** Divergences from the spec *)

Lemma visit_all_unreachable fetch acc order n :
  In n order -> fetch (node_url n) = Unreachable ->
  exists e, visit_all fetch acc order = Err e.
Proof.
  revert acc. induction order as [|m order IH]; intros acc Hin Hu; [destruct Hin|].
  simpl. destruct Hin as [<-|Hin].
  - destruct acc as [ml nc]. unfold visit. rewrite Hu. simpl. eauto.
  - destruct (visit fetch acc m) as [acc'|e]; simpl; eauto.
Qed.

(** C13: one unreachable peer aborts the resolution: [requests.get]
    raises, nothing catches it, and the chain stays as it was, whatever
    the other peers hold.  (The spec asks that such a peer be skipped.) *)
Theorem resolve_unreachable_aborts fetch order s n :
  In n order -> fetch (node_url n) = Unreachable ->
  exists e, resolve_conflicts fetch order s = (s, Err e).
Proof.
  intros Hin Hu. rewrite resolve_conflicts_eq.
  destruct (py_len (chain s)) as [m|e]; [|eauto].
  destruct (visit_all_unreachable fetch (PInt m, None) order n Hin Hu) as [e ->]. eauto.
Qed.

(** The body a peer that claims length [L] for the list [l] sends. *)
Definition reply_body (L : Z) (l : list pyval) : pyval :=
  PDict [("chain", PList l); ("length", PInt L)].

(** C12: the reported length is trusted: a single peer that reports any
    length above ours with a one-block list, whatever that block is,
    replaces our chain, however long it was. *)
Theorem resolve_trusts_reported_length (s : blockchain) (l : list pyval) (x : pyval)
    (peer : string) (L : Z) :
  chain s = PList l -> Z.of_nat (List.length l) < L ->
  resolve_conflicts (fun _ => Response 200 (Some (reply_body L [x]))) [NetStr peer] s =
    (set_chain s (PList [x]), Ok true).
Proof.
  intros Hc HL. rewrite resolve_conflicts_eq, Hc. simpl.
  destruct (Z.ltb_spec (Z.of_nat (List.length l)) L); [reflexivity|lia].
Qed.

(** ** Refinement: the longest valid chain above ours is adopted

    The abstract rule, for peers that report integer lengths: a reply
    [qualifies] when it has status 200, reports an integer length above
    ours and carries a chain that passes [valid_chain]. *)

Definition int_reply fetch (n : netloc) (L : Z) (c : pyval) : Prop :=
  exists j, fetch (node_url n) = Response 200 (Some j) /\
    getitem_str j "length" = Ok (PInt L) /\ getitem_str j "chain" = Ok c.

Definition qualifies fetch (local : Z) (n : netloc) (L : Z) (c : pyval) : Prop :=
  int_reply fetch n L c /\ local < L /\ valid_chain c = Ok true.

(** Every peer of [order] that answers 200 with JSON reports an int. *)
Definition int_lengths fetch (order : list netloc) : Prop :=
  forall n j, In n order -> fetch (node_url n) = Response 200 (Some j) ->
  forall v, getitem_str j "length" = Ok v -> exists L, v = PInt L.

(** The loop invariant over the peers visited so far. *)
Definition best_so_far fetch (local : Z) (seen : list netloc) (m : Z) (nc : option pyval)
    : Prop :=
  local <= m /\
  (nc = None /\ m = local \/
   exists n c, nc = Some c /\ In n seen /\ qualifies fetch local n m c) /\
  (forall n L c, In n seen -> qualifies fetch local n L c -> L <= m).

Lemma qualifies_functional fetch local n L c L' c' :
  qualifies fetch local n L c -> qualifies fetch local n L' c' -> L = L' /\ c = c'.
Proof.
  intros [[j [Hf [Hl Hc]]] _] [[j' [Hf' [Hl' Hc']]] _].
  rewrite Hf in Hf'. injection Hf' as <-. split; congruence.
Qed.

Lemma visit_best fetch local seen m nc n acc' :
  best_so_far fetch local seen m nc ->
  int_lengths fetch [n] ->
  visit fetch (PInt m, nc) n = Ok acc' ->
  exists m' nc', acc' = (PInt m', nc') /\ best_so_far fetch local (seen ++ [n]) m' nc'.
Proof.
  intros [Hle [Hnc Hmax]] Hint. unfold visit.
  assert (Hkeep : (forall L' c', qualifies fetch local n L' c' -> L' <= m) ->
            best_so_far fetch local (seen ++ [n]) m nc).
  { intros Hn. split; [exact Hle|split].
    - destruct Hnc as [Hnc|[n' [c' [E [Hin Hq]]]]]; [left; exact Hnc|].
      right. exists n', c'. rewrite in_app_iff. auto.
    - intros n' L' c' Hin Hq. apply in_app_or in Hin as [Hin|[<-|[]]]; eauto. }
  destruct (fetch (node_url n)) as [|st body] eqn:Hf; [discriminate|].
  destruct (Z.eqb_spec st 200) as [->|Hst].
  2: { intros H. injection H as <-. exists m, nc. split; [reflexivity|].
       apply Hkeep. intros L' c' [[j [Hf' _]] _]. congruence. }
  destruct body as [j|]; simpl; [|discriminate].
  destruct (getitem_str j "length") as [len|e] eqn:Hl; simpl; [|discriminate].
  destruct (Hint n j (or_introl eq_refl) Hf len Hl) as [L ->].
  destruct (getitem_str j "chain") as [c|e] eqn:Hc; simpl; [|discriminate].
  assert (Hq : forall L' c', qualifies fetch local n L' c' -> L' = L /\ c' = c).
  { intros L' c' [[j' [Hf' [Hl' Hc']]] _]. rewrite Hf in Hf'. injection Hf' as <-. split; congruence. }
  destruct (Z.ltb_spec m L) as [HmL|HLm]; simpl.
  - destruct (valid_chain c) as [[|]|e] eqn:Hv; simpl; intros H; inversion H; subst.
    + exists L, (Some c). split; [reflexivity|]. split; [lia|split].
      * right. exists n, c. split; [reflexivity|split; [apply in_or_app; simpl; auto|]].
        split; [exists j; auto|split; [lia|exact Hv]].
      * intros n' L' c' Hin Hq'. apply in_app_or in Hin as [Hin|[<-|[]]].
        -- specialize (Hmax n' L' c' Hin Hq'). lia.
        -- destruct (Hq L' c' Hq') as [-> _]. lia.
    + exists m, nc. split; [reflexivity|]. apply Hkeep.
      intros L' c' Hq'. destruct (Hq L' c' Hq') as [-> ->]. destruct Hq' as [_ [_ Hv']]. congruence.
  - intros H. injection H as <-. exists m, nc. split; [reflexivity|]. apply Hkeep.
    intros L' c' Hq'. destruct (Hq L' c' Hq') as [-> ->]. exact HLm.
Qed.

Lemma visit_all_best fetch local rest seen m nc final :
  best_so_far fetch local seen m nc ->
  int_lengths fetch rest ->
  visit_all fetch (PInt m, nc) rest = Ok final ->
  exists m' nc', final = (PInt m', nc') /\ best_so_far fetch local (seen ++ rest) m' nc'.
Proof.
  revert seen m nc. induction rest as [|n rest IH]; intros seen m nc Hb Hint H; simpl in H.
  - injection H as <-. exists m, nc. rewrite app_nil_r. auto.
  - inv_ok. destruct (visit_best fetch local seen m nc n a Hb) as [m1 [nc1 [-> Hb1]]].
    + intros n' j Hin. apply Hint. destruct Hin as [<-|[]]. left. reflexivity.
    + exact Ha.
    + replace (seen ++ n :: rest) with ((seen ++ [n]) ++ rest)
        by (rewrite <- app_assoc; reflexivity).
      apply (IH (seen ++ [n]) m1 nc1); auto.
      intros n' j Hin. apply Hint. right. exact Hin.
Qed.

Lemma valid_chain_truthy (c : pyval) : valid_chain c = Ok true -> truthy c = true.
Proof.
  destruct c as [| | | |[|ch str]|[|x l]|[|kv d]]; simpl; intros H; try discriminate; reflexivity.
Qed.

Lemma resolve_adopts_best fetch order (s s' : blockchain) (l : list pyval) (r : bool) :
  chain s = PList l -> int_lengths fetch order ->
  resolve_conflicts fetch order s = (s', Ok r) ->
  let local := Z.of_nat (List.length l) in
  if r then
    exists n L, In n order /\ qualifies fetch local n L (chain s') /\
      forall n' L' c', In n' order -> qualifies fetch local n' L' c' -> L' <= L
  else
    s' = s /\ forall n' L' c', In n' order -> ~ qualifies fetch local n' L' c'.
Proof.
  intros Hc Hint. rewrite resolve_conflicts_eq, Hc. cbn [py_len]. cbv zeta.
  destruct (visit_all fetch (PInt (Z.of_nat (List.length l)), None) order)
    as [final|e] eqn:Hva; [|intros H; discriminate H].
  destruct (visit_all_best fetch (Z.of_nat (List.length l)) order [] (Z.of_nat (List.length l)) None final)
    as [m [nc [-> [Hle [Hnc Hmax]]]]]; [|exact Hint|exact Hva|].
  { split; [lia|split; [left; auto|intros ? ? ? []]]. }
  simpl. destruct Hnc as [[-> ->]|[n [c [-> [Hin Hq]]]]].
  - intros H. injection H as <- <-. split; [reflexivity|].
    intros n' L' c' Hin Hq'. specialize (Hmax n' L' c' Hin Hq').
    destruct Hq' as [_ [HL _]]. lia.
  - rewrite (valid_chain_truthy c) by (destruct Hq as [_ [_ Hv]]; exact Hv).
    intros H. injection H as <- <-. simpl. exists n, m. auto.
Qed.

(** C3: refinement of the longest-valid-chain rule.  When every peer
    reports an integer length and the resolution completes, it answers
    [True] exactly when some peer qualifies, and then the adopted chain
    is a qualifying chain whose length no qualifying peer exceeds. *)
Theorem resolve_longest_valid fetch order (s s' : blockchain) (l : list pyval) (r : bool) :
  chain s = PList l -> int_lengths fetch order ->
  resolve_conflicts fetch order s = (s', Ok r) ->
  let local := Z.of_nat (List.length l) in
  if r then
    exists n L, In n order /\ qualifies fetch local n L (chain s') /\
      forall n' L' c', In n' order -> qualifies fetch local n' L' c' -> L' <= L
  else
    s' = s /\ forall n' L' c', In n' order -> ~ qualifies fetch local n' L' c'.
Proof. apply resolve_adopts_best. Qed.

(** C18: ties go to the peer visited first: [new_chain] is only replaced
    on a strictly greater length.  (The spec's design notes say the last
    one examined wins.) *)
Theorem resolve_first_wins (s : blockchain) (l c1 c2 : list pyval) (n1 n2 : netloc) (L : Z)
    (fetch : string -> reply) :
  chain s = PList l -> Z.of_nat (List.length l) < L ->
  fetch (node_url n1) = Response 200 (Some (reply_body L c1)) ->
  fetch (node_url n2) = Response 200 (Some (reply_body L c2)) ->
  valid_chain (PList c1) = Ok true -> valid_chain (PList c2) = Ok true ->
  resolve_conflicts fetch [n1; n2] s = (set_chain s (PList c1), Ok true).
Proof.
  intros Hc HL H1 H2 V1 V2. rewrite resolve_conflicts_eq, Hc. cbn [py_len visit_all].
  unfold visit. rewrite H1. cbn. destruct (Z.ltb_spec (Z.of_nat (List.length l)) L); [|lia].
  rewrite V1. cbn. rewrite H2. cbn. rewrite Z.ltb_irrefl. cbn.
  destruct c1 as [|x c1]; [discriminate V1|reflexivity].
Qed.

(** ** The iteration order of [self.nodes] *)

Lemma int_lengths_perm fetch o1 o2 :
  Permutation o1 o2 -> int_lengths fetch o1 -> int_lengths fetch o2.
Proof. intros Hp Hint n j Hin. apply Hint. exact (Permutation_in _ (Permutation_sym Hp) Hin). Qed.

Lemma blockchain_eq (s1 s2 : blockchain) :
  chain s1 = chain s2 -> current_transactions s1 = current_transactions s2 ->
  nodes s1 = nodes s2 -> s1 = s2.
Proof. destruct s1, s2; simpl; intros -> -> ->; reflexivity. Qed.

(** C38: a completed resolution does not depend on the order in which
    the set of peers is iterated, as long as qualifying replies that
    report the same length carry the same chain (no tie between two
    different chains, where the first visited wins). *)
Theorem resolve_order_independent fetch (o1 o2 : list netloc) (s s1 s2 : blockchain)
    (l : list pyval) (r1 r2 : bool) :
  chain s = PList l -> int_lengths fetch o1 -> Permutation o1 o2 ->
  (forall n1 n2 L c1 c2, In n1 o1 -> In n2 o1 ->
     qualifies fetch (Z.of_nat (List.length l)) n1 L c1 ->
     qualifies fetch (Z.of_nat (List.length l)) n2 L c2 -> c1 = c2) ->
  resolve_conflicts fetch o1 s = (s1, Ok r1) -> resolve_conflicts fetch o2 s = (s2, Ok r2) ->
  s1 = s2 /\ r1 = r2.
Proof.
  intros Hc Hint Hp Huniq H1 H2.
  pose proof (resolve_adopts_best _ _ _ _ _ _ Hc Hint H1) as A1.
  pose proof (resolve_adopts_best _ _ _ _ _ _ Hc (int_lengths_perm _ _ _ Hp Hint) H2) as A2.
  cbv zeta in A1, A2.
  assert (P12 : forall n, In n o1 -> In n o2) by (intros n; apply Permutation_in, Hp).
  assert (P21 : forall n, In n o2 -> In n o1) by (intros n; apply Permutation_in, Permutation_sym, Hp).
  destruct r1, r2.
  - destruct A1 as [n1 [L1 [Hin1 [Hq1 Hm1]]]], A2 as [n2 [L2 [Hin2 [Hq2 Hm2]]]].
    pose proof (Hm1 n2 L2 _ (P21 _ Hin2) Hq2). pose proof (Hm2 n1 L1 _ (P12 _ Hin1) Hq1).
    assert (L1 = L2) as <- by lia.
    pose proof (Huniq n1 n2 L1 _ _ Hin1 (P21 _ Hin2) Hq1 Hq2) as Ec.
    destruct (resolve_true_adopted _ _ _ _ H1) as [_ [_ [T1 N1]]].
    destruct (resolve_true_adopted _ _ _ _ H2) as [_ [_ [T2 N2]]].
    split; [apply blockchain_eq; congruence|reflexivity].
  - destruct A1 as [n1 [L1 [Hin1 [Hq1 _]]]], A2 as [_ Hno].
    exfalso. exact (Hno n1 L1 _ (P12 _ Hin1) Hq1).
  - destruct A2 as [n2 [L2 [Hin2 [Hq2 _]]]], A1 as [_ Hno].
    exfalso. exact (Hno n2 L2 _ (P21 _ Hin2) Hq2).
  - destruct A1 as [-> _], A2 as [-> _]. auto.
Qed.

(** ** From a registered address to the URL fetched *)

(** C27: what [register_node] stores, and the URL [resolve_conflicts]
    then fetches for it: an address with no ['/'], such as
    ['192.168.0.5:5000'] or ['localhost:5000'], registers the empty
    netloc ([urlparse] finds no ["//"]; the spec asks for the normalised
    [host:port]); [http://h] followed by an empty path or one starting
    with ['/'] (where [h] holds no delimiter, bracket, tab or newline)
    registers [h], fetched at [http://h/chain]. *)
Theorem register_then_fetch_url (a h t : string) (s : blockchain) :
  (Url.find_char "/" a = None ->
   register_node (PStr a) s = (set_nodes s ({[NetStr EmptyString]} ∪ nodes s), Ok tt)) /\
  (Url.all_chars Url.netloc_char h = true -> Url.path_start t = true ->
   exists n, register_node (PStr ("http://" ++ h ++ t)) s = (set_nodes s ({[n]} ∪ nodes s), Ok tt) /\
     node_url n = ("http://" ++ h ++ "/chain")%string).
Proof.
  split; [apply register_node_without_slash|].
  intros Hh Ht. exists (NetStr h). split; [|reflexivity].
  unfold register_node, urlparse_netloc. chainrun. rewrite Url.netloc_of_http by assumption.
  reflexivity.
Qed.

(** ** Witnesses *)

(** Two peers: [a] holds the three-block sample chain, [b] claims a
    longer chain that does not link, [c] cannot be reached. *)
Definition fetch_demo (url : string) : reply :=
  if String.eqb url "http://a:5000/chain" then Response 200 (Some (reply_body 3 [g0; b1; b2]))
  else if String.eqb url "http://b:5000/chain" then Response 200 (Some (reply_body 9 [b1; g0]))
  else Unreachable.

Definition peer_a : netloc := NetStr "a:5000".
Definition peer_b : netloc := NetStr "b:5000".

Lemma fetch_demo_int_lengths : int_lengths fetch_demo [peer_a; peer_b].
Proof.
  intros n j [<-|[<-|[]]] Hf v Hv; vm_compute in Hf; injection Hf as <-;
    vm_compute in Hv; injection Hv as <-; eexists; reflexivity.
Qed.

Lemma resolve_longest_valid_witness :
  exists n L, In n [peer_a; peer_b] /\
    qualifies fetch_demo 1 n L (chain (set_chain node0 (PList [g0; b1; b2]))) /\
    forall n' L' c', In n' [peer_a; peer_b] -> qualifies fetch_demo 1 n' L' c' -> L' <= L.
Proof.
  apply (resolve_longest_valid fetch_demo [peer_a; peer_b] node0
           (set_chain node0 (PList [g0; b1; b2])) [g0] true);
    [reflexivity|exact fetch_demo_int_lengths|vm_compute; reflexivity].
Defined.

Lemma resolve_replaced_valid_witness :
  valid_chain (chain (set_chain node0 (PList [g0; b1; b2]))) = Ok true /\
  sent fetch_demo [peer_a; peer_b] (chain (set_chain node0 (PList [g0; b1; b2]))) /\
  current_transactions (set_chain node0 (PList [g0; b1; b2])) = current_transactions node0 /\
  nodes (set_chain node0 (PList [g0; b1; b2])) = nodes node0.
Proof.
  apply (resolve_replaced_valid fetch_demo [peer_a; peer_b] node0 _ (Ok true)); [|reflexivity].
  vm_compute. reflexivity.
Defined.

Lemma resolve_unreachable_aborts_witness :
  exists e, resolve_conflicts fetch_demo [peer_a; NetStr "c:5000"] node2 = (node2, Err e).
Proof.
  apply (resolve_unreachable_aborts _ _ _ (NetStr "c:5000")); [simpl; auto|reflexivity].
Defined.

(** A peer that claims length 10 for a bare genesis block replaces the
    valid three-block chain of [node2]. *)
Lemma resolve_trusts_reported_length_witness :
  resolve_conflicts (fun _ => Response 200 (Some (reply_body 10 [g0]))) [NetStr "evil:1"] node2 =
    (set_chain node2 (PList [g0]), Ok true).
Proof. apply (resolve_trusts_reported_length node2 [g0; b1; b2]); [reflexivity|simpl; lia]. Defined.

(** Two peers with valid chains of the same length 3: [a] is adopted. *)
Definition fetch_tie (url : string) : reply :=
  if String.eqb url "http://a:5000/chain" then Response 200 (Some (reply_body 3 [g0; b1; b2]))
  else Response 200 (Some (reply_body 3 [g0; b1; b2_empty])).

Lemma resolve_first_wins_witness :
  resolve_conflicts fetch_tie [peer_a; peer_b] node0 = (set_chain node0 (PList [g0; b1; b2]), Ok true).
Proof.
  apply (resolve_first_wins node0 [g0] [g0; b1; b2] [g0; b1; b2_empty] peer_a peer_b 3);
    first [reflexivity|simpl; lia|vm_compute; reflexivity].
Defined.


(** [peer_a] and [peer_b] in either order: only [a] qualifies. *)
Lemma resolve_order_independent_witness :
  set_chain node0 (PList [g0; b1; b2]) = set_chain node0 (PList [g0; b1; b2]) /\ true = true.
Proof.
  apply (resolve_order_independent fetch_demo [peer_a; peer_b] [peer_b; peer_a] node0
           (set_chain node0 (PList [g0; b1; b2])) (set_chain node0 (PList [g0; b1; b2])) [g0]);
    [reflexivity|exact fetch_demo_int_lengths|apply perm_swap| |vm_compute; reflexivity..].
  intros n1 n2 L c1 c2 Hn1 Hn2 [[j1 [F1 [_ C1]]] [_ V1]] [[j2 [F2 [_ C2]]] [_ V2]].
  destruct Hn1 as [<-|[<-|[]]]; destruct Hn2 as [<-|[<-|[]]];
    vm_compute in F1, F2; injection F1 as <-; injection F2 as <-;
    vm_compute in C1, C2; injection C1 as <-; injection C2 as <-;
    first [reflexivity|vm_compute in V1; discriminate V1|vm_compute in V2; discriminate V2].
Defined.

(** Two peers: [a] sends a valid chain of length 5, [b] reports length 3
    with an empty chain, on which [valid_chain] raises. *)
Definition fetch_race (url : string) : reply :=
  if String.eqb url "http://a:5000/chain" then Response 200 (Some (reply_body 5 [pg; pb]))
  else Response 200 (Some (reply_body 3 [])).

(** C31: whether [/nodes/resolve] completes depends on the iteration
    order of [self.nodes]: take any two peers, [a] sending a valid chain
    that reports length [La], and [b] reporting a length [Lb] with
    [len(self.chain) < Lb <= La] and a chain on which [valid_chain]
    raises.  Visiting [a] first raises the bar to [La], so [b]'s chain is
    never validated and [a]'s is adopted; visiting [b] first validates
    [b]'s chain and the exception aborts the resolution.  Both orders
    enumerate the same set, so both are steps of the node. *)
Theorem resolve_raises_by_order fetch (s : blockchain) (l : list pyval) (na nb : netloc)
    (ja jb ca cb : pyval) (La Lb : Z) (e : exc) :
  chain s = PList l ->
  fetch (node_url na) = Response 200 (Some ja) ->
  getitem_str ja "length" = Ok (PInt La) -> getitem_str ja "chain" = Ok ca -> valid_chain ca = Ok true ->
  fetch (node_url nb) = Response 200 (Some jb) ->
  getitem_str jb "length" = Ok (PInt Lb) -> getitem_str jb "chain" = Ok cb -> valid_chain cb = Err e ->
  Z.of_nat (List.length l) < Lb <= La ->
  resolve_conflicts fetch [na; nb] s = (set_chain s ca, Ok true) /\
  resolve_conflicts fetch [nb; na] s = (s, Err e).
Proof.
  intros Hc Fa La' Ca Va Fb Lb' Cb Vb Hlt.
  assert (E1 : (Z.of_nat (List.length l) <? La) = true) by (apply Z.ltb_lt; lia).
  assert (E2 : (Z.of_nat (List.length l) <? Lb) = true) by (apply Z.ltb_lt; lia).
  assert (E3 : (La <? Lb) = false) by (apply Z.ltb_ge; lia).
  rewrite !resolve_conflicts_eq, Hc. cbn [py_len visit_all]. unfold visit.
  rewrite Fa, Fb. cbn [Z.eqb Pos.eqb res_bind of_option]. rewrite La', Ca, Lb', Cb.
  cbn [res_bind]. unfold gt_num. cbn [as_num num_gt]. rewrite ?E1, ?E2. cbn.
  rewrite Va, Vb. cbn. rewrite E3. cbn. rewrite (valid_chain_truthy ca Va). split; reflexivity.
Qed.

Lemma resolve_raises_by_order_witness :
  resolve_conflicts fetch_race [peer_a; peer_b] node0 = (set_chain node0 (PList [pg; pb]), Ok true) /\
  resolve_conflicts fetch_race [peer_b; peer_a] node0 = (node0, Err IndexError).
Proof.
  apply (resolve_raises_by_order fetch_race node0 [g0] peer_a peer_b (reply_body 5 [pg; pb])
           (reply_body 3 []) (PList [pg; pb]) (PList []) 5 3 IndexError);
    first [reflexivity|vm_compute; reflexivity|simpl; lia].
Defined.


Lemma register_then_fetch_url_witness :
  register_node (PStr "192.168.0.5:5000") node0 =
    (set_nodes node0 ({[NetStr EmptyString]} ∪ nodes node0), Ok tt) /\
  exists n, register_node (PStr ("http://" ++ "192.168.0.5:5000" ++ "/")) node0 =
    (set_nodes node0 ({[n]} ∪ nodes node0), Ok tt) /\
    node_url n = ("http://" ++ "192.168.0.5:5000" ++ "/chain")%string.
Proof.
  destruct (register_then_fetch_url "192.168.0.5:5000" "192.168.0.5:5000" "/" node0) as [H1 H2].
  split; [apply H1; reflexivity|apply H2; reflexivity].
Defined.

End Consensus.
