(* ===== verification/Node.v ===== *)
(** * The Flask node (src/blockchain.py, lines 164-255) as a state machine

    One global [Blockchain] serves five handlers.  Each handler is a
    [PyM] computation on the object, returning the HTTP status and the
    JSON body, or the exception Flask turns into a 500 (the mutations made
    before it stay).  The request body is the decoded JSON value; the
    node identifier ([uuid4]) and the network ([requests.get]) are Section
    variables ([Uuid] models how the identifier is built, [Http] how
    Flask decodes the request and renders the answer); [time()] is an
    argument of the mining request.

    [/mine] runs [proof_of_work] on fuel: [Ok None] means the search has
    not finished, and only a finished (or raising) handler is a step of
    the node.  The iteration order of [self.nodes] in [/nodes/resolve] is
    any enumeration of the set.

    The theorems: every reachable state holds a chain that passes
    [valid_chain], whatever the peers send ([reachable_chain_valid]); on
    a node that has never adopted a peer's chain, every block sits at the
    position its [index] names, so [/transactions/new] announces the index
    the next block will get; once [b''] is a peer (registering [null]
    adds it), every later [/nodes/register] fails. *)

From Stdlib Require Import ZArith List String Ascii Lia Bool.
From stdpp Require Import base gmap strings.
From S2P Require Import Prelude Sha256 PyFloat PyValue Json Hasher ProofOfWork Url Chain Samples Validator Consensus.
Import ListNotations PyFloat PyValue Hasher ProofOfWork Chain Samples Validator Consensus.
Open Scope Z_scope.

Module Node.

Section Node.

Variable node_identifier : string.
Variable fetch : string -> reply.

Definition response := (Z * pyval)%type.

(** ** [/mine] (lines 174-197) *)

Definition mine (fuel : nat) (now : pyfloat) : PyM blockchain (option response) :=
  lb <- last_block ;;
  last_proof <- plift (getitem_str lb "proof") ;;
  match proof_of_work fuel last_proof with
  | None => pret None
  | Some proof =>
      _ <- new_transaction (PStr "0") (PStr node_identifier) (PInt 1) ;;
      block <- new_block (PInt proof) None now ;;
      index <- plift (getitem_str block "index") ;;
      txs <- plift (getitem_str block "transactions") ;;
      p <- plift (getitem_str block "proof") ;;
      ph <- plift (getitem_str block "previous_hash") ;;
      pret (Some (200, PDict [("message", PStr "New Block Forged"); ("index", index);
                              ("transactions", txs); ("proof", p); ("previous_hash", ph)]))
  end.

(** ** [/transactions/new] (lines 200-210) *)

(** [all(k in values for k in required)], short-circuiting. *)
Fixpoint all_in (values : pyval) (ks : list string) : res bool :=
  match ks with
  | [] => Ok true
  | k :: ks' => let? b := contains_str values k in if b then all_in values ks' else Ok false
  end.

Definition handle_new_transaction (values : pyval) : PyM blockchain response :=
  ok <- plift (all_in values ["sender"; "recipient"; "amount"]) ;;
  if negb ok then pret (400, PStr "Missing values")
  else
    sender <- plift (getitem_str values "sender") ;;
    recipient <- plift (getitem_str values "recipient") ;;
    amount <- plift (getitem_str values "amount") ;;
    index <- new_transaction sender recipient amount ;;
    pret (201, PDict [("message", PStr ("Transaction will be added to Block " ++ py_str index))]).

(** ** [/chain] (lines 213-219) *)

Definition handle_full_chain : PyM blockchain response :=
  s <- pget ;;
  n <- plift (py_len (chain s)) ;;
  pret (200, PDict [("chain", chain s); ("length", PInt n)]).

(** ** [/nodes/register] (lines 222-237) *)

(** [values.get('nodes')]: only a dict has [get]. *)
Definition dict_get (values : pyval) (k : string) : res pyval :=
  match values with
  | PDict d => Ok (match dict_lookup d k with Some v => v | None => PNone end)
  | _ => Err AttributeError
  end.

(** [for node in nodes]: the elements of a list, the characters of a
    str, the keys of a dict. *)
Definition py_iter (v : pyval) : res (list pyval) :=
  match v with
  | PList l => Ok l
  | PStr s => Ok (map (fun c => PStr (String c EmptyString)) (list_ascii_of_string s))
  | PDict d => Ok (map (fun kv => PStr (fst kv)) d)
  | _ => Err TypeError
  end.

Fixpoint register_all (l : list pyval) : PyM blockchain unit :=
  match l with
  | [] => pret tt
  | a :: l' => _ <- register_node a ;; register_all l'
  end.

(** [list(blockchain.nodes)] in the set's iteration order; [jsonify]
    cannot encode the bytes [b'']. *)
Definition nodes_json (ns : gset netloc) : res pyval :=
  let fix go (l : list netloc) : res (list pyval) :=
    match l with
    | [] => Ok []
    | NetStr s :: l' => res_map (cons (PStr s)) (go l')
    | NetBytes _ :: _ => Err TypeError
    end in
  res_map PList (go (elements ns)).

Definition handle_register_nodes (values : pyval) : PyM blockchain response :=
  ns <- plift (dict_get values "nodes") ;;
  match ns with
  | PNone => pret (400, PStr "Error: Please supply a valid list of nodes")
  | _ =>
      l <- plift (py_iter ns) ;;
      _ <- register_all l ;;
      s <- pget ;;
      total <- plift (nodes_json (nodes s)) ;;
      pret (201, PDict [("message", PStr "New nodes have been added"); ("total_nodes", total)])
  end.

(** ** [/nodes/resolve] (lines 240-255) *)

Definition handle_consensus (order : list netloc) : PyM blockchain response :=
  replaced <- resolve_conflicts fetch order ;;
  s <- pget ;;
  pret (200, if replaced
             then PDict [("message", PStr "Our chain was replaced"); ("new_chain", chain s)]
             else PDict [("message", PStr "Our chain is authoritative"); ("chain", chain s)]).

(** ** The node *)

Inductive request :=
| Mine (fuel : nat) (now : pyfloat)
| NewTransaction (values : pyval)
| FullChain
| RegisterNodes (values : pyval)
| Resolve (order : list netloc).

(** [Some] when the handler returned a response or raised. *)
Definition handle (req : request) (s : blockchain) : blockchain * option (res response) :=
  match req with
  | Mine fuel now =>
      match mine fuel now s with
      | (_, Ok None) => (s, None)
      | (s', Ok (Some r)) => (s', Some (Ok r))
      | (s', Err e) => (s', Some (Err e))
      end
  | NewTransaction v => let '(s', r) := handle_new_transaction v s in (s', Some r)
  | FullChain => let '(s', r) := handle_full_chain s in (s', Some r)
  | RegisterNodes v => let '(s', r) := handle_register_nodes v s in (s', Some r)
  | Resolve order => let '(s', r) := handle_consensus order s in (s', Some r)
  end.

(** A request the node serves; [/nodes/resolve] walks [self.nodes] in
    some order. *)
Definition admissible (req : request) (s : blockchain) : Prop :=
  match req with
  | Resolve order => Permutation order (elements (nodes s))
  | _ => True
  end.

(** A step serves one request among the [allowed] ones. *)
Inductive step (allowed : request -> Prop) : blockchain -> blockchain -> Prop :=
| step_serve req s s' r :
    allowed req -> admissible req s -> handle req s = (s', Some r) -> step allowed s s'.

(** The states a node started at time [now0] can reach. *)
Inductive reachable (allowed : request -> Prop) (now0 : pyfloat) : blockchain -> Prop :=
| reach_init : reachable allowed now0 (init now0)
| reach_step s s' : reachable allowed now0 s -> step allowed s s' -> reachable allowed now0 s'.

Definition any_request (_ : request) : Prop := True.

(** The requests of a node that never runs [/nodes/resolve]. *)
Definition solo (req : request) : Prop := match req with Resolve _ => False | _ => True end.

(** ** Which handlers touch the chain *)

(** Run the plumbing and split on every [match] left in the goal. *)
Ltac handler_cases :=
  repeat (chainrun; try case_match); simplify_eq; simpl in *; auto.

Lemma new_transaction_chain (a b c : pyval) (s : blockchain) :
  chain (fst (new_transaction a b c s)) = chain s.
Proof. unfold new_transaction, last_block. handler_cases. Qed.

Lemma register_node_chain (a : pyval) (s : blockchain) :
  chain (fst (register_node a s)) = chain s.
Proof. unfold register_node. handler_cases. Qed.

Lemma register_all_chain (l : list pyval) (s : blockchain) :
  chain (fst (register_all l s)) = chain s.
Proof.
  revert s. induction l as [|a l IH]; intros s; simpl; [reflexivity|].
  unfold pbind. destruct (register_node a s) as [s1 [u|e]] eqn:E;
    rewrite <- (register_node_chain a s), E; simpl; auto.
Qed.

Lemma handle_new_transaction_chain v s :
  chain (fst (handle_new_transaction v s)) = chain s.
Proof.
  unfold handle_new_transaction. chainrun.
  destruct (all_in v _) as [[|]|e]; simpl; [|reflexivity..].
  destruct (getitem_str v "sender"); simpl; [|reflexivity].
  destruct (getitem_str v "recipient"); simpl; [|reflexivity].
  destruct (getitem_str v "amount"); simpl; [|reflexivity].
  rewrite <- (new_transaction_chain a a0 a1 s).
  destruct (new_transaction a a0 a1 s) as [s1 [x|e]]; reflexivity.
Qed.

Lemma handle_register_nodes_chain v s :
  chain (fst (handle_register_nodes v s)) = chain s.
Proof.
  unfold handle_register_nodes. chainrun.
  destruct (dict_get v "nodes") as [ns|e]; simpl; [|reflexivity].
  destruct ns; cbn -[register_all nodes_json]; try reflexivity;
  match goal with
  | |- context [register_all ?l ?s0] =>
      rewrite <- (register_all_chain l s0);
      destruct (register_all l s0) as [s1 [u|e]]; cbn -[nodes_json]; try reflexivity;
      destruct (nodes_json (nodes s1)); reflexivity
  end.
Qed.

Lemma handle_full_chain_state s : fst (handle_full_chain s) = s.
Proof. unfold handle_full_chain, pbind, pget, plift, pret. destruct (py_len (chain s)); reflexivity. Qed.

Lemma handle_consensus_state order s :
  fst (handle_consensus order s) = fst (resolve_conflicts fetch order s).
Proof.
  unfold handle_consensus. unfold pbind at 1.
  destruct (resolve_conflicts fetch order s) as [s1 [b|e]]; reflexivity.
Qed.

(** ** [/mine] extends the chain by one linked block or leaves it *)

Lemma last_block_eq (s : blockchain) : last_block s = (s, getitem_int (chain s) (-1)).
Proof. reflexivity. Qed.

(** A last block that has a ["proof"] is the last element of a list. *)
Lemma last_with_proof (v lb x : pyval) :
  getitem_int v (-1) = Ok lb -> getitem_str lb "proof" = Ok x ->
  exists l, v = PList l /\ l <> [] /\ lb = List.last l PNone.
Proof.
  intros H1 H2. destruct v as [| | | |str|l|d]; try discriminate.
  - unfold getitem_int in H1. destruct (norm_index _ _); [|discriminate].
    destruct (String.get _ _); simpl in H1; [|discriminate].
    injection H1 as <-. discriminate.
  - destruct l as [|x0 l']; [discriminate|]. exists (x0 :: l'). split; [reflexivity|].
    split; [discriminate|]. rewrite getitem_last in H1 by discriminate. congruence.
Qed.

Lemma mine_cases fuel now s s' r :
  mine fuel now s = (s', r) ->
  chain s' = chain s \/
  exists l b lp p, chain s = PList l /\ l <> [] /\ chain s' = PList (l ++ [b]) /\
    getitem_str b "previous_hash" = Ok (PStr (hash (List.last l PNone))) /\
    getitem_str (List.last l PNone) "proof" = Ok lp /\
    getitem_str b "proof" = Ok p /\ valid_proof lp p = true /\
    getitem_str b "index" = Ok (PInt (Z.of_nat (List.length l) + 1)).
Proof.
  intros H. unfold mine in H. unfold pbind at 1 in H. rewrite last_block_eq in H.
  destruct (getitem_int (chain s) (-1)) as [lb|e] eqn:Hlb;
    [|injection H as <- _; left; reflexivity].
  unfold pbind at 1, plift in H.
  destruct (getitem_str lb "proof") as [lp|e] eqn:Hlp; [|injection H as <- _; left; reflexivity].
  destruct (proof_of_work fuel lp) as [p|] eqn:Hpow;
    [|unfold pret in H; injection H as <- _; left; reflexivity].
  destruct (last_with_proof _ _ _ Hlb Hlp) as [l [Hc [Hne ->]]].
  unfold pbind at 1 in H.
  pose proof (new_transaction_chain (PStr "0") (PStr node_identifier) (PInt 1) s) as Hnc.
  destruct (new_transaction (PStr "0") (PStr node_identifier) (PInt 1) s) as [s1 [x|e]];
    simpl in Hnc; [|injection H as <- _; left; exact Hnc].
  unfold pbind at 1 in H. rewrite (new_block_eq s1 l) in H by congruence.
  cbn in H. injection H as <- _. right.
  destruct (pow_loop_sound _ _ _ _ Hpow) as [Hv _].
  do 4 eexists. repeat split; try eassumption; reflexivity.
Qed.

(** C5: [/mine] leaves the chain as it was (the search has not finished,
    or something raised) or appends exactly one block, which names the
    hash of the previous last block and carries a proof valid against
    that block's proof and the next index. *)
Lemma mine_chain fuel now s s' r :
  mine fuel now s = (s', r) ->
  chain s' = chain s \/
  exists l b lp p, chain s = PList l /\ l <> [] /\ chain s' = PList (l ++ [b]) /\
    getitem_str b "previous_hash" = Ok (PStr (hash (List.last l PNone))) /\
    getitem_str (List.last l PNone) "proof" = Ok lp /\
    getitem_str b "proof" = Ok p /\ valid_proof lp p = true /\
    getitem_str b "index" = Ok (PInt (Z.of_nat (List.length l) + 1)).
Proof. apply mine_cases. Qed.

(** ** The chain of every reachable state passes [valid_chain] *)

Lemma step_chain_valid allowed s s' :
  step allowed s s' -> valid_chain (chain s) = Ok true -> valid_chain (chain s') = Ok true.
Proof.
  intros Hstep. destruct Hstep as [req s0 s1 r _ _ Hh].
  intros Hv. destruct req as [fuel now|v| |v|order]; simpl in Hh.
  - destruct (mine fuel now s0) as [s2 r2] eqn:Hm.
    assert (s1 = s2) as -> by (destruct r2 as [[resp|]|e]; congruence).
    destruct (mine_cases _ _ _ _ _ Hm)
      as [E|[l [b [lp [p [Hc [Hne [Hc' [H1 [H2 [H3 [H4 _]]]]]]]]]]]]; [rewrite E; exact Hv|].
    rewrite Hc'. rewrite Hc in Hv. destruct l as [|b0 l]; [congruence|].
    eapply valid_chain_snoc; eauto.
  - pose proof (handle_new_transaction_chain v s0) as E.
    destruct (handle_new_transaction v s0) as [s2 r2]. injection Hh as <- _.
    simpl in E. rewrite E. exact Hv.
  - pose proof (handle_full_chain_state s0) as E.
    destruct (handle_full_chain s0) as [s2 r2]. injection Hh as <- _. simpl in E. subst. exact Hv.
  - pose proof (handle_register_nodes_chain v s0) as E.
    destruct (handle_register_nodes v s0) as [s2 r2]. injection Hh as <- _.
    simpl in E. rewrite E. exact Hv.
  - pose proof (handle_consensus_state order s0) as E.
    destruct (handle_consensus order s0) as [s2 r2]. injection Hh as <- _. simpl in E.
    destruct (resolve_conflicts fetch order s0) as [s3 r3] eqn:Hr. simpl in E. subst s3.
    destruct (res_eq_dec_true r3) as [->|Hne].
    + apply (resolve_true_adopted fetch order s0 s2 Hr).
    + rewrite (resolve_not_true_same _ _ _ _ _ Hr Hne). exact Hv.
Qed.

(** C1: safety.  In every state a node can reach, whatever its peers
    send and whatever requests it serves, its chain passes [valid_chain]. *)
Theorem reachable_chain_valid (now0 : pyfloat) (s : blockchain) :
  reachable any_request now0 s -> valid_chain (chain s) = Ok true.
Proof.
  induction 1 as [|s s' _ IH Hstep].
  - rewrite init_eq. reflexivity.
  - exact (step_chain_valid _ _ _ Hstep IH).
Qed.

(** ** A node that never adopts a peer's chain numbers its blocks by position *)

Definition indexed (l : list pyval) : Prop :=
  forall i b, nth_error l i = Some b -> getitem_str b "index" = Ok (PInt (Z.of_nat i + 1)).

Definition solo_inv (s : blockchain) : Prop :=
  exists l, chain s = PList l /\ l <> [] /\ indexed l.

Lemma indexed_snoc l b :
  indexed l -> getitem_str b "index" = Ok (PInt (Z.of_nat (List.length l) + 1)) ->
  indexed (l ++ [b]).
Proof.
  intros Hl Hb i x Hx. destruct (Nat.lt_ge_cases i (List.length l)) as [Hi|Hi].
  - rewrite nth_error_app1 in Hx by exact Hi. apply Hl, Hx.
  - rewrite nth_error_app2 in Hx by exact Hi.
    destruct (i - List.length l)%nat as [|k] eqn:Ek; simpl in Hx.
    + injection Hx as <-. rewrite Hb. do 3 f_equal. lia.
    + destruct k; discriminate.
Qed.

Lemma indexed_last l :
  indexed l -> l <> [] ->
  getitem_str (List.last l PNone) "index" = Ok (PInt (Z.of_nat (List.length l))).
Proof.
  intros Hl Hne. destruct (exists_last Hne) as [l' [x ->]].
  rewrite last_app_single, length_app. simpl.
  rewrite (Hl (List.length l') x) by apply nth_error_app_single. do 3 f_equal. lia.
Qed.

Lemma solo_step_inv s s' : step solo s s' -> solo_inv s -> solo_inv s'.
Proof.
  intros Hstep [l [Hc [Hne Hl]]]. destruct Hstep as [req s0 s1 r Hsolo _ Hh].
  destruct req as [fuel now|v| |v|order]; simpl in Hh; [| | | |destruct Hsolo].
  - destruct (mine fuel now s0) as [s2 r2] eqn:Hm.
    assert (s1 = s2) as -> by (destruct r2 as [[resp|]|e]; congruence).
    destruct (mine_cases _ _ _ _ _ Hm)
      as [E|[l' [b [lp [p [Hc' [Hne' [Hc'' [_ [_ [_ [_ Hi]]]]]]]]]]]].
    + exists l. rewrite E. auto.
    + rewrite Hc in Hc'. injection Hc' as <-. exists (l ++ [b]).
      split; [exact Hc''|split; [destruct l; discriminate|apply indexed_snoc; auto]].
  - pose proof (handle_new_transaction_chain v s0) as E.
    destruct (handle_new_transaction v s0) as [s2 r2]. injection Hh as <- _.
    simpl in E. exists l. rewrite E. auto.
  - pose proof (handle_full_chain_state s0) as E.
    destruct (handle_full_chain s0) as [s2 r2]. injection Hh as <- _. simpl in E. subst.
    exists l. auto.
  - pose proof (handle_register_nodes_chain v s0) as E.
    destruct (handle_register_nodes v s0) as [s2 r2]. injection Hh as <- _.
    simpl in E. exists l. rewrite E. auto.
Qed.

Lemma solo_reachable_inv now0 s : reachable solo now0 s -> solo_inv s.
Proof.
  induction 1 as [|s s' _ IH Hstep]; [|exact (solo_step_inv _ _ Hstep IH)].
  exists [genesis now0]. rewrite init_eq. split; [reflexivity|split; [discriminate|]].
  intros [|[|i]] b Hb; try discriminate. injection Hb as <-. reflexivity.
Qed.

(** C14: on a node that never ran [/nodes/resolve], [/transactions/new]
    announces block [len(chain) + 1], the index the next mined block gets. *)
Theorem solo_transaction_index (now0 : pyfloat) (s s' : blockchain) (l : list pyval)
    (v body : pyval) :
  reachable solo now0 s -> chain s = PList l ->
  handle_new_transaction v s = (s', Ok (201, body)) ->
  body = PDict [("message", PStr ("Transaction will be added to Block " ++
                                   string_of_Z (Z.of_nat (List.length l) + 1)))].
Proof.
  intros Hr Hc Hh. destruct (solo_reachable_inv _ _ Hr) as [l' [Hc' [Hne Hl]]].
  rewrite Hc in Hc'. injection Hc' as <-.
  unfold handle_new_transaction, pbind at 1, plift in Hh.
  destruct (all_in v _) as [[|]|e]; simpl in Hh; try discriminate.
  destruct (getitem_str v "sender") as [a|e]; simpl in Hh; [|discriminate].
  destruct (getitem_str v "recipient") as [b|e]; simpl in Hh; [|discriminate].
  destruct (getitem_str v "amount") as [c|e]; simpl in Hh; [|discriminate].
  unfold pbind in Hh.
  rewrite (new_transaction_eq s l (Z.of_nat (List.length l)) a b c Hc Hne
             (indexed_last l Hl Hne)) in Hh.
  unfold pret in Hh. injection Hh as _ <-. reflexivity.
Qed.

Lemma mine_run (fuel : nat) (now : pyfloat) (s : blockchain) (l : list pyval)
    (lp : pyval) (i p : Z) :
  chain s = PList l -> l <> [] ->
  getitem_str (List.last l PNone) "proof" = Ok lp ->
  getitem_str (List.last l PNone) "index" = Ok (PInt i) ->
  proof_of_work fuel lp = Some p ->
  let txs := current_transactions s ++ [tx (PStr "0") (PStr node_identifier) (PInt 1)] in
  let b := make_block (Z.of_nat (List.length l) + 1) now txs (PInt p)
                      (hash (List.last l PNone)) in
  mine fuel now s =
    (Blockchain (PList (l ++ [b])) [] (nodes s),
     Ok (Some (200, PDict [("message", PStr "New Block Forged");
                           ("index", PInt (Z.of_nat (List.length l) + 1));
                           ("transactions", PList txs); ("proof", PInt p);
                           ("previous_hash", PStr (hash (List.last l PNone)))]))).
Proof.
  intros Hc Hne Hlp Hi Hpow txs b.
  unfold mine. unfold pbind at 1. rewrite last_block_eq, Hc, getitem_last by exact Hne.
  unfold pbind at 1, plift. rewrite Hlp, Hpow. unfold pbind at 1.
  rewrite (new_transaction_eq s l i _ _ _ Hc Hne Hi).
  unfold pbind at 1. rewrite (new_block_eq _ l) by assumption. reflexivity.
Qed.

(** C17: the whole of [/mine] when the last block has a proof and an index
    and the search finishes: the reward transaction is appended after the
    pending ones, the block gets index [len(chain) + 1], the proof found
    and the hash of the last block, the buffer is emptied, and the
    response repeats the block's fields.  (The spec's scenario puts the
    reward first.) *)
Theorem mine_seals (fuel : nat) (now : pyfloat) (s : blockchain) (l : list pyval)
    (lp : pyval) (i p : Z) :
  chain s = PList l -> l <> [] ->
  getitem_str (List.last l PNone) "proof" = Ok lp ->
  getitem_str (List.last l PNone) "index" = Ok (PInt i) ->
  proof_of_work fuel lp = Some p ->
  let txs := current_transactions s ++ [tx (PStr "0") (PStr node_identifier) (PInt 1)] in
  let b := make_block (Z.of_nat (List.length l) + 1) now txs (PInt p)
                      (hash (List.last l PNone)) in
  mine fuel now s =
    (Blockchain (PList (l ++ [b])) [] (nodes s),
     Ok (Some (200, PDict [("message", PStr "New Block Forged");
                           ("index", PInt (Z.of_nat (List.length l) + 1));
                           ("transactions", PList txs); ("proof", PInt p);
                           ("previous_hash", PStr (hash (List.last l PNone)))]))).
Proof. apply mine_run. Qed.

(** ** A registered [b''] breaks [/nodes/register] for good *)

Lemma register_all_nodes_mono l s x : x ∈ nodes s -> x ∈ nodes (fst (register_all l s)).
Proof.
  revert s. induction l as [|a l IH]; intros s Hx; [exact Hx|]. simpl.
  unfold pbind, register_node. chainrun.
  destruct (urlparse_netloc a) as [n|e]; simpl; [|exact Hx].
  apply IH. simpl. set_solver.
Qed.

(** [list(nodes)] cannot be encoded once it holds bytes. *)
Lemma nodes_json_bytes ns x : NetBytes x ∈ ns -> nodes_json ns = Err TypeError.
Proof.
  intros Hx. apply elem_of_elements in Hx. unfold nodes_json.
  induction (elements ns) as [|[y|y] l IH]; simpl.
  - inversion Hx.
  - apply elem_of_cons in Hx as [Hx|Hx]; [discriminate|]. specialize (IH Hx).
    match goal with |- context [res_map (cons _) ?t] => destruct t end; simpl in *; congruence.
  - reflexivity.
Qed.

(** C37: once [b''] is among the peers (registering a falsy value that is
    not a str, such as [null], adds it, since [urlparse] decodes it as
    bytes), every later [/nodes/register] either answers 400 (no
    [nodes] key) or raises: [jsonify(list(blockchain.nodes))] cannot
    encode bytes.  The registrations of the failed request are kept, and
    [b''] stays. *)
Theorem register_after_bytes (v : pyval) (s s' : blockchain) (r : res response) :
  NetBytes EmptyString ∈ nodes s -> handle_register_nodes v s = (s', r) ->
  NetBytes EmptyString ∈ nodes s' /\ (forall status body, r = Ok (status, body) -> status = 400).
Proof.
  intros Hin Hh. unfold handle_register_nodes in Hh. chainrun.
  destruct (dict_get v "nodes") as [ns|e]; simpl in Hh; [|injection Hh as <- <-; split; [exact Hin|discriminate]].
  destruct ns; cbn -[register_all nodes_json] in Hh;
    try (injection Hh as <- <-; split; [exact Hin|intros ? ? H; injection H as <- _; reflexivity]);
    try (injection Hh as <- <-; split; [exact Hin|discriminate]);
  match type of Hh with
  | context [register_all ?l ?s0] =>
      pose proof (register_all_nodes_mono l s0 _ Hin) as Hin';
      destruct (register_all l s0) as [s1 [u|e]]; cbn -[nodes_json] in *;
      [rewrite (nodes_json_bytes _ _ Hin') in Hh|]; injection Hh as <- <-;
      (split; [exact Hin'|discriminate])
  end.
Qed.

End Node.

(** ** Witnesses *)

Definition nid : string := "node-1".

(** A peer at [a:5000] that sends the chain [pg; pb]. *)
Definition fetch_pgpb (_ : string) : reply := Response 200 (Some (reply_body 5 [pg; pb])).

Lemma step_of_handle node_identifier fetch allowed req s :
  allowed req -> admissible req s ->
  match snd (handle node_identifier fetch req s) with Some _ => true | None => false end = true ->
  step node_identifier fetch allowed s (fst (handle node_identifier fetch req s)).
Proof.
  intros Ha Had H. destruct (handle node_identifier fetch req s) as [s' [r|]] eqn:E; [|discriminate].
  apply (step_serve _ _ _ req s s' r Ha Had E).
Qed.

Definition register_a : request :=
  RegisterNodes (PDict [("nodes", PList [PStr "http://a:5000"])]).

(** Register the peer, adopt its chain, mine on top of it. *)
Definition demo1 : blockchain := fst (handle nid fetch_pgpb register_a node0).
Definition demo2 : blockchain := fst (handle nid fetch_pgpb (Resolve [NetStr "a:5000"]) demo1).
Definition demo3 : blockchain := fst (handle nid fetch_pgpb (Mine 27 ts2) demo2).

Lemma demo3_reachable : reachable nid fetch_pgpb any_request ts0 demo3.
Proof.
  apply reach_step with demo2; [apply reach_step with demo1|];
    [apply reach_step with node0; [apply reach_init|]| |];
    apply step_of_handle; try exact I; try (vm_compute; reflexivity).
Qed.

Lemma reachable_chain_valid_witness : valid_chain (chain demo3) = Ok true.
Proof. apply (reachable_chain_valid nid fetch_pgpb ts0). exact demo3_reachable. Defined.

Lemma mine_seals_witness :
  mine nid 27 ts2 (set_chain node0 (PList [pg; pb])) =
    (Blockchain (PList ([pg; pb] ++ [make_block 3 ts2 [tx (PStr "0") (PStr nid) (PInt 1)]
                                     (PInt 26) (hash pb)])) [] ∅,
     Ok (Some (200, PDict [("message", PStr "New Block Forged"); ("index", PInt 3);
                           ("transactions", PList [tx (PStr "0") (PStr nid) (PInt 1)]);
                           ("proof", PInt 26); ("previous_hash", PStr (hash pb))]))).
Proof.
  apply (mine_seals nid 27 ts2 (set_chain node0 (PList [pg; pb])) [pg; pb] (PInt 2699) 2 26);
    first [reflexivity|discriminate|vm_compute; reflexivity].
Defined.

Lemma mine_chain_witness :
  chain (fst (mine nid 27 ts2 demo2)) = chain demo2 \/
  exists l b lp p, chain demo2 = PList l /\ l <> [] /\
    chain (fst (mine nid 27 ts2 demo2)) = PList (l ++ [b]) /\
    getitem_str b "previous_hash" = Ok (PStr (hash (List.last l PNone))) /\
    getitem_str (List.last l PNone) "proof" = Ok lp /\
    getitem_str b "proof" = Ok p /\ valid_proof lp p = true /\
    getitem_str b "index" = Ok (PInt (Z.of_nat (List.length l) + 1)).
Proof.
  apply (mine_chain nid 27 ts2 demo2 _ (snd (mine nid 27 ts2 demo2))).
  apply surjective_pairing.
Defined.

(** The spec's scenario: [(A, B, 10)] submitted to a fresh node is
    announced for block 2. *)
Lemma solo_transaction_index_witness :
  PDict [("message", PStr "Transaction will be added to Block 2")] =
  PDict [("message", PStr ("Transaction will be added to Block " ++
                           string_of_Z (Z.of_nat (List.length [g0]) + 1)))].
Proof.
  apply (solo_transaction_index nid fetch_pgpb ts0 node0
           (fst (handle_new_transaction (PDict [("sender", PStr "A"); ("recipient", PStr "B");
                                                ("amount", PInt 10)]) node0))
           [g0] (PDict [("sender", PStr "A"); ("recipient", PStr "B"); ("amount", PInt 10)]));
    [apply reach_init|reflexivity|vm_compute; reflexivity].
Defined.


(** [{"nodes": [null]}] registers [b''] (and answers 500); a later
    registration of [http://a:5000] registers it and raises again. *)
Definition register_null : request := RegisterNodes (PDict [("nodes", PList [PNone])]).
Definition poisoned : blockchain := fst (handle nid fetch_pgpb register_null node0).
Definition register_a_body : pyval := PDict [("nodes", PList [PStr "http://a:5000"])].

Lemma register_after_bytes_witness :
  NetBytes EmptyString ∈ nodes (fst (handle_register_nodes register_a_body poisoned)) /\
  (forall status body,
     snd (handle_register_nodes register_a_body poisoned) = Ok (status, body) -> status = 400).
Proof.
  apply (register_after_bytes nid fetch_pgpb register_a_body poisoned); [|apply surjective_pairing].
  apply (bool_decide_unpack _). vm_compute. reflexivity.
Defined.

End Node.
