(* ===== verification/Shape.v ===== *)
(** * The shape of the data a node keeps, and mining progress

    The spec describes a block as a dict with the keys [index] (int),
    [timestamp] (float), [transactions] (a list of transactions), [proof]
    (int) and [previous_hash] (str), and a transaction as a dict with the
    keys [sender], [recipient] and [amount].  [block_shape] and [tx_shape]
    check this schema by lookups, whatever the order of the items, so that
    the same predicate reads a block as [new_block] builds it and as
    [json.loads] returns it with its keys sorted.

    The theorems: every state a node reaches without [/nodes/resolve] has a
    non-empty chain of blocks of that shape and a buffer of transactions
    (the type invariant, by rule induction on [Node.reachable]); and from
    such a state [/mine] makes progress: whenever some proof is valid
    against the last one, a [/mine] request with enough fuel is a step
    that appends a block. *)

From Stdlib Require Import ZArith List String Ascii Lia Bool.
From stdpp Require Import base gmap strings.
From S2P Require Import Prelude Sha256 PyFloat PyValue Json Hasher ProofOfWork Url Chain Samples Validator Consensus Node.
Import ListNotations PyFloat PyValue Json Hasher ProofOfWork Chain Samples Validator Consensus Node.
Open Scope Z_scope.

Module Shape.

Definition has_key (d : list (string * pyval)) (k : string) : bool :=
  match dict_lookup d k with Some _ => true | None => false end.

(** A transaction: a dict with exactly the keys [sender], [recipient]
    and [amount]. *)
Definition tx_shape (t : pyval) : bool :=
  match t with
  | PDict d =>
      nodup_keys (map fst d) && (List.length d =? 3)%nat &&
      forallb (has_key d) ["sender"; "recipient"; "amount"]
  | _ => false
  end.

(** A block: a dict with exactly the five keys of the spec, with values of
    the spec's types. *)
Definition block_shape (b : pyval) : bool :=
  match b with
  | PDict d =>
      nodup_keys (map fst d) && (List.length d =? 5)%nat &&
      match dict_lookup d "index", dict_lookup d "timestamp", dict_lookup d "transactions",
            dict_lookup d "proof", dict_lookup d "previous_hash" with
      | Some (PInt _), Some (PFloat _), Some (PList txs), Some (PInt _), Some (PStr _) =>
          forallb tx_shape txs
      | _, _, _, _, _ => false
      end
  | _ => false
  end.

(** A chain: a non-empty list of blocks. *)
Definition chain_shape (c : pyval) : bool :=
  match c with
  | PList ((_ :: _) as l) => forallb block_shape l
  | _ => false
  end.

(** The object: a chain and a buffer of transactions. *)
Definition typed (s : blockchain) : bool :=
  chain_shape (chain s) && forallb tx_shape (current_transactions s).

(** ** What [new_block] and [new_transaction] build has the shape *)

Lemma tx_shape_tx a b c : tx_shape (tx a b c) = true.
Proof. reflexivity. Qed.

Lemma block_shape_make_block i now txs p h :
  block_shape (make_block i now txs (PInt p) h) = forallb tx_shape txs.
Proof. reflexivity. Qed.

Lemma block_shape_index b : block_shape b = true -> exists i, getitem_str b "index" = Ok (PInt i).
Proof.
  destruct b as [| | | | | |d]; try discriminate. simpl.
  destruct (dict_lookup d "index") as [[]|]; try (rewrite ?andb_false_r; discriminate).
  eauto.
Qed.

Lemma typed_intro s l :
  chain s = PList l -> l <> [] -> forallb block_shape l = true ->
  forallb tx_shape (current_transactions s) = true -> typed s = true.
Proof.
  intros Hc Hne Hb Ht. unfold typed, chain_shape. rewrite Hc, Ht. destruct l; [congruence|].
  rewrite andb_true_r. exact Hb.
Qed.

Lemma typed_elim s :
  typed s = true -> exists l, chain s = PList l /\ l <> [] /\
    forallb block_shape l = true /\ forallb tx_shape (current_transactions s) = true.
Proof.
  unfold typed, chain_shape. destruct (chain s) as [| | | | |[|b l]|]; try discriminate.
  intros [Hb Ht]%andb_prop. exists (b :: l). repeat split; auto; discriminate.
Qed.

Lemma forallb_snoc {A} (f : A -> bool) l x :
  forallb f (l ++ [x]) = forallb f l && f x.
Proof. rewrite forallb_app. simpl. rewrite andb_true_r. reflexivity. Qed.

Create Rewrite HintDb shape.
#[local] Hint Rewrite @forallb_snoc tx_shape_tx block_shape_make_block andb_true_r : shape.

Lemma new_transaction_state a b c s :
  fst (new_transaction a b c s) = set_transactions s (current_transactions s ++ [tx a b c]).
Proof.
  unfold new_transaction, last_block. chainrun. repeat case_match; reflexivity.
Qed.

Lemma forallb_last {A} (f : A -> bool) l d :
  forallb f l = true -> l <> [] -> f (List.last l d) = true.
Proof.
  intros Hl Hne. destruct (exists_last Hne) as [l' [x ->]].
  rewrite last_app_single. rewrite forallb_snoc in Hl. apply andb_prop in Hl as [_ Hx]. exact Hx.
Qed.

Section Typing.

Variable node_identifier : string.
Variable fetch : string -> reply.

(** [/mine] keeps the shape: the reward it appends is a transaction and
    the block it appends has the five fields; an exception after the
    reward was appended leaves a buffer of transactions. *)
Lemma mine_typed fuel now s : typed s = true -> typed (fst (mine node_identifier fuel now s)) = true.
Proof.
  intros Ht. destruct (typed_elim s Ht) as [l [Hc [Hne [Hb Htx]]]].
  destruct (getitem_str (List.last l PNone) "proof") as [lp|e] eqn:Hlp;
    [|unfold mine, pbind at 1; rewrite last_block_eq, Hc, getitem_last, Hlp by exact Hne;
      exact Ht].
  destruct (proof_of_work fuel lp) as [p|] eqn:Hpow;
    [|unfold mine, pbind at 1; rewrite last_block_eq, Hc, getitem_last by exact Hne;
      unfold pbind at 1, plift; rewrite Hlp, Hpow; exact Ht].
  destruct (block_shape_index _ (forallb_last _ _ PNone Hb Hne)) as [i Hi].
  rewrite (mine_run node_identifier fuel now s l lp i p Hc Hne Hlp Hi Hpow).
  eapply typed_intro; [reflexivity| |simpl; autorewrite with shape; rewrite ?Hb, ?Htx..]; auto.
  intros H. apply app_eq_nil in H as [_ H]. discriminate.
Qed.

Lemma typed_add_tx s a b c :
  typed s = true -> typed (set_transactions s (current_transactions s ++ [tx a b c])) = true.
Proof.
  intros Ht. destruct (typed_elim s Ht) as [l [Hc [Hne [Hb Htx]]]].
  apply (typed_intro _ l); auto. simpl. autorewrite with shape. exact Htx.
Qed.

Lemma handle_new_transaction_typed v s :
  typed s = true -> typed (fst (handle_new_transaction v s)) = true.
Proof.
  intros Ht. unfold handle_new_transaction. chainrun.
  destruct (all_in v _) as [[|]|e]; simpl; try exact Ht.
  destruct (getitem_str v "sender") as [a|e]; simpl; [|exact Ht].
  destruct (getitem_str v "recipient") as [b|e]; simpl; [|exact Ht].
  destruct (getitem_str v "amount") as [c|e]; simpl; [|exact Ht].
  pose proof (new_transaction_state a b c s) as E.
  destruct (new_transaction a b c s) as [s1 [x|e]]; simpl in *; subst; apply typed_add_tx, Ht.
Qed.

(** Registering peers touches [self.nodes] only. *)
Definition same_data (s s' : blockchain) : Prop :=
  chain s' = chain s /\ current_transactions s' = current_transactions s.

Lemma typed_same_data s s' : same_data s s' -> typed s' = typed s.
Proof. intros [Hc Ht]. unfold typed. rewrite Hc, Ht. reflexivity. Qed.

Lemma register_all_same_data l s : same_data s (fst (register_all l s)).
Proof.
  revert s. induction l as [|a l IH]; intros s; [split; reflexivity|]. simpl.
  unfold pbind, register_node. chainrun.
  destruct (urlparse_netloc a) as [n|e]; simpl; [|split; reflexivity].
  destruct (IH (Blockchain (chain s) (current_transactions s) ({[n]} ∪ nodes s))) as [H1 H2].
  split; [rewrite H1|rewrite H2]; reflexivity.
Qed.

Lemma handle_register_nodes_same_data v s :
  same_data s (fst (handle_register_nodes v s)).
Proof.
  unfold handle_register_nodes. chainrun.
  destruct (dict_get v "nodes") as [ns|e]; simpl; [|split; reflexivity].
  destruct ns; cbn -[register_all nodes_json]; try (split; reflexivity);
  match goal with
  | |- context [register_all ?l ?s0] =>
      pose proof (register_all_same_data l s0) as Hs;
      destruct (register_all l s0) as [s1 [u|e]]; cbn -[nodes_json] in *; try exact Hs;
      destruct (nodes_json (nodes s1)); exact Hs
  end.
Qed.

(** The handlers other than [/nodes/resolve] keep the shape whatever the
    peers send; a class of requests keeps it when its resolutions do. *)
Section Steps.

Variable allowed : request -> Prop.
Hypothesis resolve_typed : forall order s,
  allowed (Resolve order) -> typed s = true ->
  typed (fst (resolve_conflicts fetch order s)) = true.

Lemma step_typed s s' :
  step node_identifier fetch allowed s s' -> typed s = true -> typed s' = true.
Proof.
  intros [req s0 s1 r Hallow _ Hh] Ht.
  destruct req as [fuel now|v| |v|order]; simpl in Hh.
  - pose proof (mine_typed fuel now s0 Ht) as Hm.
    destruct (mine node_identifier fuel now s0) as [s2 [[resp|]|e]];
      [injection Hh as <- _; exact Hm|discriminate|injection Hh as <- _; exact Hm].
  - pose proof (handle_new_transaction_typed v s0 Ht) as H.
    destruct (handle_new_transaction v s0). injection Hh as <- _. exact H.
  - pose proof (handle_full_chain_state s0) as H.
    destruct (handle_full_chain s0). injection Hh as <- _. simpl in H. subst. exact Ht.
  - pose proof (handle_register_nodes_same_data v s0) as H.
    destruct (handle_register_nodes v s0). injection Hh as <- _.
    simpl in H. rewrite (typed_same_data _ _ H). exact Ht.
  - pose proof (handle_consensus_state fetch order s0) as H.
    destruct (handle_consensus fetch order s0). injection Hh as <- _. simpl in H.
    rewrite H. exact (resolve_typed order s0 Hallow Ht).
Qed.

Lemma reachable_typed now0 s :
  reachable node_identifier fetch allowed now0 s -> typed s = true.
Proof.
  induction 1 as [|s s' _ IH Hstep]; [reflexivity|exact (step_typed _ _ Hstep IH)].
Qed.

End Steps.

Lemma solo_typed_reachable now0 s : reachable node_identifier fetch solo now0 s -> typed s = true.
Proof. apply reachable_typed. intros order s0 []. Qed.

End Typing.

Section Claims.

Variable node_identifier : string.
Variable fetch : string -> reply.

(** C33: the type invariant of a node that never runs [/nodes/resolve]:
    its chain is a non-empty list of blocks, each a dict with exactly the
    keys [index] (int), [timestamp] (float), [transactions] (a list of
    dicts with exactly the keys [sender], [recipient], [amount]), [proof]
    (int) and [previous_hash] (str), every block at the position its
    [index] names; the buffer holds transactions of that shape. *)
Theorem solo_reachable_shape (now0 : pyfloat) (s : blockchain) :
  reachable node_identifier fetch solo now0 s -> typed s = true /\ solo_inv s.
Proof.
  intros Hr. split; [exact (solo_typed_reachable _ _ _ _ Hr)|exact (solo_reachable_inv _ _ _ _ Hr)].
Qed.

(** C34: mining makes progress: in every state a node reaches without
    [/nodes/resolve], if some proof [q >= 0] is valid against the last
    block's proof, a [/mine] request with fuel [q + 1] is a step of the
    node that appends one block of the spec's shape, and the node keeps
    its shape. *)
Theorem solo_mine_progress (now0 : pyfloat) (s : blockchain) (l : list pyval) (lp : pyval)
    (q : Z) (now : pyfloat) :
  reachable node_identifier fetch solo now0 s -> chain s = PList l ->
  getitem_str (List.last l PNone) "proof" = Ok lp -> 0 <= q -> valid_proof lp (PInt q) = true ->
  exists s' b, step node_identifier fetch solo s s' /\
    fst (handle node_identifier fetch (Mine (S (Z.to_nat q)) now) s) = s' /\
    chain s' = PList (l ++ [b]) /\ block_shape b = true /\ typed s' = true.
Proof.
  intros Hr Hc Hlp Hq Hv.
  pose proof (solo_typed_reachable _ _ _ _ Hr) as Ht.
  destruct (typed_elim s Ht) as [l' [Hc' [Hne [Hb Htx]]]]. rewrite Hc in Hc'. injection Hc' as <-.
  destruct (pow_least lp q Hq Hv) as [p [Hpow _]].
  destruct (block_shape_index _ (forallb_last _ _ PNone Hb Hne)) as [i Hi].
  pose proof (mine_typed node_identifier (S (Z.to_nat q)) now s Ht) as Hm.
  pose proof (mine_run node_identifier _ now s l lp i p Hc Hne Hlp Hi Hpow) as E. cbv zeta in E.
  rewrite E in Hm. simpl in Hm.
  eexists; eexists; split; [|split; [simpl; rewrite E; reflexivity|split; [reflexivity|split]]].
  - eapply step_serve with (req := Mine (S (Z.to_nat q)) now); [exact I|exact I|].
    simpl. rewrite E. reflexivity.
  - rewrite block_shape_make_block, forallb_app, Htx. reflexivity.
  - exact Hm.
Qed.

(** C36: the shape is what keeps [/mine] alive: when the last block has a
    [proof] but no [index] ([valid_chain] accepts such a chain from a
    peer), [/mine] finds the proof, appends the reward to the buffer, and
    raises [KeyError] in [new_transaction] before any block is made; the
    chain never grows by mining and each call leaves one more reward
    transaction pending.  Such a last block is outside the schema. *)
Theorem mine_without_index (fuel : nat) (now : pyfloat) (s : blockchain) (l : list pyval)
    (lp : pyval) (p : Z) :
  chain s = PList l -> l <> [] ->
  getitem_str (List.last l PNone) "proof" = Ok lp ->
  getitem_str (List.last l PNone) "index" = Err KeyError ->
  proof_of_work fuel lp = Some p ->
  block_shape (List.last l PNone) = false /\
  mine node_identifier fuel now s =
    (set_transactions s (current_transactions s ++ [tx (PStr "0") (PStr node_identifier) (PInt 1)]),
     Err KeyError).
Proof.
  intros Hc Hne Hlp Hi Hpow. split.
  { destruct (block_shape _) eqn:E; [|reflexivity].
    destruct (block_shape_index _ E) as [i Hi']. congruence. }
  unfold mine. unfold pbind at 1. rewrite last_block_eq, Hc, getitem_last by exact Hne.
  unfold pbind at 1, plift. rewrite Hlp, Hpow. unfold pbind at 1.
  unfold new_transaction, last_block. chainrun. rewrite Hc, getitem_last by exact Hne.
  chainrun. rewrite Hi. reflexivity.
Qed.

End Claims.

(** ** Witnesses *)

(** [node0], then one [/transactions/new]. *)
Definition posted1 : blockchain :=
  fst (handle nid fetch_pgpb
         (NewTransaction (PDict [("sender", PStr "A"); ("recipient", PStr "B"); ("amount", PInt 5)]))
         node0).

Lemma posted1_reachable : reachable nid fetch_pgpb solo ts0 posted1.
Proof.
  apply reach_step with node0; [apply reach_init|].
  apply step_of_handle; [exact I|exact I|vm_compute; reflexivity].
Qed.

Lemma solo_reachable_shape_witness : typed posted1 = true /\ solo_inv posted1.
Proof. apply (solo_reachable_shape nid fetch_pgpb ts0 posted1). exact posted1_reachable. Defined.

Lemma solo_mine_progress_witness :
  exists s' b, step nid fetch_pgpb solo node0 s' /\
    fst (handle nid fetch_pgpb (Mine (S (Z.to_nat 35293)) ts1) node0) = s' /\
    chain s' = PList ([g0] ++ [b]) /\ block_shape b = true /\ typed s' = true.
Proof.
  apply (solo_mine_progress nid fetch_pgpb ts0 node0 [g0] (PInt 100) 35293 ts1);
    [apply reach_init|reflexivity|reflexivity|lia|vm_compute; reflexivity].
Defined.

(** A peer that sends [pg] and a block with a valid proof and link but no
    [index]; the node registers it, adopts its chain, and mines. *)
Definition bad_block : pyval := PDict [("previous_hash", PStr (hash pg)); ("proof", PInt 2699)].
Definition fetch_bad (_ : string) : reply := Response 200 (Some (reply_body 5 [pg; bad_block])).
Definition bad_demo1 : blockchain := fst (handle nid fetch_bad register_a node0).
Definition bad_demo2 : blockchain := fst (handle nid fetch_bad (Resolve [peer_a]) bad_demo1).

Lemma bad_demo2_reachable : reachable nid fetch_bad any_request ts0 bad_demo2.
Proof.
  apply reach_step with bad_demo1; [apply reach_step with node0; [apply reach_init|]|];
    apply step_of_handle; try exact I; vm_compute; reflexivity.
Qed.

Lemma mine_without_index_witness :
  reachable nid fetch_bad any_request ts0 bad_demo2 /\ chain bad_demo2 = PList [pg; bad_block] /\
  block_shape bad_block = false /\
  mine nid 27 ts2 bad_demo2 =
    (set_transactions bad_demo2 (current_transactions bad_demo2 ++ [tx (PStr "0") (PStr nid) (PInt 1)]),
     Err KeyError).
Proof.
  assert (Hc : chain bad_demo2 = PList [pg; bad_block]) by (vm_compute; reflexivity).
  split; [exact bad_demo2_reachable|split; [exact Hc|]].
  apply (mine_without_index nid 27 ts2 bad_demo2 [pg; bad_block] (PInt 2699) 26 Hc);
    [discriminate|reflexivity|reflexivity|vm_compute; reflexivity].
Defined.

End Shape.
