(* ===== verification/Wire.v ===== *)
(** * Two nodes over the wire: [/chain] on one side, [response.json()] on the other

    [resolve_conflicts] (src/blockchain.py, lines 64-69) fetches
    [http://{node}/chain] from each peer.  When the peer runs this program,
    the reply is built by [full_chain] (lines 213-219) and serialised by
    Flask's [jsonify] (the default JSON provider: [sort_keys=True],
    [ensure_ascii=True], compact separators [(',', ':')], a trailing
    newline), and the receiver decodes it with [response.json()], that is
    [json.loads] ([JsonDecode]).

    [network peers] is the transport of a set of nodes running this
    program: the URL of a peer's address answers the [/chain] reply of
    that peer's state; any other URL is unreachable.  The theorems: the
    reply decodes to the peer's chain with its dicts in key order and its
    true length, so a resolution against such peers adopts a chain that is
    valid and really longer than ours (the trust in the reported length,
    [Consensus.resolve_trusts_reported_length], only matters for peers
    that do not run this program); sorting the keys keeps the shape of
    blocks, so a node among such peers keeps the schema of [Shape] through
    every request.  The spec's round trip ([is_valid] gives the same
    answer after serialising and parsing back) holds for chains whose
    proofs hold no dict, and fails for a dict proof, since [valid_proof]
    hashes [str(proof)], which follows the dict's insertion order. *)

From Stdlib Require Import ZArith List String Ascii Lia Bool Permutation.
From stdpp Require Import base gmap strings.
From S2P Require Import Prelude Sha256 PyFloat PyValue Json JsonDecode Hasher ProofOfWork Url Chain Samples Validator Consensus Node Shape.
Import ListNotations PyFloat PyValue Json JsonDecode Hasher Chain Samples Validator Consensus Node Shape.
Open Scope Z_scope.

Module Wire.

(** [jsonify(v)]: [f"{json.dumps(v, sort_keys=True, separators=(',', ':'))}\n"]. *)
Definition jsonify (v : pyval) : string :=
  (dumps_with "," ":" v ++ String "010"%char EmptyString)%string.

(** The reply of a node in state [s] to [GET /chain]: the handler's status
    and body through [jsonify], decoded by [response.json()]; a handler
    that raises is Flask's HTML error page with status 500. *)
Definition chain_reply (s : blockchain) : reply :=
  match snd (handle_full_chain s) with
  | Ok (status, body) =>
      Response status (match loads (jsonify body) with Ok j => Some j | Err _ => None end)
  | Err _ => Response 500 None
  end.

(** The transport of a set of nodes running this program. *)
Definition network (peers : list (netloc * blockchain)) (url : string) : reply :=
  match find (fun p => String.eqb (node_url (fst p)) url) peers with
  | Some (_, s) => chain_reply s
  | None => Unreachable
  end.

(** Peers whose chains [jsonify] can write and [json.loads] read back:
    distinct keys in every dict, floats that read back. *)
Definition honest (peers : list (netloc * blockchain)) : Prop :=
  forall n s, In (n, s) peers -> wfb (chain s) = true /\ floats_ok (chain s) = true.

(** ** What the receiver decodes *)

Lemma loads_jsonify_eq (v : pyval) :
  wfb v = true -> floats_ok v = true -> loads (jsonify v) = Ok (canon v).
Proof.
  intros Hw Hf. unfold jsonify. apply (loads_dumps_ws EmptyString EmptyString); auto.
Qed.

Lemma same_items_canon (v : pyval) : same_items v (canon v).
Proof.
  induction v as [| | | | |l IH|d IH]; simpl; try constructor.
  - induction IH; constructor; auto.
  - apply (si_dict d _ (map (fun '(k, x) => (k, canon x)) d)).
    + induction IH as [|kv Hp d _ IHd]; constructor; [|exact IHd].
      destruct Hp as [k _ x Hx]. split; [reflexivity|exact Hx].
    + symmetry. apply sort_items_perm.
Qed.

Lemma py_len_canon (v : pyval) : py_len (canon v) = py_len v.
Proof.
  destruct v; try reflexivity; simpl.
  - rewrite length_map. reflexivity.
  - rewrite (Permutation_length (sort_items_perm _)), length_map. reflexivity.
Qed.

Lemma chain_reply_honest (s : blockchain) (n : Z) :
  wfb (chain s) = true -> floats_ok (chain s) = true -> py_len (chain s) = Ok n ->
  chain_reply s = Response 200 (Some (PDict [("chain", canon (chain s)); ("length", PInt n)])).
Proof.
  intros Hw Hf Hn. unfold chain_reply, handle_full_chain, pbind, pget, plift, pret.
  rewrite Hn. simpl snd. cbv iota beta.
  rewrite loads_jsonify_eq; [reflexivity| |].
  - simpl. rewrite Hw. reflexivity.
  - simpl. rewrite Hf. reflexivity.
Qed.

Lemma network_reply peers url r :
  network peers url = r ->
  r = Unreachable \/ exists n s, In (n, s) peers /\ node_url n = url /\ r = chain_reply s.
Proof.
  unfold network. destruct (find _ peers) as [[n s]|] eqn:E; intros <-; [right|left; reflexivity].
  apply find_some in E as [Hin Heq]. apply String.eqb_eq in Heq. eauto.
Qed.

Lemma honest_reply_200 peers url j :
  honest peers -> network peers url = Response 200 (Some j) ->
  exists n s Lp, In (n, s) peers /\ node_url n = url /\ py_len (chain s) = Ok Lp /\
    j = PDict [("chain", canon (chain s)); ("length", PInt Lp)].
Proof.
  intros Hh Hr. destruct (network_reply _ _ _ Hr) as [E|[n [s [Hin [Hu E]]]]]; [discriminate|].
  destruct (Hh n s Hin) as [Hw Hf].
  destruct (py_len (chain s)) as [Lp|e] eqn:Hl.
  - rewrite (chain_reply_honest s Lp Hw Hf Hl) in E. injection E as ->. eauto 7.
  - unfold chain_reply, handle_full_chain, pbind, pget, plift in E. rewrite Hl in E.
    discriminate.
Qed.

Lemma honest_int_lengths peers order : honest peers -> int_lengths (network peers) order.
Proof.
  intros Hh n j _ Hr v Hv.
  destruct (honest_reply_200 _ _ _ Hh Hr) as [n' [s [Lp [_ [_ [_ ->]]]]]].
  simpl in Hv. injection Hv as <-. eauto.
Qed.

(** ** Resolution against nodes running this program *)

(** C28: composition of [full_chain], [jsonify], [response.json()] and
    [resolve_conflicts]: against peers that run this program (with chains
    [jsonify] writes and [json.loads] reads back), a resolution that
    answers [True] adopts the chain of one of them, with its dicts in key
    order, which passes [valid_chain] and whose actual length exceeds
    ours: an honest reported length is the true one. *)
Theorem resolve_honest_longer (peers : list (netloc * blockchain)) (order : list netloc)
    (s s' : blockchain) (l : list pyval) :
  chain s = PList l -> honest peers ->
  resolve_conflicts (network peers) order s = (s', Ok true) ->
  exists n n' sp Lp, In n order /\ In (n', sp) peers /\ node_url n' = node_url n /\
    chain s' = canon (chain sp) /\ py_len (chain s') = Ok Lp /\
    Z.of_nat (List.length l) < Lp /\ valid_chain (chain s') = Ok true.
Proof.
  intros Hc Hh Hr.
  pose proof (resolve_adopts_best (network peers) order s s' l true Hc
                (honest_int_lengths peers order Hh) Hr) as H. cbv zeta in H.
  destruct H as [n [L [Hin [[[j [Hj [HL Hch]]] [Hlt Hv]] _]]]].
  destruct (honest_reply_200 _ _ _ Hh Hj) as [n' [sp [Lp [Hin' [Hu [Hl ->]]]]]].
  simpl in HL, Hch. injection HL as <-. injection Hch as Hch.
  exists n, n', sp, Lp. rewrite <- Hch, py_len_canon.
  repeat split; auto; congruence.
Qed.

Lemma honest_node2 : honest [(peer_a, node2)].
Proof. intros n s [E|[]]. injection E as <- <-. split; vm_compute; reflexivity. Qed.

Lemma resolve_honest_longer_witness :
  exists n n' sp Lp, In n [peer_a] /\ In (n', sp) [(peer_a, node2)] /\ node_url n' = node_url n /\
    chain (set_chain node0 (canon (chain node2))) = canon (chain sp) /\
    py_len (chain (set_chain node0 (canon (chain node2)))) = Ok Lp /\
    Z.of_nat (List.length [g0]) < Lp /\
    valid_chain (chain (set_chain node0 (canon (chain node2)))) = Ok true.
Proof.
  apply (resolve_honest_longer [(peer_a, node2)] [peer_a] node0
           (set_chain node0 (canon (chain node2))) [g0]).
  - reflexivity.
  - exact honest_node2.
  - vm_compute. reflexivity.
Defined.

(** ** The spec's round trip: [is_valid] after serialising and parsing back *)

(** A value with no dict inside: its [str()] does not depend on the order
    in which dict items were inserted. *)
Fixpoint dict_free (v : pyval) : bool :=
  match v with
  | PDict _ => false
  | PList l => forallb dict_free l
  | _ => true
  end.

(** Each block's [proof], when it has one, is dict-free. *)
Definition plain_proof (b : pyval) : bool :=
  match getitem_str b "proof" with Ok p => dict_free p | Err _ => true end.

Definition plain_proofs (c : pyval) : bool :=
  match c with PList l => forallb plain_proof l | _ => true end.

Lemma canon_dict_free v : dict_free v = true -> canon v = v.
Proof.
  induction v as [| | | | |l IH|d IH]; simpl; try reflexivity; [|discriminate].
  intros Hl. f_equal. induction IH as [|x Hx l _ IHl]; [reflexivity|].
  simpl in Hl. apply andb_prop in Hl as [H1 H2]. simpl. rewrite Hx, IHl; auto.
Qed.

Lemma dict_lookup_map (g : pyval -> pyval) d k :
  dict_lookup (map (fun '(k, x) => (k, g x)) d) k = option_map g (dict_lookup d k).
Proof.
  induction d as [|[k' x] d IH]; simpl; [reflexivity|].
  destruct (String.eqb k k'); [reflexivity|exact IH].
Qed.

Lemma dict_lookup_Some_In d k v :
  List.NoDup (map fst d) -> dict_lookup d k = Some v <-> In (k, v) d.
Proof.
  induction d as [|[k' x] d IH]; simpl; [split; [discriminate|tauto]|].
  intros Hnd. inversion Hnd as [|? ? Hk Hnd']; subst.
  destruct (String.eqb_spec k k') as [->|Hne]; split.
  - intros H; injection H as ->. left. reflexivity.
  - intros [H|H]; [injection H as ->; reflexivity|].
    exfalso. apply Hk. apply in_map_iff. exists (k', v). auto.
  - intros H. right. apply IH; assumption.
  - intros [H|H]; [injection H as -> ->; congruence|]. apply IH; assumption.
Qed.

Lemma dict_lookup_None d k : dict_lookup d k = None <-> ~ In k (map fst d).
Proof.
  induction d as [|[k' x] d IH]; simpl; [tauto|].
  destruct (String.eqb_spec k k') as [->|Hne]; [split; [discriminate|tauto]|].
  rewrite IH. split; [intros H [H'|H']; congruence|tauto].
Qed.

(** Lookups in two orders of the same items with distinct keys agree. *)
Lemma dict_lookup_perm d1 d2 k :
  List.NoDup (map fst d1) -> Permutation d1 d2 -> dict_lookup d1 k = dict_lookup d2 k.
Proof.
  intros Hnd Hp.
  assert (Hnd2 : List.NoDup (map fst d2)) by exact (Permutation_NoDup (Permutation_map fst Hp) Hnd).
  destruct (dict_lookup d1 k) as [v|] eqn:E.
  - apply (dict_lookup_Some_In d1 k v Hnd) in E. symmetry.
    apply dict_lookup_Some_In; [exact Hnd2|]. exact (Permutation_in _ Hp E).
  - apply dict_lookup_None in E. symmetry. apply dict_lookup_None.
    intros H. apply E. exact (Permutation_in _ (Permutation_map fst (Permutation_sym Hp)) H).
Qed.

(** The items of [canon (PDict d)]. *)
Local Abbreviation canon_items d := (sort_items (map (fun '(k, x) => (k, canon x)) d)).

Lemma canon_items_keys d : Permutation (map fst (canon_items d)) (map fst d).
Proof.
  transitivity (map fst (map (fun '(k, x) => (k, canon x)) d));
    [apply Permutation_map, sort_items_perm|].
  rewrite map_map. apply Permutation_refl'. apply map_ext. intros [k x]. reflexivity.
Qed.

Lemma dict_lookup_canon d k :
  List.NoDup (map fst d) -> dict_lookup (canon_items d) k = option_map canon (dict_lookup d k).
Proof.
  intros Hnd. rewrite <- dict_lookup_perm with (d1 := map (fun '(k, x) => (k, canon x)) d).
  - apply dict_lookup_map.
  - replace (map fst (map (fun '(k, x) => (k, canon x)) d)) with (map fst d); [exact Hnd|].
    rewrite map_map. apply map_ext. intros [k' x]. reflexivity.
  - symmetry. apply sort_items_perm.
Qed.

Lemma getitem_str_canon v k :
  wfb v = true -> getitem_str (canon v) k = res_map canon (getitem_str v k).
Proof.
  destruct v as [| | | | | |d]; try reflexivity. simpl. intros [Hnd _]%andb_prop.
  rewrite dict_lookup_canon by exact (nodup_keys_List_NoDup _ Hnd).
  destruct (dict_lookup d k); reflexivity.
Qed.

Lemma eq_str_canon v s : eq_str (canon v) s = eq_str v s.
Proof. destruct v; reflexivity. Qed.

Lemma hash_canon v : wfb v = true -> hash (canon v) = hash v.
Proof.
  intros Hw. unfold hash, dumps.
  rewrite (dumps_same_items _ _ v (canon v) Hw (same_items_canon v)). reflexivity.
Qed.

Lemma link_ok_canon prev b :
  wfb prev = true -> wfb b = true -> plain_proof prev = true -> plain_proof b = true ->
  link_ok (canon prev) (canon b) = link_ok prev b.
Proof.
  unfold link_ok, plain_proof. intros Hwp Hwb Hpp Hpb.
  rewrite !getitem_str_canon by assumption.
  destruct (getitem_str b "previous_hash") as [ph|e]; simpl; [|reflexivity].
  rewrite eq_str_canon, hash_canon by assumption.
  destruct (negb (eq_str ph (hash prev))); [reflexivity|].
  destruct (getitem_str prev "proof") as [lp|e]; simpl; [|reflexivity].
  destruct (getitem_str b "proof") as [p|e]; simpl; [|reflexivity].
  rewrite !canon_dict_free by assumption. reflexivity.
Qed.

Lemma links_canon prev l :
  wfb prev = true -> plain_proof prev = true ->
  forallb wfb l = true -> forallb plain_proof l = true ->
  links (canon prev) (map canon l) = links prev l.
Proof.
  revert prev. induction l as [|b l IH]; intros prev Hw Hp Hwl Hpl; [reflexivity|].
  simpl in Hwl, Hpl. apply andb_prop in Hwl as [Hwb Hwl]. apply andb_prop in Hpl as [Hpb Hpl].
  simpl. rewrite link_ok_canon by assumption.
  destruct (link_ok prev b) as [[|]|e]; simpl; auto.
Qed.

(** [valid_chain] reads a chain and its [canon] alike when no proof is a dict. *)
Lemma valid_chain_canon c :
  wfb c = true -> plain_proofs c = true -> valid_chain (canon c) = valid_chain c.
Proof.
  destruct c as [| | | | |[|b0 l]|d]; intros Hw Hp; try reflexivity.
  simpl in Hw, Hp. apply andb_prop in Hw as [Hw0 Hw]. apply andb_prop in Hp as [Hp0 Hp].
  simpl canon. rewrite !valid_chain_as_links. apply links_canon; assumption.
Qed.

(** The counterexample with a dict proof: the genesis block (proof 100) and a
    block whose proof [{'b': 56646, 'a': 0}] passes [valid_proof] against
    100 as written, while its key-sorted copy [{'a': 0, 'b': 56646}] does not. *)
Definition dict_proof : pyval := PDict [("b", PInt 56646); ("a", PInt 0)].
Definition dict_proof_block : pyval := make_block 2 ts1 [] dict_proof (hash g0).
Definition dict_proof_chain : pyval := PList [g0; dict_proof_block].

(** ** The shape of the data across the wire *)

Lemma nodup_keys_iff ks : nodup_keys ks = true <-> List.NoDup ks.
Proof.
  split; [apply nodup_keys_List_NoDup|].
  induction 1 as [|k ks Hk _ IH]; [reflexivity|]. simpl. rewrite IH, andb_true_r.
  apply negb_true_iff, not_true_iff_false. intros [k' [Hin Heq]]%existsb_exists.
  apply String.eqb_eq in Heq. subst. contradiction.
Qed.

Lemma canon_items_nodup d : nodup_keys (map fst (canon_items d)) = nodup_keys (map fst d).
Proof.
  apply eq_true_iff_eq. rewrite !nodup_keys_iff. split; apply Permutation_NoDup;
    [|symmetry]; apply canon_items_keys.
Qed.

Lemma canon_items_length d : List.length (canon_items d) = List.length d.
Proof. rewrite <- (length_map fst), (Permutation_length (canon_items_keys d)), length_map. reflexivity. Qed.

Lemma dict_lookup_wfb d k v :
  forallb (fun '(_, x) => wfb x) d = true -> dict_lookup d k = Some v -> wfb v = true.
Proof.
  induction d as [|[k' x] d IH]; simpl; [discriminate|]. intros [Hx Hd]%andb_prop.
  destruct (String.eqb k k'); [congruence|auto].
Qed.

Lemma has_key_canon d k :
  List.NoDup (map fst d) -> has_key (canon_items d) k = has_key d k.
Proof. intros Hnd. unfold has_key. rewrite dict_lookup_canon by exact Hnd. destruct (dict_lookup d k); reflexivity. Qed.

Lemma tx_shape_canon t : wfb t = true -> tx_shape (canon t) = tx_shape t.
Proof.
  destruct t as [| | | | |l|d]; try reflexivity. simpl. intros [Hnd _]%andb_prop.
  apply nodup_keys_List_NoDup in Hnd.
  rewrite canon_items_nodup, canon_items_length, !has_key_canon by exact Hnd. reflexivity.
Qed.

Lemma forallb_map_canon (f : pyval -> bool) l :
  (forall x, wfb x = true -> f (canon x) = f x) -> forallb wfb l = true ->
  forallb f (map canon l) = forallb f l.
Proof.
  intros Hf. induction l as [|x l IH]; simpl; [reflexivity|]. intros [Hx Hl]%andb_prop.
  rewrite Hf, IH by assumption. reflexivity.
Qed.

Lemma block_shape_canon b : wfb b = true -> block_shape (canon b) = block_shape b.
Proof.
  destruct b as [| | | | |l|d]; try reflexivity. simpl. intros [Hnd Hw]%andb_prop.
  pose proof (nodup_keys_List_NoDup _ Hnd) as Hnd'.
  rewrite canon_items_nodup, canon_items_length, !dict_lookup_canon by exact Hnd'.
  destruct (dict_lookup d "index") as [[]|]; simpl; try reflexivity.
  destruct (dict_lookup d "timestamp") as [[]|]; simpl; try reflexivity.
  destruct (dict_lookup d "transactions") as [[| | | | |txs|]|] eqn:Etx; simpl; try reflexivity.
  destruct (dict_lookup d "proof") as [[]|]; simpl; try reflexivity.
  destruct (dict_lookup d "previous_hash") as [[]|]; simpl; try reflexivity.
  rewrite forallb_map_canon; [reflexivity|exact tx_shape_canon|].
  exact (dict_lookup_wfb _ _ _ Hw Etx).
Qed.

Lemma chain_shape_canon c : wfb c = true -> chain_shape (canon c) = chain_shape c.
Proof.
  destruct c as [| | | | |[|b l]|]; try reflexivity. intros Hw.
  change (forallb block_shape (map canon (b :: l)) = forallb block_shape (b :: l)).
  apply forallb_map_canon; [exact block_shape_canon|exact Hw].
Qed.

(** Peers whose chains have the spec's shape. *)
Definition shaped (peers : list (netloc * blockchain)) : Prop :=
  forall n s, In (n, s) peers -> chain_shape (chain s) = true.

Lemma resolve_network_typed peers order s :
  honest peers -> shaped peers -> typed s = true ->
  typed (fst (resolve_conflicts (network peers) order s)) = true.
Proof.
  intros Hh Hs Ht. destruct (resolve_conflicts (network peers) order s) as [s' r] eqn:E. simpl.
  assert (r = Ok true \/ r <> Ok true) as [->|Hne] by (destruct r as [[|]|e]; [left|right..]; congruence);
    [|rewrite (resolve_not_true_same _ _ _ _ _ E Hne); exact Ht].
  destruct (resolve_true_adopted _ _ _ _ E) as [_ [[n [j [_ [Hj Hc]]]] [Htx _]]].
  destruct (honest_reply_200 _ _ _ Hh Hj) as [n' [sp [Lp [Hin [_ [_ ->]]]]]].
  simpl in Hc. injection Hc as Hc.
  unfold typed in *. rewrite <- Hc, Htx, chain_shape_canon by exact (proj1 (Hh _ _ Hin)).
  rewrite (Hs _ _ Hin). apply andb_prop in Ht as [_ Ht]. exact Ht.
Qed.

(** C35: composition of the node with a network of nodes running this
    program: when every peer's chain is one [jsonify] writes and
    [json.loads] reads back and has the spec's shape, every state of the
    node, whatever requests it serves ([/nodes/resolve] included), keeps
    the type invariant: a chain adopted from a peer is that peer's chain
    with sorted keys, which has the same shape. *)
Theorem network_reachable_typed (node_identifier : string) (peers : list (netloc * blockchain))
    (now0 : pyfloat) (s : blockchain) :
  honest peers -> shaped peers ->
  reachable node_identifier (network peers) any_request now0 s -> typed s = true.
Proof.
  intros Hh Hs. apply reachable_typed. intros order s0 _. apply resolve_network_typed; assumption.
Qed.

(** ** The round trip of the wire format *)

Lemma roundtrip_plain (c : pyval) :
  wfb c = true -> floats_ok c = true -> plain_proofs c = true ->
  loads (jsonify c) = Ok (canon c) /\ valid_chain (canon c) = valid_chain c.
Proof.
  intros Hw Hf Hp. split; [apply loads_jsonify_eq|apply valid_chain_canon]; assumption.
Qed.

(** C29: the spec's round trip ([is_valid] gives the same answer after
    serialising and parsing back), for chains [jsonify] writes and
    [json.loads] reads back: it holds when no proof is a dict (the chain
    read back is the chain with its dicts in key order), and it fails for
    a dict proof, since [valid_proof] hashes [str(proof)], whose text
    follows the dict's insertion order while the wire format sorts the
    keys: [dict_proof_chain] is valid as the node holds it, and the chain
    a peer decodes from its [jsonify] is not. *)
Theorem jsonify_roundtrip_valid :
  (forall c : pyval, wfb c = true -> floats_ok c = true -> plain_proofs c = true ->
     loads (jsonify c) = Ok (canon c) /\ valid_chain (canon c) = valid_chain c) /\
  (wfb dict_proof_chain = true /\ floats_ok dict_proof_chain = true /\
   valid_chain dict_proof_chain = Ok true /\
   exists c', loads (jsonify dict_proof_chain) = Ok c' /\ valid_chain c' = Ok false).
Proof.
  split; [exact roundtrip_plain|].
  assert (Hw : wfb dict_proof_chain = true) by (vm_compute; reflexivity).
  assert (Hf : floats_ok dict_proof_chain = true) by (vm_compute; reflexivity).
  split; [exact Hw|split; [exact Hf|split; [vm_compute; reflexivity|]]].
  exists (canon dict_proof_chain). split; [apply loads_jsonify_eq; assumption|].
  vm_compute. reflexivity.
Qed.

Lemma jsonify_roundtrip_valid_witness :
  loads (jsonify (chain node2)) = Ok (canon (chain node2)) /\
  valid_chain (canon (chain node2)) = valid_chain (chain node2).
Proof.
  apply (proj1 jsonify_roundtrip_valid (chain node2)); vm_compute; reflexivity.
Defined.

Lemma shaped_node2 : shaped [(peer_a, node2)].
Proof. intros n s [E|[]]. injection E as <- <-. vm_compute. reflexivity. Qed.

(** [node0] registers [a:5000] and adopts [node2]'s chain from it. *)
Definition net_demo1 : blockchain := fst (handle nid (network [(peer_a, node2)]) register_a node0).
Definition net_demo2 : blockchain :=
  fst (handle nid (network [(peer_a, node2)]) (Resolve [peer_a]) net_demo1).

Lemma net_demo2_reachable : reachable nid (network [(peer_a, node2)]) any_request ts0 net_demo2.
Proof.
  apply reach_step with net_demo1; [apply reach_step with node0; [apply reach_init|]|];
    apply step_of_handle; try exact I; vm_compute; reflexivity.
Qed.

Lemma network_reachable_typed_witness : typed net_demo2 = true.
Proof.
  apply (network_reachable_typed nid [(peer_a, node2)] ts0 net_demo2);
    [exact honest_node2|exact shaped_node2|exact net_demo2_reachable].
Defined.

End Wire.
