(* ===== verification/Http.v ===== *)
(** * The HTTP surface of the node: Flask routing, [request.get_json] and the responses

    The five view functions of src/blockchain.py (lines 164-255) are
    reached through Flask: the URL map matches the path exactly (no rule
    ends with a slash), a method outside the rule's [methods] is answered
    405 (a GET rule also serves HEAD, with the body dropped, and every rule
    answers OPTIONS itself), an unknown path 404.  [request.get_json()]
    (Flask 2.3 and later) refuses a body whose mimetype is not JSON with
    415 and a body [json.loads] cannot read with 400.  A view's return
    value becomes the response: [jsonify(d), status] is
    [application/json] with [Wire.jsonify d]; a bare str ['Missing
    values'] is [text/html]; an exception escaping the view is Flask's 500
    page.  The bodies of Werkzeug's HTML error pages are not modelled.

    [serve] is one request served on the global [blockchain]; the search
    of [/mine] runs on the fuel given with the request and [time()] is its
    argument [now]; [/nodes/resolve] walks [self.nodes] in the order
    [enum] gives, any enumeration of the set.

    The theorems: every request served is a step of [Node.step] or leaves
    the object as it was, so every state reachable over HTTP is a state of
    the node model and inherits its invariants; and a request refused as
    malformed (unknown path, method not allowed, body that is not JSON,
    transaction without its three fields) changes nothing. *)

From Stdlib Require Import ZArith List String Ascii Lia Bool.
From stdpp Require Import base gmap strings.
From S2P Require Import Prelude PyFloat PyValue Json JsonDecode Hasher Chain Samples Validator Consensus Node Wire.
Import ListNotations PyFloat PyValue Json JsonDecode Chain Samples Validator Consensus Node Wire.
Open Scope Z_scope.

Module Http.

Inductive meth := GET | HEAD | POST | OPTIONS | OtherMethod (m : string).

(** The request as the WSGI layer hands it over: method, path, the
    mimetype of [Content-Type] (lowercased, without parameters) and the
    body text. *)
Record http_request := HttpRequest {
  method : meth;
  path : string;
  mimetype : string;
  body : string
}.

Record http_response := HttpResponse {
  status : Z;
  content_type : string;
  text : string
}.

(** The five [@app.route] rules. *)
Inductive route := RMine | RNewTransaction | RChain | RRegisterNodes | RResolve.

Definition route_of (p : string) : option route :=
  if String.eqb p "/mine" then Some RMine
  else if String.eqb p "/transactions/new" then Some RNewTransaction
  else if String.eqb p "/chain" then Some RChain
  else if String.eqb p "/nodes/register" then Some RRegisterNodes
  else if String.eqb p "/nodes/resolve" then Some RResolve
  else None.

(** [methods=['GET']] also admits HEAD; [methods=['POST']] only POST. *)
Definition allows (r : route) (m : meth) : bool :=
  match r, m with
  | (RMine | RChain | RResolve), (GET | HEAD) => true
  | (RNewTransaction | RRegisterNodes), POST => true
  | _, _ => false
  end.

(** [str.endswith]. *)
Definition ends_with (suffix s : string) : bool :=
  (String.length suffix <=? String.length s)%nat &&
  String.eqb (substring (String.length s - String.length suffix) (String.length suffix) s) suffix.

(** [Request.is_json]. *)
Definition is_json (mt : string) : bool :=
  String.eqb mt "application/json" || (String.prefix "application/" mt && ends_with "+json" mt).

(** [request.get_json()]: the decoded body, or the status of the HTTP
    error it raises. *)
Definition get_json (req : http_request) : Z + pyval :=
  if negb (is_json (mimetype req)) then inl 415
  else match loads (body req) with Ok v => inr v | Err _ => inl 400 end.

(** A Werkzeug error page. *)
Definition error_page (st : Z) : http_response := HttpResponse st "text/html" EmptyString.

(** The response Flask builds from what the view returned or raised. *)
Definition render (r : res response) : http_response :=
  match r with
  | Ok (st, PStr t) => HttpResponse st "text/html" t
  | Ok (st, v) => HttpResponse st "application/json" (jsonify v)
  | Err _ => error_page 500
  end.

(** HEAD sends the headers of GET and no body. *)
Definition for_method (m : meth) (resp : http_response) : http_response :=
  match m with HEAD => HttpResponse (status resp) (content_type resp) EmptyString | _ => resp end.

(** A client's POST of a JSON text. *)
Definition json_post (p b : string) : http_request := HttpRequest POST p "application/json" b.

(** The HTTP request a client sends for each request of the node model:
    the route's path, its method, and for the two POST routes the body
    [jsonify] writes. *)
Definition http_of (q : request) : http_request :=
  match q with
  | Mine _ _ => HttpRequest GET "/mine" EmptyString EmptyString
  | NewTransaction v => json_post "/transactions/new" (jsonify v)
  | FullChain => HttpRequest GET "/chain" EmptyString EmptyString
  | RegisterNodes v => json_post "/nodes/register" (jsonify v)
  | Resolve _ => HttpRequest GET "/nodes/resolve" EmptyString EmptyString
  end.

(** The values a JSON body carries: [json.loads] reads back exactly the
    value (distinct keys in key order, floats that read back). *)
Definition json_value (v : pyval) : Prop := wfb v = true /\ floats_ok v = true /\ canon v = v.

Section Serve.

Variable node_identifier : string.
Variable fetch : string -> reply.
Variable enum : gset netloc -> list netloc.

(** The view of route [r] as a request of the node model, or the status
    of the error [request.get_json()] raised before the view could run. *)
Definition view (fuel : nat) (now : pyfloat) (r : route) (req : http_request) (s : blockchain)
    : Z + request :=
  match r with
  | RMine => inr (Mine fuel now)
  | RChain => inr FullChain
  | RResolve => inr (Resolve (enum (nodes s)))
  | RNewTransaction => match get_json req with inl st => inl st | inr v => inr (NewTransaction v) end
  | RRegisterNodes => match get_json req with inl st => inl st | inr v => inr (RegisterNodes v) end
  end.

(** One request served; [None] while the search of [/mine] has not
    finished. *)
Definition serve (fuel : nat) (now : pyfloat) (req : http_request) (s : blockchain)
    : blockchain * option http_response :=
  match route_of (path req) with
  | None => (s, Some (error_page 404))
  | Some r =>
      match method req with
      | OPTIONS => (s, Some (HttpResponse 200 "text/html" EmptyString))
      | m =>
          if negb (allows r m) then (s, Some (error_page 405))
          else
            match view fuel now r req s with
            | inl st => (s, Some (error_page st))
            | inr q =>
                let '(s', out) := handle node_identifier fetch q s in
                (s', option_map (fun o => for_method m (render o)) out)
            end
      end
  end.

(** The states reachable from [Blockchain()] over HTTP. *)
Inductive http_reachable (now0 : pyfloat) : blockchain -> Prop :=
| http_init : http_reachable now0 (init now0)
| http_step s s' fuel now req resp :
    http_reachable now0 s -> serve fuel now req s = (s', Some resp) -> http_reachable now0 s'.

(** ** Which answers can be 4xx *)

(** Run the plumbing of the monad and split on every [match] left. *)
Ltac run_handler H :=
  repeat (chainrun; try case_match); simplify_eq; simpl in *; auto.

Lemma handle_client_error q s s' st b :
  handle node_identifier fetch q s = (s', Some (Ok (st, b))) -> 400 <= st < 500 -> s' = s.
Proof.
  intros H Hst. destruct q as [fuel now|v| |v|order]; simpl in H.
  - unfold mine in H. run_handler H; lia.
  - unfold handle_new_transaction in H. run_handler H; lia.
  - unfold handle_full_chain in H. run_handler H; lia.
  - unfold handle_register_nodes in H. run_handler H; lia.
  - unfold handle_consensus in H. run_handler H; lia.
Qed.

(** A served request either answers without running a view, leaving the
    object, or is the node's [handle] of the request its view makes. *)
Lemma serve_cases fuel now req s s' resp :
  serve fuel now req s = (s', Some resp) ->
  s' = s \/
  exists r q o, route_of (path req) = Some r /\ view fuel now r req s = inr q /\
    handle node_identifier fetch q s = (s', Some o) /\ resp = for_method (method req) (render o).
Proof.
  unfold serve. destruct (route_of (path req)) as [r|];
    [|intros H; injection H as <- _; left; reflexivity].
  destruct (method req) eqn:Em;
    try (intros H; injection H as <- _; left; reflexivity; fail);
  (destruct (negb (allows r _)); [intros H; injection H as <- _; left; reflexivity|]);
  (destruct (view fuel now r req s) as [st|q] eqn:Ev;
    [intros H; injection H as <- _; left; reflexivity|]);
  (destruct (handle node_identifier fetch q s) as [s1 [o|]] eqn:Eh; simpl; intros H; [|discriminate]);
  injection H as <- <-; right; exists r, q, o; auto.
Qed.

Lemma render_status m st b : status (for_method m (render (Ok (st, b)))) = st.
Proof. destruct m, b; reflexivity. Qed.

(** C21: the spec's MalformedRequest: every answer in the 4xx range (an
    unknown path 404, a method the rule does not allow 405, a body that
    is not JSON 415 or unreadable 400, a transaction without its three
    fields or a registration without [nodes] 400) leaves the object
    exactly as it was. *)
Theorem client_error_unchanged fuel now req s s' resp :
  serve fuel now req s = (s', Some resp) -> 400 <= status resp < 500 -> s' = s.
Proof.
  intros H Hst. destruct (serve_cases _ _ _ _ _ _ H) as [->|[r [q [o [_ [_ [Hh ->]]]]]]]; [reflexivity|].
  destruct o as [[st b]|e]; [|destruct (method req); simpl in Hst; lia].
  rewrite render_status in Hst. exact (handle_client_error _ _ _ _ _ Hh Hst).
Qed.

(** The requests of the node model a client can make of the server
    when it serves with [fuel] and [now]: bodies are JSON values, and a
    resolution walks the peers in the server's order. *)
Definition sendable (fuel : nat) (now : pyfloat) (q : request) (s : blockchain) : Prop :=
  match q with
  | Mine fuel' now' => fuel' = fuel /\ now' = now
  | NewTransaction v | RegisterNodes v => json_value v
  | FullChain => True
  | Resolve order => order = enum (nodes s)
  end.

(** The states the node model reaches by such requests. *)
Inductive sent_reachable (now0 : pyfloat) : blockchain -> Prop :=
| sent_init : sent_reachable now0 (init now0)
| sent_step s q s' r fuel now :
    sent_reachable now0 s -> sendable fuel now q s ->
    handle node_identifier fetch q s = (s', Some r) -> sent_reachable now0 s'.

Lemma get_json_value p v : json_value v -> get_json (json_post p (jsonify v)) = inr v.
Proof.
  intros [Hw [Hf Hc]]. unfold get_json. simpl. rewrite loads_jsonify_eq by assumption.
  rewrite Hc. reflexivity.
Qed.

(** Flask routes the request of [q] to the view of [q], which runs the
    handler on the value the client sent. *)
Lemma serve_http_of fuel now q s :
  sendable fuel now q s ->
  serve fuel now (http_of q) s =
    (fst (handle node_identifier fetch q s), option_map render (snd (handle node_identifier fetch q s))).
Proof.
  intros Hq. destruct q as [fuel' now'|v| |v|order]; simpl in Hq;
    [destruct Hq as [-> ->]| | | |subst order]; unfold serve; cbn -[handle get_json jsonify];
    try rewrite (get_json_value _ _ Hq);
    match goal with |- context [handle _ _ ?q ?s] => destruct (handle _ _ q s) as [s' [o|]] end;
    reflexivity.
Qed.

Lemma sent_http_reachable now0 s : sent_reachable now0 s -> http_reachable now0 s.
Proof.
  induction 1 as [|s q s' r fuel now _ IH Hq Hh]; [apply http_init|].
  apply (http_step _ s s' fuel now (http_of q) (render r) IH).
  rewrite (serve_http_of fuel now q s Hq), Hh. reflexivity.
Qed.

Section Refinement.

(** The order [enum] is an enumeration of the set. *)
Hypothesis enum_perm : forall ns, Permutation (enum ns) (elements ns).

Lemma view_admissible fuel now r req s q : view fuel now r req s = inr q -> admissible q s.
Proof.
  destruct r; simpl; intros H;
    [injection H as <-; exact I|unfold get_json in H; repeat case_match; simplify_eq; exact I
    |injection H as <-; exact I|unfold get_json in H; repeat case_match; simplify_eq; exact I
    |injection H as <-; apply enum_perm].
Qed.

(** One request served is a step of the node model or changes nothing. *)
Lemma serve_step fuel now req s s' resp :
  serve fuel now req s = (s', Some resp) -> s' = s \/ step node_identifier fetch any_request s s'.
Proof.
  intros H. destruct (serve_cases _ _ _ _ _ _ H) as [->|[r [q [o [_ [Hv [Hh _]]]]]]]; [left; reflexivity|].
  right. exact (step_serve _ _ _ q s s' o I (view_admissible _ _ _ _ _ _ Hv) Hh).
Qed.

Lemma http_reachable_node now0 s :
  http_reachable now0 s -> reachable node_identifier fetch any_request now0 s.
Proof.
  induction 1 as [|s s' fuel now req resp _ IH H]; [apply reach_init|].
  destruct (serve_step _ _ _ _ _ _ H) as [->|Hs]; [exact IH|exact (reach_step _ _ _ _ _ _ IH Hs)].
Qed.

End Refinement.

End Serve.


(** ** Witnesses *)

(** The transaction [(A, B, 10)] as a client serialises it. *)
Definition tx_values : pyval := PDict [("sender", PStr "A"); ("recipient", PStr "B"); ("amount", PInt 10)].
Definition post_tx : http_request := json_post "/transactions/new" (jsonify tx_values).

Definition enum_elements (ns : gset netloc) : list netloc := elements ns.

(** The transaction with its keys in the order [jsonify] writes them. *)
Definition tx_sorted : pyval := PDict [("amount", PInt 10); ("recipient", PStr "B"); ("sender", PStr "A")].

Definition sent_demo1 : blockchain := fst (handle nid fetch_pgpb (NewTransaction tx_sorted) node0).


(** The same body sent as [text/plain]: 415, nothing changes. *)
Definition text_post : http_request := HttpRequest POST "/transactions/new" "text/plain" (jsonify tx_values).

Lemma client_error_unchanged_witness : node0 = node0.
Proof.
  apply (client_error_unchanged nid fetch_pgpb enum_elements 0 ts1 text_post node0 node0 (error_page 415));
    [vm_compute; reflexivity|simpl; lia].
Defined.

(** [/nodes/register] with a good address followed by one whose brackets
    do not match: [register_node] has already added ['a:5000'] when
    [urlparse] raises [ValueError] on the second, so the client gets 500
    and the peer stays registered. *)
Definition register_bad : http_request :=
  json_post "/nodes/register" (jsonify (PDict [("nodes", PList [PStr "http://a:5000"; PStr "http://[b"])])).

Lemma register_partial_apply :
  let '(s', resp) := serve nid fetch_pgpb enum_elements 0 ts1 register_bad node0 in
  option_map status resp = Some 500 /\ nodes s' = {[NetStr "a:5000"]} /\ chain s' = chain node0.
Proof. vm_compute. auto. Qed.

End Http.
