(* ===== verification/Cluster.v ===== *)
(** * A cluster of nodes: several servers running this program over HTTP

    The program is meant to run on several machines at once: each
    process imports src/blockchain.py, which builds its [Blockchain()]
    (line 171) and starts Flask's server with
    [app.run(host='0.0.0.0', port=5000)] (lines 258-259), so every node
    listens on port 5000 of its host.  Nodes learn about each other
    through [/nodes/register] and talk only through [resolve_conflicts],
    which asks each registered peer for [http://{node}/chain].

    A [cluster] maps each server's address ([host:5000], as the peers
    write it) to the state of its [Blockchain] object.  [cstep] is one
    event of the whole system: a new server starts ([app.run] on a host
    with no server yet) or one server serves one HTTP request
    ([Http.serve]) while the others keep their state; the peers it
    fetches from answer with their current state ([transport]).  A
    request is served as one atomic event (the threads of Flask's server
    are the subject of [Threads]).  [creachable ok] are the clusters
    reached from no server at all by events each taken in a cluster
    satisfying [ok].

    The theorems: every server of every reachable cluster holds a valid
    chain; in runs where every chain is one [jsonify] writes and
    [json.loads] reads back, every server also keeps the spec's block
    schema; a [/nodes/resolve] whose peers are all servers raises nothing
    and answers 200, and then leaves the node with a chain at least as
    long as that of every registered server; two servers that resolve in
    turn end with chains of the same length. *)

From Stdlib Require Import ZArith List String Ascii Lia Bool Permutation FinFun.
From stdpp Require Import base gmap strings.
From S2P Require Import Prelude PyFloat PyValue Json JsonDecode Hasher Chain Samples Validator Consensus Node Shape Wire Http.
Import ListNotations PyFloat PyValue Json JsonDecode Chain Samples Validator Consensus Node Shape Wire Http.
Open Scope Z_scope.

Module Cluster.

(** ** The cluster *)

(** Each server's address and the state of its [Blockchain] object. *)
Definition cluster := gmap string blockchain.

(** The servers as the peers of [Wire.network]: the URL of [host:port]
    is [http://host:port/chain]. *)
Definition peers_of (c : cluster) : list (netloc * blockchain) :=
  map (fun kv => (NetStr kv.1, kv.2)) (map_to_list c).

(** [requests.get] inside the cluster. *)
Definition transport (c : cluster) : string -> reply := network (peers_of c).

(** [app.run(host='0.0.0.0', port=5000)]: the port is fixed, the host is
    the machine's. *)
Definition address (host : string) : string := (host ++ ":5000")%string.

Section Cluster.

(** Each server's [node_identifier] and the order in which its set of
    peers is walked. *)
Variable ids : string -> string.
Variable enum : gset netloc -> list netloc.

(** One event of the system, taken in a cluster satisfying [ok]. *)
Inductive cstep (ok : cluster -> Prop) : cluster -> cluster -> Prop :=
| cstep_start c host now :
    c !! address host = None -> cstep ok c (<[address host := init now]> c)
| cstep_serve c a s s' fuel now req resp :
    ok c -> c !! a = Some s ->
    serve (ids a) (transport c) enum fuel now req s = (s', Some resp) ->
    cstep ok c (<[a := s']> c).

Inductive creachable (ok : cluster -> Prop) : cluster -> Prop :=
| creach_none : creachable ok ∅
| creach_step c c' : creachable ok c -> cstep ok c c' -> creachable ok c'.

End Cluster.

(** ** The transport *)

Lemma sapp_cancel_r (a b t : string) : (a ++ t = b ++ t)%string -> a = b.
Proof.
  revert b. induction a as [|x a IH]; intros [|y b] H; simpl in H; try reflexivity.
  - apply (f_equal String.length) in H. rewrite !slength_app in H. simpl in H. lia.
  - apply (f_equal String.length) in H. rewrite !slength_app in H. simpl in H. lia.
  - injection H as -> H. f_equal. exact (IH b H).
Qed.

Lemma node_url_inj (a b : string) : node_url (NetStr a) = node_url (NetStr b) -> a = b.
Proof. simpl. intros H. repeat injection H as H. exact (sapp_cancel_r a b "/chain" H). Qed.

(** [find] on a list whose keys are distinct returns the one element the
    test accepts. *)
Lemma find_unique {K V} (f : K * V -> bool) (l : list (K * V)) k v :
  List.NoDup (map fst l) -> In (k, v) l -> f (k, v) = true ->
  (forall k' v', In (k', v') l -> f (k', v') = true -> k' = k) ->
  find f l = Some (k, v).
Proof.
  induction l as [|[k0 v0] l IH]; intros Hnd Hin Hf Hu; [destruct Hin|].
  apply List.NoDup_cons_iff in Hnd as [Hn Hnd]. simpl.
  destruct (f (k0, v0)) eqn:E.
  - pose proof (Hu k0 v0 (or_introl eq_refl) E) as ->.
    destruct Hin as [Heq|Hin]; [rewrite Heq; reflexivity|].
    exfalso. apply Hn. apply in_map_iff. exists (k, v). auto.
  - destruct Hin as [Heq|Hin]; [injection Heq as -> ->; congruence|].
    apply IH; auto. intros k' v' Hin'. apply Hu. right. exact Hin'.
Qed.

Lemma in_peers_of c n s : In (n, s) (peers_of c) <-> exists a, n = NetStr a /\ c !! a = Some s.
Proof.
  unfold peers_of. rewrite in_map_iff. split.
  - intros [[a s0] [E Hin]]. injection E as <- <-. exists a. split; [reflexivity|].
    apply elem_of_map_to_list, list_elem_of_In. exact Hin.
  - intros [a [-> Ha]]. exists (a, s). split; [reflexivity|].
    apply list_elem_of_In, elem_of_map_to_list. exact Ha.
Qed.

Lemma peers_of_nodup c : List.NoDup (map fst (peers_of c)).
Proof.
  unfold peers_of. rewrite map_map. simpl.
  rewrite <- (map_map fst NetStr). apply Injective_map_NoDup.
  - intros x y E. injection E as E. exact E.
  - apply NoDup_ListNoDup, NoDup_fst_map_to_list.
Qed.

(** The server at [a] answers the URL of [a] with its own [/chain]. *)
Lemma transport_server c a s :
  c !! a = Some s -> transport c (node_url (NetStr a)) = chain_reply s.
Proof.
  intros Ha. unfold transport, network.
  rewrite (find_unique _ _ (NetStr a) s (peers_of_nodup c)); [reflexivity| | |].
  - apply in_peers_of. eauto.
  - apply String.eqb_refl.
  - intros k' v' Hin E. apply String.eqb_eq in E.
    apply in_peers_of in Hin as [a' [-> _]]. rewrite (node_url_inj _ _ E). reflexivity.
Qed.

(** ** Invariants of the cluster *)

(** A block of the schema has an int proof, which the wire format keeps. *)
Lemma block_shape_plain b : block_shape b = true -> plain_proof b = true.
Proof.
  destruct b as [| | | | | |d]; try discriminate. unfold block_shape, plain_proof, getitem_str.
  intros Hb. apply andb_prop in Hb as [_ Hb].
  destruct (dict_lookup d "index") as [[]|], (dict_lookup d "timestamp") as [[]|],
    (dict_lookup d "transactions") as [[]|], (dict_lookup d "proof") as [[]|],
    (dict_lookup d "previous_hash") as [[]|]; try discriminate; reflexivity.
Qed.

Lemma chain_shape_plain c : chain_shape c = true -> plain_proofs c = true.
Proof.
  destruct c as [| | | | |[|b l]|]; try discriminate. unfold chain_shape, plain_proofs.
  intros Hb. apply forallb_forall. intros x Hx.
  apply block_shape_plain. exact (proj1 (forallb_forall _ _) Hb x Hx).
Qed.

Section Invariants.

Variable ids : string -> string.
Variable enum : gset netloc -> list netloc.
Hypothesis enum_perm : forall ns, Permutation (enum ns) (elements ns).

(** Rule induction on the runs of the cluster for a property of each
    server: one that every new server has and every step of a server (in
    a cluster whose servers all have it) keeps. *)
Lemma creachable_forall (ok : cluster -> Prop) (P : blockchain -> Prop) c :
  (forall now, P (init now)) ->
  (forall c a s s', ok c -> map_Forall (fun _ => P) c -> c !! a = Some s ->
     step (ids a) (transport c) any_request s s' -> P s') ->
  creachable ids enum ok c -> map_Forall (fun _ => P) c.
Proof.
  intros Hinit Hstep. induction 1 as [|c c' _ IH Hs]; [apply map_Forall_empty|].
  destruct Hs as [c host now _|c a s s' fuel now req resp Hok Ha Hserve].
  - apply map_Forall_insert_2; [apply Hinit|exact IH].
  - apply map_Forall_insert_2; [|exact IH].
    destruct (serve_step _ _ _ enum_perm _ _ _ _ _ _ Hserve) as [->|Hst];
      [exact (map_Forall_lookup_1 _ _ _ _ IH Ha)|exact (Hstep _ _ _ _ Hok IH Ha Hst)].
Qed.

Lemma cluster_valid ok c :
  creachable ids enum ok c -> map_Forall (fun _ s => valid_chain (chain s) = Ok true) c.
Proof.
  apply creachable_forall; [intros now; rewrite init_eq; reflexivity|].
  intros c0 a s s' _ Hall Ha Hst. exact (step_chain_valid _ _ _ _ _ Hst (Hall _ _ Ha)).
Qed.

Lemma shaped_of_typed s : typed s = true -> chain_shape (chain s) = true.
Proof. unfold typed. intros H. apply andb_prop in H. tauto. Qed.

Lemma typed_shaped c : map_Forall (fun _ s => typed s = true) c -> shaped (peers_of c).
Proof.
  intros Hall n s Hin. apply in_peers_of in Hin as [a [_ Ha]].
  exact (shaped_of_typed _ (Hall _ _ Ha)).
Qed.

Lemma cluster_typed (ok : cluster -> Prop) c :
  (forall c0, ok c0 -> honest (peers_of c0)) ->
  creachable ids enum ok c -> map_Forall (fun _ s => typed s = true) c.
Proof.
  intros Hh. apply creachable_forall; [intros now; reflexivity|].
  intros c0 a s s' Hok Hall Ha Hst.
  refine (step_typed _ _ _ _ _ _ Hst (Hall _ _ Ha)).
  intros order s0 _ Ht.
  exact (resolve_network_typed _ order s0 (Hh _ Hok) (typed_shaped c0 Hall) Ht).
Qed.

(** C9: the invariant of the whole system: in every cluster reachable
    from no server by starting servers and serving requests (one at a
    time, in any order, whatever the requests), every server holds a
    chain [valid_chain] accepts; in the runs where every server's chain
    is one [jsonify] writes and [json.loads] reads back, every server
    also keeps the spec's schema of blocks and transactions, the chains
    it adopts from its peers included. *)
Theorem cluster_invariant (ok : cluster -> Prop) (c : cluster) :
  creachable ids enum ok c ->
  map_Forall (fun _ s => valid_chain (chain s) = Ok true) c /\
  ((forall c0, ok c0 -> honest (peers_of c0)) -> map_Forall (fun _ s => typed s = true) c).
Proof.
  intros Hr. split; [exact (cluster_valid ok c Hr)|intros Hh; exact (cluster_typed ok c Hh Hr)].
Qed.

(** ** A resolution inside the cluster *)

(** The request of [/nodes/resolve]. *)
Definition resolve_req : http_request := HttpRequest GET "/nodes/resolve" EmptyString EmptyString.

Lemma serve_resolve_ok ident fetch fuel now s s' resp :
  serve ident fetch enum fuel now resolve_req s = (s', Some resp) -> status resp = 200 ->
  exists rb, resolve_conflicts fetch (enum (nodes s)) s = (s', Ok rb).
Proof.
  unfold serve. simpl. unfold handle_consensus, pbind at 1.
  destruct (resolve_conflicts fetch (enum (nodes s)) s) as [s1 [rb|e]]; simpl;
    intros H; injection H as <- <-; [eauto|simpl; lia].
Qed.

(** What a server [b] of the cluster answers to [/chain] in a run where
    chains survive the wire format: status 200, its chain with sorted
    keys, which passes [valid_chain], and its true length. *)
Lemma server_reply c b sb :
  creachable ids enum (fun c0 => honest (peers_of c0)) c -> honest (peers_of c) ->
  c !! b = Some sb ->
  exists Lb, py_len (chain sb) = Ok Lb /\ valid_chain (canon (chain sb)) = Ok true /\
    transport c (node_url (NetStr b)) =
      Response 200 (Some (PDict [("chain", canon (chain sb)); ("length", PInt Lb)])).
Proof.
  intros Hr Hh Hsb.
  assert (In (NetStr b, sb) (peers_of c)) as Hin by (apply in_peers_of; eauto).
  destruct (Hh _ _ Hin) as [Hw Hf].
  pose proof (cluster_typed _ c (fun _ H => H) Hr _ _ Hsb) as Ht.
  destruct (typed_elim sb Ht) as [l [Hc _]].
  exists (Z.of_nat (List.length l)). assert (HL : py_len (chain sb) = Ok (Z.of_nat (List.length l)))
    by (rewrite Hc; reflexivity).
  split; [exact HL|split].
  - rewrite valid_chain_canon; [exact (cluster_valid _ c Hr _ _ Hsb)|exact Hw|].
    apply chain_shape_plain, shaped_of_typed. exact Ht.
  - rewrite (transport_server c b sb Hsb). exact (chain_reply_honest sb _ Hw Hf HL).
Qed.

(** Its chain, read back, qualifies against any shorter local chain. *)
Lemma peer_qualifies c b sb Lb local :
  creachable ids enum (fun c0 => honest (peers_of c0)) c -> honest (peers_of c) ->
  c !! b = Some sb -> py_len (chain sb) = Ok Lb -> local < Lb ->
  qualifies (transport c) local (NetStr b) Lb (canon (chain sb)).
Proof.
  intros Hr Hh Hsb HLb Hlt.
  destruct (server_reply c b sb Hr Hh Hsb) as [Lb' [HL [Hv Hrep]]].
  rewrite HL in HLb. injection HLb as <-.
  split; [|split; [exact Hlt|exact Hv]].
  exists (PDict [("chain", canon (chain sb)); ("length", PInt Lb')]). rewrite Hrep. repeat split.
Qed.

(** One iteration of the loop on a server of the cluster does not raise. *)
Lemma visit_server c b sb m nc :
  creachable ids enum (fun c0 => honest (peers_of c0)) c -> honest (peers_of c) ->
  c !! b = Some sb -> exists m' nc', visit (transport c) (PInt m, nc) (NetStr b) = Ok (PInt m', nc').
Proof.
  intros Hr Hh Hsb. destruct (server_reply c b sb Hr Hh Hsb) as [Lb [_ [Hv Hrep]]].
  unfold visit. rewrite Hrep. simpl. unfold gt_num. simpl. rewrite Hv. simpl.
  destruct (m <? Lb); eauto.
Qed.

(** The whole loop, when every peer is a server of the cluster. *)
Lemma visit_all_servers c order m nc :
  creachable ids enum (fun c0 => honest (peers_of c0)) c -> honest (peers_of c) ->
  (forall n, In n order -> exists b sb, n = NetStr b /\ c !! b = Some sb) ->
  exists m' nc', visit_all (transport c) (PInt m, nc) order = Ok (PInt m', nc').
Proof.
  intros Hr Hh. revert m nc. induction order as [|n order IH]; intros m nc Hall;
    cbn [visit_all]; [eauto|].
  destruct (Hall n (or_introl eq_refl)) as [b [sb [-> Hsb]]].
  destruct (visit_server c b sb m nc Hr Hh Hsb) as [m1 [nc1 ->]]. cbn [res_bind].
  apply IH. intros n' Hn'. apply Hall. right. exact Hn'.
Qed.

(** The chain adopted from a reply of the cluster has the length the
    reply reported. *)
Lemma adopted_length c n L ch local :
  honest (peers_of c) -> qualifies (transport c) local n L ch -> py_len ch = Ok L.
Proof.
  intros Hh [[j [Hj [HL Hch]]] _].
  destruct (honest_reply_200 _ _ _ Hh Hj) as [n' [sp [Lp [_ [_ [Hl ->]]]]]].
  simpl in HL, Hch. injection HL as <-. injection Hch as <-. rewrite py_len_canon. exact Hl.
Qed.

(** The longest-chain rule across the cluster (the proof of C20). *)
Lemma catches_up c a s s' fuel now resp b sb Lb :
  creachable ids enum (fun c0 => honest (peers_of c0)) c -> honest (peers_of c) ->
  c !! a = Some s ->
  serve (ids a) (transport c) enum fuel now resolve_req s = (s', Some resp) -> status resp = 200 ->
  NetStr b ∈ nodes s -> c !! b = Some sb -> py_len (chain sb) = Ok Lb ->
  exists L, py_len (chain s') = Ok L /\ Lb <= L.
Proof.
  intros Hr Hh Ha Hs Hst Hb Hsb HLb.
  destruct (serve_resolve_ok _ _ _ _ _ _ _ Hs Hst) as [rb Hres].
  destruct (typed_elim s (cluster_typed _ c (fun _ H => H) Hr _ _ Ha)) as [l [Hc _]].
  assert (In (NetStr b) (enum (nodes s))) as Hin
    by (apply (Permutation_in _ (Permutation_sym (enum_perm _))), list_elem_of_In, elem_of_elements;
        exact Hb).
  pose proof (resolve_adopts_best _ _ _ _ l rb Hc (honest_int_lengths _ _ Hh) Hres) as H.
  cbv zeta in H. destruct rb.
  - destruct H as [n [L [_ [Hq Hmax]]]]. exists L. split; [exact (adopted_length c _ _ _ _ Hh Hq)|].
    destruct Hq as [_ [Hlt _]].
    destruct (Z_le_gt_dec Lb (Z.of_nat (List.length l))) as [Hle|Hgt]; [lia|].
    exact (Hmax _ _ _ Hin (peer_qualifies c b sb Lb _ Hr Hh Hsb HLb (Z.gt_lt _ _ Hgt))).
  - destruct H as [-> Hnone]. exists (Z.of_nat (List.length l)). rewrite Hc. split; [reflexivity|].
    destruct (Z_le_gt_dec Lb (Z.of_nat (List.length l))) as [Hle|Hgt]; [exact Hle|].
    destruct (Hnone _ _ _ Hin (peer_qualifies c b sb Lb _ Hr Hh Hsb HLb (Z.gt_lt _ _ Hgt))).
Qed.

(** C20: the longest-chain rule across the cluster: in a run where every
    chain is one [jsonify] writes and [json.loads] reads back, when a
    server answers [/nodes/resolve] with 200, its chain is afterwards at
    least as long as the chain of every server it has registered, whether
    it adopted a chain or kept its own. *)
Theorem resolve_catches_up c a s s' fuel now resp b sb Lb :
  creachable ids enum (fun c0 => honest (peers_of c0)) c -> honest (peers_of c) ->
  c !! a = Some s ->
  serve (ids a) (transport c) enum fuel now resolve_req s = (s', Some resp) -> status resp = 200 ->
  NetStr b ∈ nodes s -> c !! b = Some sb -> py_len (chain sb) = Ok Lb ->
  exists L, py_len (chain s') = Ok L /\ Lb <= L.
Proof. apply catches_up. Qed.

(** C24: the error paths of a resolution inside the cluster: in a run
    where chains survive the wire format, a [/nodes/resolve] on a server
    all of whose registered peers are servers of the cluster raises
    nothing: every peer answers 200 with a readable chain whose reported
    length is an int, every chain compared is validated without an
    exception, and the server answers 200 (unlike a peer that cannot be
    reached, [Consensus.resolve_unreachable_aborts]). *)
Theorem resolve_in_cluster_answers c a s fuel now :
  creachable ids enum (fun c0 => honest (peers_of c0)) c -> honest (peers_of c) ->
  c !! a = Some s ->
  (forall n, n ∈ nodes s -> exists b sb, n = NetStr b /\ c !! b = Some sb) ->
  exists s' resp, serve (ids a) (transport c) enum fuel now resolve_req s = (s', Some resp) /\
    status resp = 200.
Proof.
  intros Hr Hh Ha Hall.
  destruct (typed_elim s (cluster_typed _ c (fun _ H => H) Hr _ _ Ha)) as [l [Hc _]].
  destruct (visit_all_servers c (enum (nodes s)) (Z.of_nat (List.length l)) None Hr Hh)
    as [m' [nc' Hv]].
  { intros n Hn. apply Hall. apply elem_of_elements, list_elem_of_In.
    exact (Permutation_in _ (enum_perm _) Hn). }
  unfold serve. cbn -[resolve_conflicts]. unfold handle_consensus, pbind at 1.
  rewrite resolve_conflicts_eq, Hc. cbn [py_len]. rewrite Hv.
  destruct nc' as [c'|]; cbn; [destruct (truthy c')|]; eexists _, _; split; reflexivity.
Qed.

(** A server whose only peer is [a'] ends a resolution answered 200
    with its own chain or with the chain of [a']. *)
Lemma resolve_only_peer c b sb sb' fuel now resp a' sa' :
  creachable ids enum (fun c0 => honest (peers_of c0)) c -> honest (peers_of c) ->
  c !! b = Some sb -> nodes sb = {[NetStr a']} -> c !! a' = Some sa' ->
  serve (ids b) (transport c) enum fuel now resolve_req sb = (sb', Some resp) -> status resp = 200 ->
  py_len (chain sb') = py_len (chain sb) \/ py_len (chain sb') = py_len (chain sa').
Proof.
  intros Hr Hh Hb Hn Ha Hs Hst.
  destruct (serve_resolve_ok _ _ _ _ _ _ _ Hs Hst) as [rb Hres].
  destruct (typed_elim sb (cluster_typed _ c (fun _ H => H) Hr _ _ Hb)) as [l [Hc _]].
  pose proof (resolve_adopts_best _ _ _ _ l rb Hc (honest_int_lengths _ _ Hh) Hres) as H.
  cbv zeta in H. destruct rb; [|destruct H as [-> _]; left; reflexivity].
  destruct H as [n [L [Hin [Hq _]]]]. right. rewrite (adopted_length c _ _ _ _ Hh Hq).
  rewrite Hn in Hin. apply (Permutation_in _ (enum_perm _)) in Hin.
  rewrite elements_singleton in Hin. destruct Hin as [<-|[]].
  destruct (server_reply c a' sa' Hr Hh Ha) as [La [HLa [_ Hrep]]].
  destruct Hq as [[j [Hj [HL _]]] _]. unfold transport in Hrep. rewrite Hrep in Hj. injection Hj as <-.
  simpl in HL. injection HL as ->. symmetry. exact HLa.
Qed.

(** C30: two servers converge: in a run where chains survive the wire
    format, when [a] (which has registered [b]) resolves, and then [b]
    (whose only peer is [a]) resolves, both answering 200, the two
    servers end with chains of the same length, the longer of the two
    they started with. *)
Theorem two_resolves_agree c a sa sa' ra b sb sb' rb fuel1 now1 fuel2 now2 :
  creachable ids enum (fun c0 => honest (peers_of c0)) c -> a <> b ->
  c !! a = Some sa -> c !! b = Some sb -> NetStr b ∈ nodes sa -> nodes sb = {[NetStr a]} ->
  honest (peers_of c) ->
  serve (ids a) (transport c) enum fuel1 now1 resolve_req sa = (sa', Some ra) -> status ra = 200 ->
  honest (peers_of (<[a := sa']> c)) ->
  serve (ids b) (transport (<[a := sa']> c)) enum fuel2 now2 resolve_req sb = (sb', Some rb) ->
  status rb = 200 ->
  exists L, py_len (chain sa') = Ok L /\ py_len (chain sb') = Ok L.
Proof.
  intros Hr Hab Ha Hb Hba Hnb Hh Hsa Hra Hh' Hsb Hrb.
  assert (Hr' : creachable ids enum (fun c0 => honest (peers_of c0)) (<[a := sa']> c))
    by (apply creach_step with c; [exact Hr|exact (cstep_serve _ _ _ _ _ _ _ _ _ _ _ Hh Ha Hsa)]).
  assert (Hb' : <[a := sa']> c !! b = Some sb)
    by (etransitivity; [apply lookup_insert_ne; congruence|exact Hb]).
  assert (Ha' : <[a := sa']> c !! a = Some sa') by apply lookup_insert_eq.
  destruct (typed_elim sb (cluster_typed _ c (fun _ H => H) Hr _ _ Hb)) as [lb [Hcb _]].
  assert (HLb : py_len (chain sb) = Ok (Z.of_nat (List.length lb))) by (rewrite Hcb; reflexivity).
  destruct (catches_up c a sa sa' fuel1 now1 ra b sb _ Hr Hh Ha Hsa Hra Hba Hb HLb) as [L1 [HL1 Hle1]].
  destruct (catches_up _ b sb sb' fuel2 now2 rb a sa' L1 Hr' Hh' Hb' Hsb Hrb
              ltac:(rewrite Hnb; apply elem_of_singleton; reflexivity) Ha' HL1) as [L2 [HL2 Hle2]].
  exists L1. split; [exact HL1|].
  destruct (resolve_only_peer _ b sb sb' fuel2 now2 rb a sa' Hr' Hh' Hb' Hnb Ha' Hsb Hrb) as [E|E];
    rewrite HL2 in E; [rewrite HLb in E|rewrite HL1 in E]; injection E as ->; [|exact HL2].
  replace L1 with (Z.of_nat (List.length lb)) by lia. exact HL2.
Qed.

End Invariants.

(** ** Witnesses *)

Lemma honest_peers_of c :
  map_Forall (fun _ s => wfb (chain s) = true /\ floats_ok (chain s) = true) c -> honest (peers_of c).
Proof. intros H n s Hin. apply in_peers_of in Hin as [a [_ Ha]]. exact (H _ _ Ha). Qed.

(** A request served by [a] in [c], as a step of the cluster. *)
Lemma cstep_serve_run ids enum (ok : cluster -> Prop) c a s fuel now req :
  ok c -> c !! a = Some s -> is_Some (snd (serve (ids a) (transport c) enum fuel now req s)) ->
  cstep ids enum ok c (<[a := fst (serve (ids a) (transport c) enum fuel now req s)]> c).
Proof.
  intros Hok Ha [resp E]. destruct (serve (ids a) (transport c) enum fuel now req s) as [s' o] eqn:Es.
  simpl in E |- *. subst o. exact (cstep_serve _ _ _ _ _ _ _ _ _ _ _ Hok Ha Es).
Qed.

Definition ids1 (_ : string) : string := nid.

Lemma elements_perm (ns : gset netloc) : Permutation (elements ns) (elements ns).
Proof. reflexivity. Qed.

(** Two servers start on hosts [b] and [a]; [a] registers [b]. *)
Definition cl1 : cluster := <[address "b" := init ts0]> ∅.
Definition cl2 : cluster := <[address "a" := init ts0]> cl1.
Definition register_b : http_request :=
  json_post "/nodes/register" (jsonify (PDict [("nodes", PList [PStr "http://b:5000"])])).
Definition a_registered : blockchain :=
  fst (serve (ids1 "a:5000") (transport cl2) elements 0 ts1 register_b (init ts0)).
Definition cl3 : cluster := <["a:5000" := a_registered]> cl2.

Lemma cl3_honest : honest (peers_of cl3).
Proof.
  apply honest_peers_of. repeat apply map_Forall_insert_2; try apply map_Forall_empty;
    split; vm_compute; reflexivity.
Qed.

Lemma cl2_honest : honest (peers_of cl2).
Proof.
  apply honest_peers_of. repeat apply map_Forall_insert_2; try apply map_Forall_empty;
    split; vm_compute; reflexivity.
Qed.

Lemma cl3_reachable : creachable ids1 elements (fun c0 => honest (peers_of c0)) cl3.
Proof.
  apply creach_step with cl2; [apply creach_step with cl1; [apply creach_step with ∅|]|].
  - apply creach_none.
  - apply cstep_start. reflexivity.
  - apply cstep_start. reflexivity.
  - apply cstep_serve_run; [exact cl2_honest|reflexivity|vm_compute; eexists; reflexivity].
Qed.

Lemma cluster_invariant_witness :
  map_Forall (fun _ s => valid_chain (chain s) = Ok true) cl3 /\
  ((forall c0, honest (peers_of c0) -> honest (peers_of c0)) ->
   map_Forall (fun _ s => typed s = true) cl3).
Proof. apply (cluster_invariant ids1 elements elements_perm _ cl3). exact cl3_reachable. Defined.

Lemma resolve_in_cluster_answers_witness :
  exists s' resp, serve (ids1 "a:5000") (transport cl3) elements 0 ts1 resolve_req a_registered =
    (s', Some resp) /\ status resp = 200.
Proof.
  apply (resolve_in_cluster_answers ids1 elements elements_perm cl3 "a:5000" a_registered 0 ts1).
  - exact cl3_reachable.
  - exact cl3_honest.
  - reflexivity.
  - intros n Hn. assert (E : nodes a_registered = {[NetStr "b:5000"]}) by (vm_compute; reflexivity).
    rewrite E in Hn. apply elem_of_singleton in Hn as ->. exists "b:5000", (init ts0).
    split; reflexivity.
Defined.

Definition resp_of (o : option http_response) : http_response :=
  match o with Some r => r | None => error_page 500 end.

(** [a] resolves against [b]: both chains have one block. *)
Definition a_resolved : blockchain * option http_response :=
  serve (ids1 "a:5000") (transport cl3) elements 0 ts1 resolve_req a_registered.

Lemma resolve_catches_up_witness :
  exists L, py_len (chain (fst a_resolved)) = Ok L /\ 1 <= L.
Proof.
  apply (resolve_catches_up ids1 elements elements_perm cl3 "a:5000" a_registered (fst a_resolved)
           0 ts1 (resp_of (snd a_resolved)) "b:5000" (init ts0) 1).
  - exact cl3_reachable.
  - exact cl3_honest.
  - reflexivity.
  - vm_compute. reflexivity.
  - vm_compute. reflexivity.
  - vm_compute. set_solver.
  - reflexivity.
  - reflexivity.
Defined.

(** [b] registers [a] in turn; then [a] resolves, then [b]. *)
Definition register_a : http_request :=
  json_post "/nodes/register" (jsonify (PDict [("nodes", PList [PStr "http://a:5000"])])).
Definition b_registered : blockchain :=
  fst (serve (ids1 "b:5000") (transport cl3) elements 0 ts1 register_a (init ts0)).
Definition cl4 : cluster := <["b:5000" := b_registered]> cl3.
Definition a_round : blockchain * option http_response :=
  serve (ids1 "a:5000") (transport cl4) elements 0 ts1 resolve_req a_registered.
Definition b_round : blockchain * option http_response :=
  serve (ids1 "b:5000") (transport (<["a:5000" := fst a_round]> cl4)) elements 0 ts2 resolve_req
    b_registered.

Lemma cl4_reachable : creachable ids1 elements (fun c0 => honest (peers_of c0)) cl4.
Proof.
  apply creach_step with cl3; [exact cl3_reachable|].
  apply cstep_serve_run; [exact cl3_honest|reflexivity|vm_compute; eexists; reflexivity].
Qed.

Lemma honest_cl4 : honest (peers_of cl4).
Proof.
  apply honest_peers_of. repeat apply map_Forall_insert_2; try apply map_Forall_empty;
    split; vm_compute; reflexivity.
Qed.

Lemma honest_cl4_round : honest (peers_of (<["a:5000" := fst a_round]> cl4)).
Proof.
  apply honest_peers_of. repeat apply map_Forall_insert_2; try apply map_Forall_empty;
    split; vm_compute; reflexivity.
Qed.

Lemma two_resolves_agree_witness :
  exists L, py_len (chain (fst a_round)) = Ok L /\ py_len (chain (fst b_round)) = Ok L.
Proof.
  apply (two_resolves_agree ids1 elements elements_perm cl4 "a:5000" a_registered (fst a_round)
           (resp_of (snd a_round)) "b:5000" b_registered (fst b_round) (resp_of (snd b_round))
           0 ts1 0 ts2).
  - exact cl4_reachable.
  - discriminate.
  - reflexivity.
  - reflexivity.
  - vm_compute. set_solver.
  - vm_compute. reflexivity.
  - exact honest_cl4.
  - vm_compute. reflexivity.
  - vm_compute. reflexivity.
  - exact honest_cl4_round.
  - vm_compute. reflexivity.
  - vm_compute. reflexivity.
Defined.

End Cluster.
