(* ===== verification/Threads.v ===== *)
(** * The node under Flask's threaded server: [/mine] interleaved with other requests

    [app.run] (lines 258-259) starts Werkzeug's development server, which
    since Flask 1.0 serves each request in a thread of its own
    ([threaded=True] is the default).  The handlers share the one global
    [blockchain] and take no lock.  Most handlers are short, but [/mine]
    runs [proof_of_work], an unbounded search, between reading
    [blockchain.last_block] (lines 176-178) and sealing the block
    (lines 181-188); CPython switches threads during such a loop.

    [mine] is split at that point: [mine_search] reads the last block and
    searches a proof for its proof; [mine_seal] appends the reward and
    calls [new_block(proof)], which links the block to whatever block is
    last when it runs; together they are the lines of [Node.mine].  The
    state of the server is the node and the proofs of the [/mine]
    threads whose search has finished and which have not sealed yet; [tstep] runs one whole request of another kind,
    finishes a search, or seals.  The interleavings of this model are
    a subset of the real ones (each phase runs without a switch), so a
    run it exhibits is a run of the server.

    The theorems: sealing keeps the chain valid exactly when the proof
    found is valid against the proof of the block that is last at seal
    time; and two [/mine] requests served at the same time make the chain
    invalid, which the spec (section 5) forbids: mining must be
    serialised against itself and against chain replacement. *)

From Stdlib Require Import ZArith List String Ascii Lia Bool Permutation.
From stdpp Require Import base gmap strings.
From S2P Require Import Prelude PyFloat PyValue Hasher ProofOfWork Chain Samples Validator Consensus Node.
Import ListNotations PyFloat PyValue Hasher ProofOfWork Chain Samples Validator Consensus Node.
Open Scope Z_scope.

Module Threads.

Section Threads.

Variable node_identifier : string.
Variable fetch : string -> reply.

(** Lines 176-178: [last_block = blockchain.last_block],
    [last_proof = last_block['proof']],
    [proof = blockchain.proof_of_work(last_proof)] on fuel; [None] while
    the search goes on. *)
Definition mine_search (fuel : nat) : PyM blockchain (option Z) :=
  lb <- last_block ;;
  last_proof <- plift (getitem_str lb "proof") ;;
  pret (proof_of_work fuel last_proof).

(** Lines 181-197: the reward, [new_block(proof)] and the response. *)
Definition mine_seal (proof : Z) (now : pyfloat) : PyM blockchain response :=
  _ <- new_transaction (PStr "0") (PStr node_identifier) (PInt 1) ;;
  block <- new_block (PInt proof) None now ;;
  index <- plift (getitem_str block "index") ;;
  txs <- plift (getitem_str block "transactions") ;;
  p <- plift (getitem_str block "proof") ;;
  ph <- plift (getitem_str block "previous_hash") ;;
  pret (200, PDict [("message", PStr "New Block Forged"); ("index", index);
                    ("transactions", txs); ("proof", p); ("previous_hash", ph)]).

(** The server: the object and the proofs found by the [/mine] threads
    that have not sealed yet, oldest first. *)
Record tstate := TState { node : blockchain; sealing : list Z }.

Definition not_mine (q : request) : Prop := match q with Mine _ _ => False | _ => True end.

Inductive tstep : tstate -> tstate -> Prop :=
| t_request st q s' r :
    not_mine q -> admissible q (node st) -> handle node_identifier fetch q (node st) = (s', Some r) ->
    tstep st (TState s' (sealing st))
| t_search st fuel p :
    snd (mine_search fuel (node st)) = Ok (Some p) ->
    tstep st (TState (node st) (sealing st ++ [p]))
| t_seal st pre p post now :
    sealing st = pre ++ p :: post ->
    tstep st (TState (fst (mine_seal p now (node st))) (pre ++ post)).

Inductive treachable (now0 : pyfloat) : tstate -> Prop :=
| treach_init : treachable now0 (TState (init now0) [])
| treach_step st st' : treachable now0 st -> tstep st st' -> treachable now0 st'.

(** ** What a seal does to the chain *)

Lemma links_snoc prev l b :
  links prev l = Ok true -> links prev (l ++ [b]) = link_ok (List.last (prev :: l) PNone) b.
Proof.
  revert prev. induction l as [|x l IH]; intros prev H; simpl.
  - destruct (link_ok prev b) as [[|]|e]; reflexivity.
  - simpl in H. destruct (link_ok prev x) as [[|]|e]; simpl in H |- *; try discriminate.
    rewrite (IH x H). destruct l; reflexivity.
Qed.

Lemma valid_nonempty l : valid_chain (PList l) = Ok true -> l <> [].
Proof. intros H ->. discriminate H. Qed.

(** On a list chain whose last block has an int index, a seal appends
    exactly one block, linked to the last block of that moment. *)
Lemma seal_chain p now s l i :
  chain s = PList l -> l <> [] -> getitem_str (List.last l PNone) "index" = Ok (PInt i) ->
  chain (fst (mine_seal p now s)) =
    PList (l ++ [make_block (Z.of_nat (List.length l) + 1) now
                   (current_transactions s ++ [tx (PStr "0") (PStr node_identifier) (PInt 1)])
                   (PInt p) (hash (List.last l PNone))]).
Proof.
  intros Hc Hne Hi. unfold mine_seal. unfold pbind at 1.
  rewrite (new_transaction_eq s l i _ _ _ Hc Hne Hi).
  unfold pbind at 1. rewrite (new_block_eq _ l) by (simpl; assumption).
  reflexivity.
Qed.

(** C16: why the race matters: on a valid chain whose last block has an
    int index, sealing the proof [p] keeps the chain valid exactly when
    [p] is valid against the proof of the block that is last when the
    seal runs (not the one the search started from); a last block
    without [proof] makes [valid_chain] raise [KeyError]. *)
Theorem seal_valid_iff p now s l i :
  chain s = PList l -> valid_chain (chain s) = Ok true ->
  getitem_str (List.last l PNone) "index" = Ok (PInt i) ->
  valid_chain (chain (fst (mine_seal p now s))) =
    res_map (fun lp => valid_proof lp (PInt p)) (getitem_str (List.last l PNone) "proof").
Proof.
  intros Hc Hv Hi. rewrite Hc in Hv. pose proof (valid_nonempty l Hv) as Hne.
  rewrite (seal_chain p now s l i Hc Hne Hi).
  destruct l as [|b0 l]; [congruence|]. rewrite <- app_comm_cons, !valid_chain_as_links.
  rewrite valid_chain_as_links in Hv. rewrite (links_snoc _ _ _ Hv).
  unfold link_ok, make_block. simpl getitem_str. cbn [res_bind eq_str]. rewrite String.eqb_refl.
  destruct (getitem_str (List.last (b0 :: l) PNone) "proof"); reflexivity.
Qed.

End Threads.

(** ** Two [/mine] requests at once *)

Lemma t_request_run node_identifier fetch st q :
  not_mine q -> admissible q (node st) -> is_Some (snd (handle node_identifier fetch q (node st))) ->
  tstep node_identifier fetch st (TState (fst (handle node_identifier fetch q (node st))) (sealing st)).
Proof.
  intros Hq Ha [r E]. destruct (handle node_identifier fetch q (node st)) as [s' o] eqn:Eh.
  simpl in E |- *. subst o. exact (t_request _ _ _ _ _ _ Hq Ha Eh).
Qed.

(** The node registers a peer, adopts its chain [pg; pb] (next proof
    26), and then serves two [/mine] requests in two threads: both
    searches end before either seals. *)
Definition reg_a : pyval := PDict [("nodes", PList [PStr "http://a:5000"])].
Definition th1 : tstate :=
  TState (fst (handle nid fetch_pgpb (RegisterNodes reg_a) (init ts0))) [].
Definition th2 : tstate :=
  TState (fst (handle nid fetch_pgpb (Resolve [NetStr "a:5000"]) (node th1))) [].
Definition th3 : tstate := TState (node th2) [26; 26].
Definition th4 : tstate := TState (fst (mine_seal nid 26 ts1 (node th3))) [26].
Definition th5 : tstate := TState (fst (mine_seal nid 26 ts2 (node th4))) [].

Lemma th5_reachable : treachable nid fetch_pgpb ts0 th5.
Proof.
  apply treach_step with th4; [apply treach_step with th3|].
  - apply treach_step with (TState (node th2) [26]); [apply treach_step with th2|].
    + apply treach_step with th1; [apply treach_step with (TState (init ts0) [])|].
      * apply treach_init.
      * apply (t_request_run _ _ (TState (init ts0) []) (RegisterNodes reg_a));
          [exact I|exact I|vm_compute; eexists; reflexivity].
      * apply (t_request_run _ _ th1 (Resolve [NetStr "a:5000"])); [exact I| |vm_compute; eexists; reflexivity].
        vm_compute. reflexivity.
    + apply (t_search _ _ th2 27 26). vm_compute. reflexivity.
    + apply (t_search _ _ (TState (node th2) [26]) 27 26). vm_compute. reflexivity.
  - apply (t_seal _ _ th3 [] 26 [26] ts1). reflexivity.
  - apply (t_seal _ _ th4 [] 26 [] ts2). reflexivity.
Qed.

(** C32: the race of two [/mine] requests under the threaded server:
    from [Blockchain()], a node that has adopted a peer's chain and
    serves two [/mine] requests whose searches overlap ends with a chain
    [valid_chain] rejects: both searches find the proof for the same last
    block, and the second seal links its block to the first's, against
    whose proof its proof is not valid.  The spec (section 5) requires
    mining to be serialised; nothing in the code does it. *)
Theorem threaded_mine_breaks_chain :
  exists st, treachable nid fetch_pgpb ts0 st /\ valid_chain (chain (node st)) = Ok false.
Proof. exists th5. split; [exact th5_reachable|vm_compute; reflexivity]. Qed.

Lemma seal_valid_iff_witness :
  valid_chain (chain (fst (mine_seal nid 26 ts1 (node th2)))) = Ok true.
Proof.
  rewrite (seal_valid_iff nid 26 ts1 (node th2) [pg; pb] 2); [vm_compute; reflexivity|..];
    vm_compute; reflexivity.
Defined.

End Threads.
